(** * AssetMonitor: the batch prediction pipeline of [app.py]

    A shallow embedding of the condition-monitoring service: the health
    rules, the per-feature mode extraction, the aggregation of the model
    outputs across a batch, the single-reading predictor, the fan-out loop
    over the readings and the request handler.

    Python values are modelled as the code has them:
    - a Python [float] is an IEEE-754 binary64 number, i.e. Rocq's primitive
      [float]; comparisons are the IEEE ones, so [nan] compares false with
      everything; where the code uses floats as the keys of a [Counter], the
      float goes with the one fact of its identity that the lookup of a key
      depends on (see [float_object]);
    - a [dict] with string keys is an association list in insertion order,
      looked up by its first binding;
    - an exception is a value of [exn]; code that can raise returns a
      [result];
    - what Python takes from outside the repository (the string parser behind
      [float(str)], [str] of a float, [numpy.mean], the pickled models) is a
      field of the class [Externals]; the clock reading and the order in
      which the futures of a reading complete are arguments of the functions
      that depend on them. *)

From Stdlib Require Import List String Ascii ZArith Bool Lia PeanoNat Arith.
From Stdlib Require Import Permutation.
From Stdlib Require Import Floats DecimalString.
Import ListNotations.

#[local] Set Warnings "-inexact-float,-register-all".
#[local] Open Scope string_scope.
#[local] Open Scope list_scope.

(* ================================================================== *)
(** ** Exceptions and results *)

Inductive exn_class : Type :=
| KeyError
| ValueError
| TypeError
| OverflowError
| IndexError
| OtherError (name : string).

(** An exception object: its class and [str(e)].  A class stands for itself
    and its subclasses, as an [except] clause reads it. *)
Record exn : Type := mkExn { exn_cls : exn_class; exn_str : string }.

Inductive result (A : Type) : Type :=
| Return (a : A)
| Raise (e : exn).
Arguments Return {A} a.
Arguments Raise {A} e.

Definition bind {A B} (m : result A) (k : A -> result B) : result B :=
  match m with
  | Return a => k a
  | Raise e => Raise e
  end.

Notation "x <- m ;; k" := (bind m (fun x => k))
  (at level 61, m at next level, right associativity).

(** [try: body except (classes) as e: handler]. *)
Definition try_except {A} (body : result A) (catches : exn_class -> bool)
  (handler : exn -> result A) : result A :=
  match body with
  | Return a => Return a
  | Raise e => if catches (exn_cls e) then handler e else Raise e
  end.

(** A list comprehension whose element expression can raise: elements are
    evaluated left to right and the first exception ends the evaluation. *)
Fixpoint comprehension {A B} (f : A -> result B) (l : list A) : result (list B) :=
  match l with
  | [] => Return []
  | a :: l' => b <- f a ;; bs <- comprehension f l' ;; Return (b :: bs)
  end.

(* ================================================================== *)
(** ** Dictionaries with string keys *)

Definition dict (V : Type) : Type := list (string * V).

Fixpoint dict_get {V} (k : string) (d : dict V) : option V :=
  match d with
  | [] => None
  | (k', v) :: d' => if String.eqb k' k then Some v else dict_get k d'
  end.

(** [k in d]. *)
Definition dict_mem {V} (k : string) (d : dict V) : bool :=
  match dict_get k d with Some _ => true | None => false end.

(** [d[k] = v]: an existing key keeps its place, a new one goes last. *)
Fixpoint dict_set {V} (k : string) (v : V) (d : dict V) : dict V :=
  match d with
  | [] => [(k, v)]
  | (k', v') :: d' =>
      if String.eqb k' k then (k', v) :: d' else (k', v') :: dict_set k v d'
  end.

(** [d.update(other)]. *)
Definition dict_update {V} (d other : dict V) : dict V :=
  fold_left (fun acc kv => dict_set (fst kv) (snd kv) acc) other d.

(** [repr(s)] of a str, as CPython writes it.  A character of a string of
    the model is a code point below 256.  The quote is the single quote,
    unless the string holds a single quote and no double quote; the quote
    in use and the backslash are escaped, tab, newline and carriage return
    are written with their letters, and a character that is not printable
    (a control character, the no-break space, the soft hyphen) as a
    backslash, the letter x and two hexadecimal digits. *)
Definition double_quote : ascii := ascii_of_nat 34.
Definition single_quote : ascii := ascii_of_nat 39.
Definition backslash : ascii := ascii_of_nat 92.

Definition hex_digit (n : nat) : ascii :=
  nth n (list_ascii_of_string "0123456789abcdef") "0"%char.

Definition hex_escape (n : nat) : string :=
  String backslash
    (String "x" (String (hex_digit (n / 16)) (String (hex_digit (n mod 16)) EmptyString))).

Definition holds (c : ascii) (s : string) : bool :=
  existsb (Ascii.eqb c) (list_ascii_of_string s).

Definition repr_char (quote c : ascii) : string :=
  let n := nat_of_ascii c in
  if Ascii.eqb c quote || Ascii.eqb c backslash then
    String backslash (String c EmptyString)
  else if Nat.eqb n 9 then String backslash "t"
  else if Nat.eqb n 10 then String backslash "n"
  else if Nat.eqb n 13 then String backslash "r"
  else if Nat.ltb n 32 || Nat.eqb n 127 then hex_escape n
  else if Nat.ltb n 127 then String c EmptyString
  else if Nat.ltb n 161 || Nat.eqb n 173 then hex_escape n
  else String c EmptyString.

Definition repr_str (s : string) : string :=
  let quote :=
    if holds single_quote s && negb (holds double_quote s) then double_quote
    else single_quote in
  String quote
    (fold_right (fun c out => String.append (repr_char quote c) out)
       (String quote EmptyString) (list_ascii_of_string s)).

(** [d[k]] on a dict. *)
Definition dict_subscript {V} (d : dict V) (k : string) : result V :=
  match dict_get k d with
  | Some v => Return v
  | None => Raise (mkExn KeyError (repr_str k))
  end.

(* ================================================================== *)
(** ** Health rules (app.py, lines 38-79) *)

#[local] Open Scope float_scope.

Definition evaluate_machine_condition (temperature vibration : float) : string :=
  if (temperature <? 80) && (vibration <? 1.8) then "Safe Condition"
  else if (temperature <? 100) && (vibration <? 2.8) then "Maintain Condition"
  else "Repair Condition".

Definition detect_temperature_anomaly (temperature : float) : string :=
  if temperature <? 80 then
    "No significant temperature anomaly detected"
  else if (80 <=? temperature) && (temperature <? 100) then
    "Moderate Overheating - Check Lubrication"
  else if (100 <=? temperature) && (temperature <? 120) then
    "Significant Overheating - Possible Misalignment or Bearing Wear"
  else
    "Critical Overheating - Immediate Repair Needed".

Definition detect_vibration_anomaly (vibration : float) : string :=
  if vibration <? 1.8 then
    "No significant vibration anomaly detected"
  else if (1.8 <=? vibration) && (vibration <? 2.8) then
    "Unbalance Fault"
  else if (2.8 <=? vibration) && (vibration <? 4.5) then
    "Misalignment Fault"
  else if (4.5 <=? vibration) && (vibration <? 7.1) then
    "Looseness Fault"
  else
    "Bearing Fault or Gear Mesh Fault".

(** [analyze_health(input_data)]: [input_data] is the dict of modes, whose
    values are floats already, so [float(...)] is the identity on them.
    [now] is [datetime.now().isoformat()]. *)
Definition analyze_health (now : string) (input_data : dict float)
  : result (dict string) :=
  t1 <- dict_subscript input_data "temperature_one" ;;
  t2 <- dict_subscript input_data "temperature_two" ;;
  let avg_temp := (t1 + t2) / 2 in
  vx <- dict_subscript input_data "vibration_x" ;;
  vy <- dict_subscript input_data "vibration_y" ;;
  vz <- dict_subscript input_data "vibration_z" ;;
  let avg_vibration := (vx + vy + vz) / 3 in
  let condition := evaluate_machine_condition avg_temp avg_vibration in
  let overall_health :=
    if String.eqb condition "Safe Condition" then "Healthy" else "Unhealthy" in
  Return [ ("machine_condition", condition);
           ("temperature_analysis", detect_temperature_anomaly avg_temp);
           ("vibration_analysis", detect_vibration_anomaly avg_vibration);
           ("timestamp", now);
           ("overall_health", overall_health) ].

#[local] Close Scope float_scope.

(* ================================================================== *)
(** ** Request data *)

(** What [request.get_json()] yields: a parsed JSON document.  An object is
    the Python dict it was parsed into (one binding per key). *)
Inductive json : Type :=
| JNull
| JBool (b : bool)
| JInt (z : Z)
| JFloat (x : float)
| JStr (s : string)
| JArr (items : list json)
| JObj (fields : dict json).

(** [len(l)]. *)
Definition len {A} (l : list A) : Z := Z.of_nat (List.length l).

(** [input_data[key]] for a string key. *)
Definition subscript (input_data : json) (key : string) : result json :=
  match input_data with
  | JObj fields => dict_subscript fields key
  | JArr _ =>
      Raise (mkExn TypeError "list indices must be integers or slices, not str")
  | JStr _ => Raise (mkExn TypeError "string indices must be integers, not 'str'")
  | JNull => Raise (mkExn TypeError "'NoneType' object is not subscriptable")
  | JBool _ => Raise (mkExn TypeError "'bool' object is not subscriptable")
  | JInt _ => Raise (mkExn TypeError "'int' object is not subscriptable")
  | JFloat _ => Raise (mkExn TypeError "'float' object is not subscriptable")
  end.

(** [float(n)] for a Python int: the nearest binary64 number, ties to even;
    an int beyond the range raises. *)
Definition float_of_int (z : Z) : result float :=
  let x := SF2Prim (binary_normalize prec emax z 0%Z false) in
  if is_infinity x then Raise (mkExn OverflowError "int too large to convert to float")
  else Return x.

(** A prediction as line 112 leaves it: a Python float or a str. *)
Inductive prediction : Type :=
| PNum (x : float)
| PCat (s : string).

(** What [model.predict([X])[0]] hands back: a numpy number (with its value
    as a float), or any other object (with its [str]). *)
Inductive raw_prediction : Type :=
| NpNumber (x : float)
| PyObject (str : string).

(** A loaded model, seen through [model.predict([X_input])[0]]. *)
Definition predictor : Type := list float -> result raw_prediction.

(** What the service takes from outside the repository. *)
Class Externals : Type := {
  (** [float(s)] for a str [s]: [None] when Python raises ValueError. *)
  float_of_str : string -> option float;
  (** [str(x)] for a float [x]. *)
  float_repr : float -> string;
  (** [numpy.mean] of a list of floats. *)
  np_mean : list float -> float;
  (** [joblib.load(f"{name}.pkl")]. *)
  load_model : string -> predictor
}.

(** [str.replace(old, new)] for a non-empty [old]: occurrences are replaced
    from the left, without overlap.  [skip] counts the characters of a
    matched occurrence still to drop. *)
Fixpoint replace_from (old new : string) (skip : nat) (s : string) : string :=
  match s with
  | EmptyString => EmptyString
  | String c s' =>
      match skip with
      | S n => replace_from old new n s'
      | O =>
          if String.prefix old s
          then new ++ replace_from old new (String.length old - 1) s'
          else String c (replace_from old new 0 s')
      end
  end.

Definition replace (old new s : string) : string := replace_from old new 0 s.

(* ================================================================== *)
(** ** The model table (app.py, lines 20-36) *)

Definition model_names : list string :=
  [ "temperature_model";
    "vibration_model";
    "magnetic_flux_model";
    "audible_sound_model";
    "ultra_sound_model" ].

Definition feature_sets : dict (list string) :=
  [ ("temperature_model", ["temperature_one"; "temperature_two"]);
    ("vibration_model", ["vibration_x"; "vibration_y"; "vibration_z"]);
    ("magnetic_flux_model", ["magnetic_flux_x"; "magnetic_flux_y"; "magnetic_flux_z"]);
    ("audible_sound_model", ["vibration_x"; "vibration_y"; "vibration_z"; "audible_sound"]);
    ("ultra_sound_model", ["vibration_x"; "vibration_y"; "vibration_z"; "ultra_sound"]) ].

(* ================================================================== *)
(** ** [collections.Counter] and [most_common(1)] *)

Section Counter.
Context {K : Type} (keq : K -> K -> bool).

(** [counts[k] = counts.get(k, 0) + 1]: a key already present keeps its
    place (and its first-seen representative), a new key goes last. *)
Fixpoint counter_add (k : K) (c : list (K * nat)) : list (K * nat) :=
  match c with
  | [] => [(k, 1)]
  | (k', n) :: c' =>
      if keq k' k then (k', S n) :: c' else (k', n) :: counter_add k c'
  end.

Definition Counter (l : list K) : list (K * nat) :=
  fold_left (fun c k => counter_add k c) l [].

(** [max(items, key=itemgetter(1))]: the first item with the largest count. *)
Fixpoint max_first (best : K * nat) (items : list (K * nat)) : K * nat :=
  match items with
  | [] => best
  | it :: rest =>
      if Nat.ltb (snd best) (snd it) then max_first it rest else max_first best rest
  end.

(** [c.most_common(1)], a list of at most one item. *)
Definition most_common_1 (c : list (K * nat)) : list (K * nat) :=
  match c with
  | [] => []
  | it :: rest => [max_first it rest]
  end.

(** [Counter(values).most_common(1)[0][0]]. *)
Definition most_common_value (values : list K) : result K :=
  match most_common_1 (Counter values) with
  | it :: _ => Return (fst it)
  | [] => Raise (mkExn IndexError "list index out of range")
  end.

End Counter.

(** A float object, as far as the lookup of a key tells objects apart: its
    value, and whether it is a float of the parsed request.  The json parser
    gives every NaN literal of a request the one NaN object of its module,
    so two NaN of the request are the same object; a NaN that [float] makes
    of a string is an object of its own, met once. *)
Definition float_object : Type := (float * bool)%type.

(** The keys of a dict, and so of a [Counter]: two keys are the same key
    when they are the same object or equal ([is] or [==]).  Floats that are
    equal are the same key; a NaN equals nothing, so two NaN are the same
    key only as the same object. *)
Definition same_key (a b : float_object) : bool :=
  PrimFloat.eqb (fst a) (fst b)
  || (snd a && snd b && PrimFloat.is_nan (fst a) && PrimFloat.is_nan (fst b)).

(** Python's [==] on two predictions: a float never equals a str. *)
Definition prediction_eqb (p q : prediction) : bool :=
  match p, q with
  | PNum x, PNum y => PrimFloat.eqb x y
  | PCat s, PCat t => String.eqb s t
  | _, _ => false
  end.

(** A monadic left fold: a [for] loop whose body can raise. *)
Fixpoint for_each {A S} (body : S -> A -> result S) (l : list A) (s : S) : result S :=
  match l with
  | [] => Return s
  | a :: l' => s' <- body s a ;; for_each body l' s'
  end.

(* ================================================================== *)
(** ** The pipeline (app.py, lines 81-171) *)

(** How a loop over futures or readings ends: it runs to its end, or the
    function returns from inside it (line 131), or [future.result()]
    re-raises what the task raised. *)
Inductive loop_exit (A : Type) : Type :=
| Fallthrough (a : A)
| EarlyReturn (d : dict prediction)
| Propagate (e : exn).
Arguments Fallthrough {A} a.
Arguments EarlyReturn {A} d.
Arguments Propagate {A} e.

(** [l.insert(n, x)]: past the end, [x] goes last. *)
Fixpoint insert_at {A} (n : nat) (x : A) (l : list A) : list A :=
  match n, l with
  | O, _ => x :: l
  | S n', [] => [x]
  | S n', y :: l' => y :: insert_at n' x l'
  end.

(** [as_completed(futures)]: the futures in the order they finish.  The order
    is not the program's to choose; [places] fixes one: each future takes its
    place among those submitted after it.  Every list of places yields a
    rearrangement of the futures, and every rearrangement has its places. *)
Fixpoint as_completed {A} (places : list nat) (futures : list A) : list A :=
  match futures with
  | [] => []
  | f :: rest => insert_at (hd 0 places) f (as_completed (tl places) rest)
  end.

Definition json_of_prediction (p : prediction) : json :=
  match p with
  | PNum x => JFloat x
  | PCat s => JStr s
  end.

(** A dict of predictions, of floats, of strings, as JSON. *)
Definition json_of_dict {V} (enc : V -> json) (d : dict V) : json :=
  JObj (map (fun kv => (fst kv, enc (snd kv))) d).

(** The HTTP answer of the handler. *)
Record response : Type := mkResponse { resp_body : json; resp_status : Z }.

(** One task handed to the executor: the reading's index in the batch and
    the model's name. *)
Definition submission : Type := (nat * string)%type.

Section Pipeline.
Context {E : Externals}.

(** [float(v)]. *)
Definition py_float (v : json) : result float :=
  match v with
  | JFloat x => Return x
  | JInt z => float_of_int z
  | JBool b => Return (if b then 1%float else 0%float)
  | JStr s =>
      match float_of_str s with
      | Some x => Return x
      | None =>
          Raise (mkExn ValueError ("could not convert string to float: " ++ repr_str s))
      end
  | JNull =>
      Raise (mkExn TypeError
               "float() argument must be a string or a real number, not 'NoneType'")
  | JArr _ =>
      Raise (mkExn TypeError
               "float() argument must be a string or a real number, not 'list'")
  | JObj _ =>
      Raise (mkExn TypeError
               "float() argument must be a string or a real number, not 'dict'")
  end.

(** [models = {name: joblib.load(...) for name in model_names}]. *)
Definition models : dict predictor :=
  map (fun name => (name, load_model name)) model_names.

(** [str(p)] for a prediction. *)
Definition py_str (p : prediction) : string :=
  match p with
  | PNum x => float_repr x
  | PCat s => s
  end.

(** [isinstance(x, (int, float))] on a prediction. *)
Definition is_number (p : prediction) : bool :=
  match p with
  | PNum _ => true
  | PCat _ => false
  end.

(** The floats among a list of predictions, in order. *)
Definition numbers (l : list prediction) : list float :=
  flat_map (fun p => match p with PNum x => [x] | PCat _ => [] end) l.

(** The keys of [all_values] (lines 83-84). *)
Definition mode_keys : result (list string) :=
  temperature <- dict_subscript feature_sets "temperature_model" ;;
  vibration <- dict_subscript feature_sets "vibration_model" ;;
  magnetic_flux <- dict_subscript feature_sets "magnetic_flux_model" ;;
  audible_sound <- dict_subscript feature_sets "audible_sound_model" ;;
  Return (temperature ++ vibration ++ magnetic_flux ++ skipn 3 audible_sound).

(** [all_values[key].append(x)]. *)
Definition dict_append {V} (key : string) (x : V) (d : dict (list V)) : dict (list V) :=
  map (fun kv => if String.eqb (fst kv) key then (fst kv, snd kv ++ [x]) else kv) d.

(** [float(input_data[key])]. *)
Definition reading_value (input_data : json) (key : string) : result float :=
  v <- subscript input_data key ;; py_float v.

(** [float(input_data[key])], as the object it is: [float] returns a float
    of the request as it is, and makes a new object of anything else. *)
Definition reading_object (input_data : json) (key : string) : result float_object :=
  v <- subscript input_data key ;;
  x <- py_float v ;;
  Return (x, match v with JFloat _ => true | _ => false end).

(** Lines 87-88: the values of one reading, appended key by key. *)
Definition append_reading (all_values : dict (list float_object)) (input_data : json)
  : result (dict (list float_object)) :=
  for_each (fun all_values key =>
      x <- reading_object input_data key ;;
      Return (dict_append key x all_values))
    (map fst all_values) all_values.

(** Line 91: the mode of one feature, the key of the [Counter] that has the
    largest count. *)
Definition set_mode (mode_values : dict float) (kv : string * list float_object)
  : result (dict float) :=
  m <- most_common_value same_key (snd kv) ;;
  Return (dict_set (fst kv) (fst m) mode_values).

Definition calculate_modes (input_data_array : list json) : result (dict float) :=
  keys <- mode_keys ;;
  let all_values : dict (list float_object) :=
    fold_left (fun d key => dict_set key [] d) keys [] in
  all_values <- for_each append_reading input_data_array all_values ;;
  for_each set_mode all_values [].

(** Line 99: the predictions of one model across the batch. *)
Definition model_series (key : string) (predictions_list : list (dict prediction))
  : result (list prediction) :=
  comprehension (fun pred => dict_subscript pred key) predictions_list.

(** Lines 100-104: the aggregate of one model's predictions. *)
Definition aggregate_series (model_predictions : list prediction) : result prediction :=
  if forallb is_number model_predictions then
    Return (PNum (np_mean (numbers model_predictions)))
  else
    most_common <- most_common_value prediction_eqb model_predictions ;;
    Return (PCat (py_str most_common)).

Definition aggregate_predictions (predictions_list : list (dict prediction))
  : result (dict prediction) :=
  for_each (fun aggregated model_name =>
      let key := replace "_model" "" model_name in
      model_predictions <- model_series key predictions_list ;;
      value <- aggregate_series model_predictions ;;
      Return (dict_set key value aggregated))
    model_names [].

Definition predict_single_model (model_name : string) (model : predictor)
  (input_data : json) : result (dict prediction) :=
  features <- dict_subscript feature_sets model_name ;;
  try_except
    (X_input <-
       comprehension (fun feature => reading_value input_data feature) features ;;
     prediction <- model X_input ;;
     let prediction :=
       match prediction with
       | NpNumber x => PNum x
       | PyObject s => PCat s
       end in
     Return [(replace "_model" "" model_name, prediction)])
    (fun c => match c with ValueError | TypeError => true | _ => false end)
    (fun e =>
       Return [("error", PCat ("Invalid input for " ++ model_name ++ ": " ++ exn_str e))]).

(** Lines 128-132: the results of one reading's futures, in completion order. *)
Fixpoint collect (completed : list (result (dict prediction)))
  (predictions : dict prediction) : loop_exit (dict prediction) :=
  match completed with
  | [] => Fallthrough predictions
  | Raise e :: _ => Propagate e
  | Return result :: rest =>
      if dict_mem "error" result then EarlyReturn result
      else collect rest (dict_update predictions result)
  end.

(** Lines 123-125: one task per model, in the order of [models.items()]. *)
Definition submit_all (input_data : json) : list (result (dict prediction)) :=
  map (fun nm => predict_single_model (fst nm) (snd nm) input_data) models.

(** Lines 122-134.  [i] is the index of the next reading; [order i] is the
    completion order of its futures.  The second component lists the tasks
    submitted to the executor. *)
Fixpoint fan_out (order : nat -> list nat) (i : nat) (input_data_array : list json)
  (all_predictions : list (dict prediction))
  : loop_exit (list (dict prediction)) * list submission :=
  match input_data_array with
  | [] => (Fallthrough all_predictions, [])
  | input_data :: rest =>
      let futures := submit_all input_data in
      let submitted := map (fun nm => (i, fst nm)) models in
      match collect (as_completed (order i) futures) [] with
      | Fallthrough predictions =>
          let (exit, later) :=
            fan_out order (S i) rest (all_predictions ++ [predictions]) in
          (exit, submitted ++ later)
      | EarlyReturn result => (EarlyReturn result, submitted)
      | Propagate e => (Propagate e, submitted)
      end
  end.

Definition predict_from_models (order : nat -> list nat) (now : string)
  (input_data_array : list json) : result json * list submission :=
  let (exit, submitted) := fan_out order 0 input_data_array [] in
  match exit with
  | EarlyReturn result => (Return (json_of_dict json_of_prediction result), submitted)
  | Propagate e => (Raise e, submitted)
  | Fallthrough all_predictions =>
      (aggregated_predictions <- aggregate_predictions all_predictions ;;
       modes <- calculate_modes input_data_array ;;
       analysis_summary <- analyze_health now modes ;;
       Return (JObj [ ("predictions", json_of_dict json_of_prediction aggregated_predictions);
                      ("modes", json_of_dict JFloat modes);
                      ("Analysis_summary", json_of_dict JStr analysis_summary) ]),
       submitted)
  end.

Definition error_body (message : string) : json := JObj [("error", JStr message)].

(** The handler of [/predict] (lines 155-171), from the parsed request on. *)
Definition predict (order : nat -> list nat) (now : string) (input_data_array : json)
  : response * list submission :=
  match input_data_array with
  | JArr items =>
      if (1800 <? len items)%Z then
        (mkResponse (error_body "Input array exceeds maximum length of 1800") 400, [])
      else if (len items =? 0)%Z then
        (mkResponse (error_body "Input array cannot be empty") 400, [])
      else
        let (outcome, submitted) := predict_from_models order now items in
        match outcome with
        | Return result => (mkResponse result 200, submitted)
        | Raise e => (mkResponse (error_body (exn_str e)) 500, submitted)
        end
  | _ => (mkResponse (error_body "Input must be an array") 400, [])
  end.

End Pipeline.

(* ================================================================== *)
(** ** Notions the statements below use *)

(** How often [x] occurs in [l], up to the equality [keq] of the keys. *)
Definition count_of {K} (keq : K -> K -> bool) (x : K) (l : list K) : nat :=
  List.length (filter (keq x) l).

(** [v] is the most frequent value of [l], ties broken by first-seen order:
    [v] stands in [l] where its value is first seen, no value occurs more
    often, and every value seen before it occurs strictly less often. *)
Definition most_frequent_first_seen {K} (keq : K -> K -> bool) (l : list K) (v : K)
  : Prop :=
  exists pre post,
    l = pre ++ v :: post
    /\ (forall y, In y pre -> keq y v = false /\ count_of keq y l < count_of keq v l)
    /\ (forall y, In y l -> count_of keq y l <= count_of keq v l).

(** The task the executor runs for one model on one reading. *)
Definition task {E : Externals} (model_name : string) (input_data : json)
  : result (dict prediction) :=
  predict_single_model model_name (load_model model_name) input_data.

(** The answer a failed task leads to: its error dict as returned on line
    131, or the message of the exception it raised (line 171).  [None] for a
    task that delivered a prediction. *)
Definition failure_body (outcome : result (dict prediction)) : option json :=
  match outcome with
  | Raise e => Some (error_body (exn_str e))
  | Return d =>
      if dict_mem "error" d then Some (json_of_dict json_of_prediction d) else None
  end.

(** No task of the reading fails. *)
Definition reading_ok {E : Externals} (input_data : json) : Prop :=
  forall name, In name model_names -> failure_body (task name input_data) = None.

(** The answer the first failed task of a list leads to, if any fails. *)
Fixpoint first_failure (outcomes : list (result (dict prediction))) : option json :=
  match outcomes with
  | [] => None
  | o :: rest =>
      match failure_body o with
      | Some b => Some b
      | None => first_failure rest
      end
  end.

(** The answer a loop that ends early leads to. *)
Definition exit_body {A} (exit : loop_exit A) : option json :=
  match exit with
  | Fallthrough _ => None
  | EarlyReturn d => Some (json_of_dict json_of_prediction d)
  | Propagate e => Some (error_body (exn_str e))
  end.

(** [predictions] holds, under each model's key, what the model's task
    delivered for the reading. *)
Definition predictions_of {E : Externals} (input_data : json)
  (predictions : dict prediction) : Prop :=
  forall name, In name model_names ->
    exists p, task name input_data = Return [(replace "_model" "" name, p)]
              /\ dict_get (replace "_model" "" name) predictions = Some p.

(** The body of the answer the handler makes of what [predict_from_models]
    returned or raised. *)
Definition answer_body (outcome : result json) : json :=
  match outcome with
  | Return result => result
  | Raise e => error_body (exn_str e)
  end.

(** The tasks submitted for [n] readings from index [i] on, one per model. *)
Definition submitted_from (i n : nat) : list submission :=
  flat_map (fun j => map (fun name => (j, name)) model_names) (seq i n).

(** The tasks submitted for the readings of index [0] to [k]. *)
Definition submissions_upto (k : nat) : list submission := submitted_from 0 (S k).

(** The predictions a reading's tasks deliver, as pairs of key and value. *)
Definition delivered (outcomes : list (result (dict prediction))) : dict prediction :=
  flat_map (fun o => match o with Return d => d | Raise _ => [] end) outcomes.

(** [key in body] for a JSON object. *)
Definition has_key (key : string) (body : json) : bool :=
  match body with
  | JObj fields => dict_mem key fields
  | _ => false
  end.

(** [body.get(key)] for a JSON object. *)
Definition field (key : string) (body : json) : option json :=
  match body with
  | JObj fields => dict_get key fields
  | _ => None
  end.

(** The keys of [all_values], lines 83-84 evaluated on [feature_sets]. *)
Definition extracted_features : list string :=
  [ "temperature_one"; "temperature_two";
    "vibration_x"; "vibration_y"; "vibration_z";
    "magnetic_flux_x"; "magnetic_flux_y"; "magnetic_flux_z";
    "audible_sound" ].

(** The column of a feature: its value in every reading, in batch order. *)
Definition feature_column {E : Externals} (key : string) (batch : list json)
  : result (list float) :=
  comprehension (fun input_data => reading_value input_data key) batch.

(** The column of a feature as the mode extractor gathers it: the float
    object of every reading, in batch order. *)
Definition object_column {E : Externals} (key : string) (batch : list json)
  : result (list float_object) :=
  comprehension (fun input_data => reading_object input_data key) batch.

(** Stated by the spec (section 4.4): the features the mode extractor is to
    cover. *)
Definition stated_mode_features : list string :=
  [ "temperature_one"; "temperature_two";
    "vibration_x"; "vibration_y"; "vibration_z";
    "magnetic_flux_x"; "magnetic_flux_y"; "magnetic_flux_z";
    "audible_sound"; "ultra_sound" ].


(** A float that is a number. *)
Definition is_num (x : float) : Prop := PrimFloat.is_nan x = false.

Definition prediction_is_num (p : prediction) : Prop :=
  match p with
  | PNum x => is_num x
  | PCat _ => True
  end.

(* ================================================================== *)
(** ** Sample surroundings and inputs *)

(** [str(x)] for an integer-valued float below 2^53, as Python prints it:
    the digits, then [.0].  A float with a fractional part is not printed
    here (it prints as [?]). *)
Definition repr_integral (x : float) : string :=
  match Prim2SF x with
  | S754_zero s => if s then "-0.0" else "0.0"
  | S754_infinity s => if s then "-inf" else "inf"
  | S754_nan => "nan"
  | S754_finite s m e =>
      let n := Z.shiftl (Zpos m) e in
      if (Z.shiftl n (- e) =? Zpos m)%Z then
        (if s then "-" else "")
          ++ DecimalString.NilZero.string_of_uint (N.to_uint (Z.to_N n)) ++ ".0"
      else "?"
  end.

(** A sample of the surroundings: a parser that knows a few literals, the
    printer above, the mean as a left-to-right sum over the count, a
    regressor for the temperature and classifiers for the rest. *)
Definition sample_float_of_str (s : string) : option float :=
  if String.eqb s "60" then Some 60%float
  else if String.eqb s "0.5" then Some 0.5%float
  else if String.eqb s "nan" then Some nan
  else None.

Definition sample_mean (xs : list float) : float :=
  (fold_left PrimFloat.add xs 0 / SF2Prim (binary_normalize prec emax (len xs) 0%Z false))%float.

Definition sample_model (name : string) : predictor :=
  fun X_input =>
    if String.eqb name "temperature_model" then Return (NpNumber (hd 0%float X_input))
    else if (hd 0%float X_input <? 1.8)%float then Return (PyObject "normal")
    else Return (PyObject "faulty").

Definition sample_externals : Externals :=
  {| float_of_str := sample_float_of_str;
     float_repr := repr_integral;
     np_mean := sample_mean;
     load_model := sample_model |}.

(** A reading with every feature, at safe values. *)
Definition safe_reading : json :=
  JObj [ ("temperature_one", JInt 60); ("temperature_two", JFloat 70);
         ("vibration_x", JFloat 0.5); ("vibration_y", JStr "0.5");
         ("vibration_z", JFloat 0.5);
         ("magnetic_flux_x", JFloat 1); ("magnetic_flux_y", JFloat 2);
         ("magnetic_flux_z", JFloat 3);
         ("audible_sound", JFloat 40); ("ultra_sound", JFloat 20) ].

(** The same reading without [vibration_x]. *)
Definition reading_without_vibration_x : json :=
  JObj [ ("temperature_one", JInt 60); ("temperature_two", JFloat 70);
         ("vibration_y", JFloat 0.5); ("vibration_z", JFloat 0.5);
         ("magnetic_flux_x", JFloat 1); ("magnetic_flux_y", JFloat 2);
         ("magnetic_flux_z", JFloat 3);
         ("audible_sound", JFloat 40); ("ultra_sound", JFloat 20) ].

(** The same reading with a [vibration_x] that is no number. *)
Definition reading_with_bad_vibration_x : json :=
  JObj [ ("temperature_one", JInt 60); ("temperature_two", JFloat 70);
         ("vibration_x", JStr "abc"); ("vibration_y", JFloat 0.5);
         ("vibration_z", JFloat 0.5);
         ("magnetic_flux_x", JFloat 1); ("magnetic_flux_y", JFloat 2);
         ("magnetic_flux_z", JFloat 3);
         ("audible_sound", JFloat 40); ("ultra_sound", JFloat 20) ].

(** A reading whose [vibration_x] ties: see [tie_batch]. *)
Definition reading_with_vibration_x (x : float) : json :=
  JObj [ ("temperature_one", JInt 60); ("temperature_two", JFloat 70);
         ("vibration_x", JFloat x); ("vibration_y", JFloat 0.5);
         ("vibration_z", JFloat 0.5);
         ("magnetic_flux_x", JFloat 1); ("magnetic_flux_y", JFloat 2);
         ("magnetic_flux_z", JFloat 3);
         ("audible_sound", JFloat 40); ("ultra_sound", JFloat 20) ].

Definition tie_batch : list json :=
  map reading_with_vibration_x [1%float; 2%float; 1%float; 2%float].




(** Three prediction mappings whose temperature entries are a label, the
    number 1.0 and the label spelled like it. *)
Definition prediction_mapping (temperature : prediction) : dict prediction :=
  [ ("temperature", temperature); ("vibration", PCat "normal");
    ("magnetic_flux", PCat "normal"); ("audible_sound", PCat "normal");
    ("ultra_sound", PCat "normal") ].


(** Futures complete in submission order, or in the reverse order. *)
Definition in_order : nat -> list nat := fun _ => [].
Definition reversed : nat -> list nat := fun _ => [4; 3; 2; 1; 0].

(** The modes carry the five inputs of the health rules. *)
Definition health_inputs (modes : dict float) (t1 t2 vx vy vz : float) : Prop :=
  dict_get "temperature_one" modes = Some t1
  /\ dict_get "temperature_two" modes = Some t2
  /\ dict_get "vibration_x" modes = Some vx
  /\ dict_get "vibration_y" modes = Some vy
  /\ dict_get "vibration_z" modes = Some vz.

(** The report of the health rules for given averages. *)
Definition health_report (now : string) (avg_temp avg_vibration : float) : dict string :=
  [ ("machine_condition", evaluate_machine_condition avg_temp avg_vibration);
    ("temperature_analysis", detect_temperature_anomaly avg_temp);
    ("vibration_analysis", detect_vibration_anomaly avg_vibration);
    ("timestamp", now);
    ("overall_health",
      if String.eqb (evaluate_machine_condition avg_temp avg_vibration) "Safe Condition"
      then "Healthy" else "Unhealthy") ].

Definition sample_modes : dict float :=
  [ ("temperature_one", 60%float); ("temperature_two", 70%float);
    ("vibration_x", 0.5%float); ("vibration_y", 0.5%float);
    ("vibration_z", 0.5%float) ].

(** [c] is the tally of [l]: one entry per value of [l], in the order the
    values are first seen, each with the first-seen representative of the
    value and the number of its occurrences. *)
Inductive tally {K} (keq : K -> K -> bool) : list K -> list (K * nat) -> Prop :=
| tally_nil : tally keq [] []
| tally_cons (k : K) (l : list K) (c : list (K * nat)) :
    keq k k = true ->
    tally keq (filter (fun y => negb (keq k y)) l) c ->
    tally keq (k :: l) ((k, S (count_of keq k l)) :: c).

(* ================================================================== *)
(** ** Further notions *)

(** How bad a machine condition is: 0 for Safe, 1 for Maintain, 2 for
    Repair. *)
Definition severity (condition : string) : nat :=
  if String.eqb condition "Safe Condition" then 0
  else if String.eqb condition "Maintain Condition" then 1
  else 2.

(** The first outcome, in the given order, that is a failure. *)
Fixpoint first_failed (outcomes : list (result (dict prediction)))
  : option (result (dict prediction)) :=
  match outcomes with
  | [] => None
  | o :: rest =>
      match failure_body o with
      | Some _ => Some o
      | None => first_failed rest
      end
  end.

(* ================================================================== *)
(** ** The replay client (test.py) *)

(** [len(range(start, stop, step))] for a step that is not zero. *)
Definition range_length (start stop step : Z) : Z :=
  if (0 <? step)%Z then
    if (start <? stop)%Z then ((stop - start - 1) / step + 1)%Z else 0%Z
  else
    if (stop <? start)%Z then ((start - stop - 1) / (- step) + 1)%Z else 0%Z.

(** [range(start, stop, step)], as the list of its values. *)
Definition py_range (start stop step : Z) : result (list Z) :=
  if (step =? 0)%Z then Raise (mkExn ValueError "range() arg 3 must not be zero")
  else
    Return (map (fun k => (start + Z.of_nat k * step)%Z)
              (seq 0 (Z.to_nat (range_length start stop step)))).

(** An index of a slice, brought into the bounds of a sequence of length
    [n]: a negative index counts from the end. *)
Definition slice_index (n k : Z) : Z :=
  if (k <? 0)%Z then Z.max 0 (k + n) else Z.min k n.

(** [l[i:j]], and [data.iloc[i:j]] on the rows of a frame. *)
Definition py_slice {A} (l : list A) (i j : Z) : list A :=
  let a := slice_index (len l) i in
  let b := slice_index (len l) j in
  firstn (Z.to_nat (b - a)) (skipn (Z.to_nat a) l).

(** [read_csv_in_batches(file_path, batch_size)], as the list of the batches
    the generator yields.  [data] is what [pd.read_csv(file_path)] gives:
    the rows as records, or the exception it raises, on which the function
    prints and leaves through [sys.exit(1)]. *)
Definition read_csv_in_batches {A} (data : result (list A)) (batch_size : Z)
  : result (list (list A)) :=
  match data with
  | Raise _ => Raise (mkExn (OtherError "SystemExit") "1")
  | Return rows =>
      starts <- py_range 0 (len rows) batch_size ;;
      Return (map (fun i => py_slice rows i (i + batch_size)) starts)
  end.

(** [send_data_to_api(batch)] against a server that answers:
    [raise_for_status] raises for a status from 400 to 599, and the handler
    of the exception returns the error dict with its message, which
    [http_error] gives. *)
Definition send_data_to_api (server : json -> response) (http_error : response -> string)
  (batch : list json) : json :=
  let response := server (JArr batch) in
  if (400 <=? resp_status response)%Z && (resp_status response <? 600)%Z
  then error_body (http_error response)
  else resp_body response.

(** [main(csv_file_path)], as the list of the results it prints, one per
    batch of the default size. *)
Definition main (server : json -> response) (http_error : response -> string)
  (data : result (list json)) : result (list json) :=
  batches <- read_csv_in_batches data 300 ;;
  Return (map (send_data_to_api server http_error) batches).

(* ================================================================== *)
(** * Properties *)

(** ** The order of binary64 numbers *)

Section FloatOrder.

Lemma SFcompare_antisym (x y : spec_float) :
  SFcompare y x = option_map CompOpp (SFcompare x y).
Proof.
  destruct x as [sx|sx| |sx mx ex], y as [sy|sy| |sy my ey]; simpl;
    try (destruct sx); try (destruct sy); try reflexivity;
    rewrite (Z.compare_antisym ex ey); destruct (ex ?= ey)%Z; simpl;
    try reflexivity;
    change (Pos.compare_cont Eq my mx) with (Pos.compare my mx);
    change (Pos.compare_cont Eq mx my) with (Pos.compare mx my);
    rewrite (Pos.compare_antisym mx my); try rewrite CompOpp_involutive; reflexivity.
Qed.

Lemma SFcompare_refl (x : spec_float) :
  x <> S754_nan -> SFcompare x x = Some Eq.
Proof.
  destruct x as [s|s| |s m e]; simpl; intros H; try congruence;
    destruct s; try reflexivity;
    rewrite Z.compare_refl;
    change (Pos.compare_cont Eq m m) with (Pos.compare m m);
    rewrite Pos.compare_refl; reflexivity.
Qed.

Lemma SFcompare_some (x y : spec_float) :
  x <> S754_nan -> y <> S754_nan -> exists c, SFcompare x y = Some c.
Proof.
  destruct x as [sx|sx| |sx mx ex], y as [sy|sy| |sy my ey]; simpl; intros Hx Hy;
    try congruence; eexists; reflexivity.
Qed.

Lemma SFcompare_le_trans (x y z : spec_float) (c1 c2 : comparison) :
  SFcompare x y = Some c1 -> c1 <> Gt ->
  SFcompare y z = Some c2 -> c2 <> Gt ->
  exists c3, SFcompare x z = Some c3 /\ c3 <> Gt
             /\ (c3 = Eq -> c1 = Eq /\ c2 = Eq).
Proof.
  destruct x as [sx|sx| |sx mx ex], y as [sy|sy| |sy my ey], z as [sz|sz| |sz mz ez];
    simpl; try (destruct sx); try (destruct sy); try (destruct sz); simpl;
    intros H1 N1 H2 N2; try discriminate;
    injection H1 as <-; injection H2 as <-;
    try (eexists; split; [reflexivity|split; [congruence|intros; split; congruence]]);
    revert N1 N2;
    change (Pos.compare_cont Eq) with Pos.compare;
    destruct (Z.compare_spec ex ey); destruct (Z.compare_spec ey ez);
    destruct (Z.compare_spec ex ez); simpl; intros N1 N2;
    try congruence; try lia; subst;
    try (eexists; split; [reflexivity|split; [congruence|intros; split; congruence]]);
    revert N1 N2;
    destruct (Pos.compare_spec mx my); destruct (Pos.compare_spec my mz);
    destruct (Pos.compare_spec mx mz); simpl; intros N1 N2;
    try congruence; try lia;
    try (eexists; split; [reflexivity|split; [congruence|intros; split; congruence]]).
Qed.

Lemma is_num_spec (x : float) : is_num x <-> Prim2SF x <> S754_nan.
Proof.
  unfold is_num, PrimFloat.is_nan. rewrite eqb_spec. unfold SFeqb. split.
  - intros H N. rewrite N in H. discriminate.
  - intros N. rewrite (SFcompare_refl _ N). reflexivity.
Qed.

Lemma float_ltb_false_leb (a b : float) :
  is_num a -> is_num b -> PrimFloat.ltb a b = false -> PrimFloat.leb b a = true.
Proof.
  rewrite !is_num_spec, ltb_spec, leb_spec. unfold SFltb, SFleb. intros Ha Hb.
  rewrite (SFcompare_antisym (Prim2SF a) (Prim2SF b)).
  destruct (SFcompare_some _ _ Ha Hb) as [c ->]. destruct c; simpl; congruence.
Qed.

Lemma float_leb_ltb_false (a b : float) :
  PrimFloat.leb a b = true -> PrimFloat.ltb b a = false.
Proof.
  rewrite ltb_spec, leb_spec. unfold SFltb, SFleb.
  rewrite (SFcompare_antisym (Prim2SF a) (Prim2SF b)).
  destruct (SFcompare (Prim2SF a) (Prim2SF b)) as [[]|]; simpl; congruence.
Qed.

Lemma float_leb_trans (a b c : float) :
  PrimFloat.leb a b = true -> PrimFloat.leb b c = true -> PrimFloat.leb a c = true.
Proof.
  rewrite !leb_spec. unfold SFleb. intros H1 H2.
  destruct (SFcompare (Prim2SF a) (Prim2SF b)) as [c1|] eqn:E1; [|discriminate].
  destruct (SFcompare (Prim2SF b) (Prim2SF c)) as [c2|] eqn:E2; [|discriminate].
  assert (N1 : c1 <> Gt) by (destruct c1; congruence).
  assert (N2 : c2 <> Gt) by (destruct c2; congruence).
  destruct (SFcompare_le_trans _ _ _ _ _ E1 N1 E2 N2) as (c3 & -> & N3 & _).
  destruct c3; congruence.
Qed.

(** Above a bound [hi], hence not below any bound [lo <= hi]. *)
Lemma float_above (lo hi x : float) :
  PrimFloat.leb lo hi = true -> PrimFloat.leb hi x = true -> PrimFloat.ltb x lo = false.
Proof.
  intros H1 H2. apply float_leb_ltb_false. exact (float_leb_trans _ _ _ H1 H2).
Qed.

Lemma float_eqb_sym (a b : float) : PrimFloat.eqb a b = PrimFloat.eqb b a.
Proof.
  rewrite !eqb_spec. unfold SFeqb.
  rewrite (SFcompare_antisym (Prim2SF a) (Prim2SF b)).
  destruct (SFcompare (Prim2SF a) (Prim2SF b)) as [[]|]; reflexivity.
Qed.

Lemma float_eqb_trans (a b c : float) :
  PrimFloat.eqb a b = true -> PrimFloat.eqb b c = true -> PrimFloat.eqb a c = true.
Proof.
  rewrite !eqb_spec. unfold SFeqb. intros H1 H2.
  destruct (SFcompare (Prim2SF a) (Prim2SF b)) as [c1|] eqn:E1; [|discriminate].
  destruct (SFcompare (Prim2SF b) (Prim2SF c)) as [c2|] eqn:E2; [|discriminate].
  assert (c1 = Eq) by (destruct c1; congruence).
  assert (c2 = Eq) by (destruct c2; congruence). subst.
  destruct (SFcompare_le_trans _ _ _ _ _ E1 ltac:(congruence) E2 ltac:(congruence))
    as (c3 & E3 & N3 & H3).
  rewrite E3.
  destruct c3; try reflexivity; try congruence.
  (* [a < c] would give [c <= b <= a] and so [c <= a] *)
  exfalso.
  assert (F1 : SFcompare (Prim2SF b) (Prim2SF a) = Some Eq)
    by (rewrite (SFcompare_antisym (Prim2SF a) (Prim2SF b)), E1; reflexivity).
  assert (F2 : SFcompare (Prim2SF c) (Prim2SF b) = Some Eq)
    by (rewrite (SFcompare_antisym (Prim2SF b) (Prim2SF c)), E2; reflexivity).
  destruct (SFcompare_le_trans _ _ _ _ _ F2 ltac:(congruence) F1 ltac:(congruence))
    as (c4 & E4 & N4 & _).
  rewrite (SFcompare_antisym (Prim2SF a) (Prim2SF c)), E3 in E4. simpl in E4.
  congruence.
Qed.

Lemma float_eqb_refl (a : float) : is_num a -> PrimFloat.eqb a a = true.
Proof.
  unfold is_num, PrimFloat.is_nan. destruct (PrimFloat.eqb a a); simpl; congruence.
Qed.

End FloatOrder.

(** ** The health rules *)

Section Health.
#[local] Open Scope float_scope.

Lemma dict_subscript_some {V} (d : dict V) (k : string) (v : V) :
  dict_get k d = Some v -> dict_subscript d k = Return v.
Proof. unfold dict_subscript. intros ->. reflexivity. Qed.

Lemma dict_subscript_return {V} (d : dict V) (k : string) (v : V) :
  dict_subscript d k = Return v -> dict_get k d = Some v.
Proof. unfold dict_subscript. destruct (dict_get k d); congruence. Qed.

Lemma analyze_health_returns (now : string) (modes : dict float) (t1 t2 vx vy vz : float) :
  health_inputs modes t1 t2 vx vy vz ->
  analyze_health now modes
  = Return (health_report now ((t1 + t2) / 2) ((vx + vy + vz) / 3)).
Proof.
  intros (H1 & H2 & H3 & H4 & H5). unfold analyze_health.
  rewrite (dict_subscript_some _ _ _ H1), (dict_subscript_some _ _ _ H2),
    (dict_subscript_some _ _ _ H3), (dict_subscript_some _ _ _ H4),
    (dict_subscript_some _ _ _ H5).
  reflexivity.
Qed.

Ltac by_tests :=
  repeat match goal with
         | |- context [PrimFloat.ltb ?a ?b] => destruct (PrimFloat.ltb a b) eqn:?
         | |- context [PrimFloat.leb ?a ?b] => destruct (PrimFloat.leb a b) eqn:?
         end;
  simpl; intuition (try discriminate; try congruence).

(** C5.  For every pair of averages, the machine condition is Safe exactly
    when the temperature is below 80 and the vibration below 1.8; otherwise
    Maintain exactly when they are below 100 and 2.8; otherwise Repair.  The
    analyzer reports this condition for the averages of its inputs, and its
    overall health is Healthy exactly when the condition is Safe, else
    Unhealthy. *)
Theorem C5_machine_condition (avg_temperature avg_vibration : float) :
  (evaluate_machine_condition avg_temperature avg_vibration = "Safe Condition"
   <-> (avg_temperature <? 80) = true /\ (avg_vibration <? 1.8) = true)
  /\ (evaluate_machine_condition avg_temperature avg_vibration = "Maintain Condition"
      <-> ~ ((avg_temperature <? 80) = true /\ (avg_vibration <? 1.8) = true)
          /\ (avg_temperature <? 100) = true /\ (avg_vibration <? 2.8) = true)
  /\ (evaluate_machine_condition avg_temperature avg_vibration = "Repair Condition"
      <-> ~ ((avg_temperature <? 80) = true /\ (avg_vibration <? 1.8) = true)
          /\ ~ ((avg_temperature <? 100) = true /\ (avg_vibration <? 2.8) = true))
  /\ (forall now modes t1 t2 vx vy vz,
        health_inputs modes t1 t2 vx vy vz ->
        avg_temperature = (t1 + t2) / 2 ->
        avg_vibration = (vx + vy + vz) / 3 ->
        exists report,
          analyze_health now modes = Return report
          /\ dict_get "machine_condition" report
             = Some (evaluate_machine_condition avg_temperature avg_vibration)
          /\ (dict_get "overall_health" report = Some "Healthy"
              <-> dict_get "machine_condition" report = Some "Safe Condition")
          /\ (dict_get "overall_health" report = Some "Unhealthy"
              <-> dict_get "machine_condition" report <> Some "Safe Condition")).
Proof.
  split; [|split; [|split]].
  - unfold evaluate_machine_condition. by_tests.
  - unfold evaluate_machine_condition. by_tests.
  - unfold evaluate_machine_condition. by_tests.
  - intros now modes t1 t2 vx vy vz Hin -> ->.
    eexists. split; [apply (analyze_health_returns now _ _ _ _ _ _ Hin)|].
    unfold health_report, evaluate_machine_condition. simpl. by_tests.
Qed.

(** The sample modes go through the analyzer and come out Safe and Healthy. *)
Example analyze_health_sample :
  analyze_health "T" sample_modes
  = Return [ ("machine_condition", "Safe Condition");
             ("temperature_analysis", "No significant temperature anomaly detected");
             ("vibration_analysis", "No significant vibration anomaly detected");
             ("timestamp", "T");
             ("overall_health", "Healthy") ].
Proof. reflexivity. Qed.

(** The boundary of the first tier: 79.999 is Safe, 80.0 is not. *)
Example boundary_80 :
  evaluate_machine_condition 79.999 1 = "Safe Condition"
  /\ evaluate_machine_condition 80 1 = "Maintain Condition"
  /\ detect_temperature_anomaly 80 = "Moderate Overheating - Check Lubrication".
Proof. repeat split. Qed.

Ltac order_facts :=
  repeat match goal with
         | H : PrimFloat.ltb ?a ?b = false |- _ =>
             lazymatch goal with
             | _ : PrimFloat.leb b a = true |- _ => fail
             | _ => assert (PrimFloat.leb b a = true)
                      by (apply float_ltb_false_leb; [assumption || reflexivity ..| exact H])
             end
         end.

Ltac above lo :=
  match goal with
  | H : PrimFloat.leb ?hi ?x = true |- _ =>
      lazymatch goal with
      | _ : PrimFloat.ltb x lo = false |- _ => fail
      | _ => assert (PrimFloat.ltb x lo = false)
               by (apply (float_above lo hi x); [reflexivity | exact H])
      end
  end.

Lemma temperature_tiers (t : float) :
  is_num t ->
  (detect_temperature_anomaly t = "No significant temperature anomaly detected"
   <-> (t <? 80) = true)
  /\ (detect_temperature_anomaly t = "Moderate Overheating - Check Lubrication"
      <-> (80 <=? t) = true /\ (t <? 100) = true)
  /\ (detect_temperature_anomaly t
      = "Significant Overheating - Possible Misalignment or Bearing Wear"
      <-> (100 <=? t) = true /\ (t <? 120) = true)
  /\ (detect_temperature_anomaly t = "Critical Overheating - Immediate Repair Needed"
      <-> (120 <=? t) = true).
Proof.
  intros Hn. unfold detect_temperature_anomaly.
  destruct (t <? 80) eqn:L80; destruct (t <? 100) eqn:L100;
    destruct (t <? 120) eqn:L120; order_facts;
    repeat match goal with H : PrimFloat.leb ?c t = true |- _ => rewrite H end;
    simpl; repeat split; intros;
    repeat match goal with H : _ /\ _ |- _ => destruct H end;
    try discriminate; try reflexivity; try assumption;
    try (above 80; congruence); try (above 100; congruence);
    try (above 120; congruence).
Qed.

Lemma vibration_tiers (v : float) :
  is_num v ->
  (detect_vibration_anomaly v = "No significant vibration anomaly detected"
   <-> (v <? 1.8) = true)
  /\ (detect_vibration_anomaly v = "Unbalance Fault"
      <-> (1.8 <=? v) = true /\ (v <? 2.8) = true)
  /\ (detect_vibration_anomaly v = "Misalignment Fault"
      <-> (2.8 <=? v) = true /\ (v <? 4.5) = true)
  /\ (detect_vibration_anomaly v = "Looseness Fault"
      <-> (4.5 <=? v) = true /\ (v <? 7.1) = true)
  /\ (detect_vibration_anomaly v = "Bearing Fault or Gear Mesh Fault"
      <-> (7.1 <=? v) = true).
Proof.
  intros Hn. unfold detect_vibration_anomaly.
  destruct (v <? 1.8) eqn:L1; destruct (v <? 2.8) eqn:L2;
    destruct (v <? 4.5) eqn:L3; destruct (v <? 7.1) eqn:L4; order_facts;
    repeat match goal with H : PrimFloat.leb ?c v = true |- _ => rewrite H end;
    simpl; repeat split; intros;
    repeat match goal with H : _ /\ _ |- _ => destruct H end;
    try discriminate; try reflexivity; try assumption;
    try (above 1.8; congruence); try (above 2.8; congruence);
    try (above 4.5; congruence); try (above 7.1; congruence).
Qed.

(** C6.  For a temperature that is a number, the temperature analysis is the
    four-tier lookup with the tiers below 80, [80,100), [100,120) and from
    120 on; for a vibration that is a number, the vibration analysis is the
    five-tier lookup with the tiers below 1.8, [1.8,2.8), [2.8,4.5),
    [4.5,7.1) and from 7.1 on. *)
Theorem C6_anomaly_tiers (avg_temperature avg_vibration : float) :
  is_num avg_temperature ->
  is_num avg_vibration ->
  ((detect_temperature_anomaly avg_temperature
    = "No significant temperature anomaly detected"
    <-> (avg_temperature <? 80) = true)
   /\ (detect_temperature_anomaly avg_temperature
       = "Moderate Overheating - Check Lubrication"
       <-> (80 <=? avg_temperature) = true /\ (avg_temperature <? 100) = true)
   /\ (detect_temperature_anomaly avg_temperature
       = "Significant Overheating - Possible Misalignment or Bearing Wear"
       <-> (100 <=? avg_temperature) = true /\ (avg_temperature <? 120) = true)
   /\ (detect_temperature_anomaly avg_temperature
       = "Critical Overheating - Immediate Repair Needed"
       <-> (120 <=? avg_temperature) = true))
  /\ ((detect_vibration_anomaly avg_vibration
       = "No significant vibration anomaly detected"
       <-> (avg_vibration <? 1.8) = true)
      /\ (detect_vibration_anomaly avg_vibration = "Unbalance Fault"
          <-> (1.8 <=? avg_vibration) = true /\ (avg_vibration <? 2.8) = true)
      /\ (detect_vibration_anomaly avg_vibration = "Misalignment Fault"
          <-> (2.8 <=? avg_vibration) = true /\ (avg_vibration <? 4.5) = true)
      /\ (detect_vibration_anomaly avg_vibration = "Looseness Fault"
          <-> (4.5 <=? avg_vibration) = true /\ (avg_vibration <? 7.1) = true)
      /\ (detect_vibration_anomaly avg_vibration = "Bearing Fault or Gear Mesh Fault"
          <-> (7.1 <=? avg_vibration) = true)).
Proof.
  intros Ht Hv. split.
  - exact (temperature_tiers avg_temperature Ht).
  - exact (vibration_tiers avg_vibration Hv).
Qed.

(** At 100 degrees and a vibration of 4.5 the analyses are the third
    temperature tier and the fourth vibration tier. *)
Lemma C6_anomaly_tiers_witness :
  is_num 100 /\ is_num 4.5
  /\ detect_temperature_anomaly 100
     = "Significant Overheating - Possible Misalignment or Bearing Wear"
  /\ detect_vibration_anomaly 4.5 = "Looseness Fault".
Proof.
  assert (Ht : is_num 100) by reflexivity.
  assert (Hv : is_num 4.5) by reflexivity.
  destruct (C6_anomaly_tiers 100 4.5 Ht Hv) as
    ((_ & _ & T3 & _) & (_ & _ & _ & V4 & _)).
  split; [exact Ht | split; [exact Hv | split]].
  - apply T3. split; reflexivity.
  - apply V4. split; reflexivity.
Defined.

(** A temperature that is no number falls through every test to the last
    tier, and so does such a vibration. *)
Lemma nan_falls_through :
  detect_temperature_anomaly nan = "Critical Overheating - Immediate Repair Needed"
  /\ detect_vibration_anomaly nan = "Bearing Fault or Gear Mesh Fault"
  /\ evaluate_machine_condition nan nan = "Repair Condition".
Proof. repeat split. Qed.

Lemma condition_safe_iff (t v : float) :
  evaluate_machine_condition t v = "Safe Condition"
  <-> (t <? 80) = true /\ (v <? 1.8) = true.
Proof. unfold evaluate_machine_condition. by_tests. Qed.

Lemma temperature_none_iff (t : float) :
  detect_temperature_anomaly t = "No significant temperature anomaly detected"
  <-> (t <? 80) = true.
Proof. unfold detect_temperature_anomaly. by_tests. Qed.

Lemma vibration_none_iff (v : float) :
  detect_vibration_anomaly v = "No significant vibration anomaly detected"
  <-> (v <? 1.8) = true.
Proof. unfold detect_vibration_anomaly. by_tests. Qed.

(** C10.  For every input of the analyzer that carries the five modes, the
    analyzer returns a report that holds [overall_health],
    [temperature_analysis], [vibration_analysis] and [machine_condition];
    the two analyses are those of the averages; the overall health is
    Healthy or Unhealthy, and it is Healthy exactly when the temperature
    analysis and the vibration analysis both report no anomaly; and all
    three, with the Safe condition, are decided by the same two tests: the
    average temperature is below 80 and the average vibration below 1.8. *)
Theorem C10_healthy_iff_no_anomaly (now : string) (modes : dict float)
  (t1 t2 vx vy vz : float) :
  health_inputs modes t1 t2 vx vy vz ->
  let avg_temperature := (t1 + t2) / 2 in
  let avg_vibration := (vx + vy + vz) / 3 in
  exists report health temperature vibration condition,
    analyze_health now modes = Return report
    /\ dict_get "overall_health" report = Some health
    /\ dict_get "temperature_analysis" report = Some temperature
    /\ dict_get "vibration_analysis" report = Some vibration
    /\ dict_get "machine_condition" report = Some condition
    /\ temperature = detect_temperature_anomaly avg_temperature
    /\ vibration = detect_vibration_anomaly avg_vibration
    /\ condition = evaluate_machine_condition avg_temperature avg_vibration
    /\ (health = "Healthy" \/ health = "Unhealthy")
    /\ (health = "Healthy"
        <-> temperature = "No significant temperature anomaly detected"
            /\ vibration = "No significant vibration anomaly detected")
    /\ (health = "Healthy"
        <-> (avg_temperature <? 80) = true /\ (avg_vibration <? 1.8) = true)
    /\ (temperature = "No significant temperature anomaly detected"
        <-> (avg_temperature <? 80) = true)
    /\ (vibration = "No significant vibration anomaly detected"
        <-> (avg_vibration <? 1.8) = true)
    /\ (condition = "Safe Condition"
        <-> (avg_temperature <? 80) = true /\ (avg_vibration <? 1.8) = true).
Proof.
  intros Hin avg_temperature avg_vibration.
  exists (health_report now avg_temperature avg_vibration),
    (if String.eqb (evaluate_machine_condition avg_temperature avg_vibration)
          "Safe Condition"
     then "Healthy" else "Unhealthy"),
    (detect_temperature_anomaly avg_temperature),
    (detect_vibration_anomaly avg_vibration),
    (evaluate_machine_condition avg_temperature avg_vibration).
  split; [apply (analyze_health_returns now _ _ _ _ _ _ Hin)|].
  do 4 (split; [reflexivity|]). do 3 (split; [reflexivity|]).
  assert (Hhealth :
            (if String.eqb (evaluate_machine_condition avg_temperature avg_vibration)
                  "Safe Condition"
             then "Healthy" else "Unhealthy") = "Healthy"
            <-> (avg_temperature <? 80) = true /\ (avg_vibration <? 1.8) = true).
  { rewrite <- condition_safe_iff.
    destruct (String.eqb_spec
                (evaluate_machine_condition avg_temperature avg_vibration)
                "Safe Condition") as [Heq | Hne].
    - tauto.
    - split; [discriminate | contradiction]. }
  split.
  { destruct (String.eqb (evaluate_machine_condition avg_temperature avg_vibration)
                "Safe Condition"); [left | right]; reflexivity. }
  split; [rewrite Hhealth, temperature_none_iff, vibration_none_iff; tauto|].
  split; [exact Hhealth|].
  split; [apply temperature_none_iff|].
  split; [apply vibration_none_iff | apply condition_safe_iff].
Qed.

(** Modes that average 65 degrees and 0.5 of vibration: the report is
    Healthy, and both analyses report no anomaly. *)
Lemma C10_healthy_iff_no_anomaly_witness :
  exists report,
    analyze_health "2024-01-01T00:00:00" sample_modes = Return report
    /\ dict_get "overall_health" report = Some "Healthy"
    /\ dict_get "temperature_analysis" report
       = Some "No significant temperature anomaly detected"
    /\ dict_get "vibration_analysis" report
       = Some "No significant vibration anomaly detected"
    /\ dict_get "machine_condition" report = Some "Safe Condition".
Proof.
  destruct (C10_healthy_iff_no_anomaly "2024-01-01T00:00:00" sample_modes
              60 70 0.5 0.5 0.5)
    as (report & health & temperature & vibration & condition & Hrun & Hh & Ht & Hv
        & Hc & _ & _ & _ & _ & Hboth & Htests & _ & _ & Hsafe).
  { repeat split. }
  assert (Hhealthy : health = "Healthy").
  { apply Htests. split; reflexivity. }
  destruct (proj1 Hboth Hhealthy) as [Htemp Hvib].
  exists report. split; [exact Hrun|].
  split; [rewrite Hh, Hhealthy; reflexivity|].
  split; [rewrite Ht, Htemp; reflexivity|].
  split; [rewrite Hv, Hvib; reflexivity|].
  rewrite Hc. f_equal. apply Hsafe. split; reflexivity.
Defined.

End Health.

(** ** Counters *)

Section CounterFacts.
Context {K : Type} (keq : K -> K -> bool).
Hypothesis keq_sym : forall a b, keq a b = keq b a.
Hypothesis keq_trans : forall a b c, keq a b = true -> keq b c = true -> keq a c = true.

#[local] Abbreviation count := (count_of keq).
#[local] Abbreviation others k := (filter (fun y => negb (keq k y))).

Lemma count_app (x : K) (a b : list K) : count x (a ++ b) = count x a + count x b.
Proof. unfold count_of. rewrite filter_app, length_app. reflexivity. Qed.

Lemma count_cons (x y : K) (l : list K) :
  count x (y :: l) = (if keq x y then 1 else 0) + count x l.
Proof. unfold count_of. simpl. destruct (keq x y); reflexivity. Qed.

Lemma keq_congr (x y z : K) : keq x y = true -> keq x z = keq y z.
Proof.
  intros H. destruct (keq y z) eqn:E.
  - exact (keq_trans _ _ _ H E).
  - destruct (keq x z) eqn:F; [|reflexivity].
    rewrite keq_sym in H. rewrite <- E. symmetry. exact (keq_trans _ _ _ H F).
Qed.

Lemma count_equiv (x y : K) (l : list K) : keq x y = true -> count x l = count y l.
Proof.
  intros H. unfold count_of. f_equal. apply filter_ext. intros z.
  apply keq_congr, H.
Qed.

Lemma count_others (k y : K) (l : list K) :
  keq k y = false -> count y (others k l) = count y l.
Proof.
  intros H. induction l as [|z l IH]; [reflexivity|]. simpl.
  destruct (keq k z) eqn:E; simpl.
  - rewrite count_cons, IH.
    rewrite (keq_sym y z), <- (keq_congr k z y E), H. reflexivity.
  - rewrite !count_cons, IH. reflexivity.
Qed.

Lemma others_app (k : K) (a b : list K) : others k (a ++ b) = others k a ++ others k b.
Proof. apply filter_app. Qed.

(** Counting one more value keeps the tally. *)
Lemma tally_add (l : list K) (c : list (K * nat)) (x : K) :
  tally keq l c -> keq x x = true -> tally keq (l ++ [x]) (counter_add keq x c).
Proof.
  intros T Hx. induction T as [|k l c Hk T IH]; simpl.
  - apply (tally_cons keq x [] [] Hx). constructor.
  - destruct (keq k x) eqn:E.
    + replace (S (S (count k l))) with (S (count k (l ++ [x])))
        by (rewrite count_app, count_cons, E; unfold count_of; simpl; lia).
      apply tally_cons; [exact Hk|].
      rewrite others_app. simpl. rewrite E. simpl. rewrite app_nil_r. exact T.
    + replace (S (count k l)) with (S (count k (l ++ [x])))
        by (rewrite count_app, count_cons, E; unfold count_of; simpl; lia).
      apply tally_cons; [exact Hk|].
      rewrite others_app. simpl. rewrite E. simpl. exact IH.
Qed.

Lemma tally_fold (rest done : list K) (c : list (K * nat)) :
  tally keq done c ->
  Forall (fun x => keq x x = true) rest ->
  tally keq (done ++ rest) (fold_left (fun c k => counter_add keq k c) rest c).
Proof.
  revert done c. induction rest as [|x rest IH]; intros done c T F; simpl.
  - rewrite app_nil_r. exact T.
  - inversion F as [|? ? Hx F']; subst.
    replace (done ++ x :: rest) with ((done ++ [x]) ++ rest)
      by (rewrite <- app_assoc; reflexivity).
    apply IH; [apply tally_add; assumption | assumption].
Qed.

(** The counter of a list is its tally. *)
Lemma tally_Counter (l : list K) :
  Forall (fun x => keq x x = true) l -> tally keq l (Counter keq l).
Proof. intros F. apply (tally_fold l [] []); [constructor | exact F]. Qed.

(** Every entry of a tally counts a value of the list. *)
Lemma tally_entry (l : list K) (c : list (K * nat)) (e : K * nat) :
  tally keq l c -> In e c -> In (fst e) l /\ snd e = count (fst e) l.
Proof.
  intros T. revert e. induction T as [|k l c Hk T IH]; intros e He; [destruct He|].
  destruct He as [<- | He]; simpl.
  - split; [left; reflexivity|]. rewrite count_cons, Hk. reflexivity.
  - destruct (IH e He) as [Hin Hc]. apply filter_In in Hin. destruct Hin as [Hin Hne].
    apply negb_true_iff in Hne.
    split; [right; exact Hin|].
    rewrite Hc, count_others by exact Hne.
    rewrite count_cons, keq_sym, Hne. reflexivity.
Qed.

(** Every value of the list has its entry. *)
Lemma tally_cover (l : list K) (c : list (K * nat)) (y : K) :
  tally keq l c -> In y l -> exists e, In e c /\ keq (fst e) y = true.
Proof.
  intros T. revert y. induction T as [|k l c Hk T IH]; intros y Hy; [destruct Hy|].
  destruct (keq k y) eqn:E.
  - exists (k, S (count k l)). split; [left; reflexivity | exact E].
  - destruct Hy as [-> | Hy]; [congruence|].
    destruct (IH y) as (e & He & Hey).
    + apply filter_In. split; [exact Hy | rewrite E; reflexivity].
    + exists e. split; [right; exact He | exact Hey].
Qed.

Lemma filter_split {A} (f : A -> bool) (l a b : list A) (v : A) :
  filter f l = a ++ v :: b ->
  exists p q, l = p ++ v :: q /\ filter f p = a /\ filter f q = b.
Proof.
  revert a. induction l as [|z l IH]; intros a H; simpl in H.
  - destruct a; discriminate.
  - destruct (f z) eqn:E.
    + destruct a as [|a0 a]; simpl in H; injection H as -> H.
      * exists [], l. simpl. repeat split. exact H.
      * destruct (IH a H) as (p & q & -> & Hp & Hq).
        exists (a0 :: p), q. simpl. rewrite E, Hp. repeat split. exact Hq.
    + destruct (IH a H) as (p & q & -> & Hp & Hq).
      exists (z :: p), q. simpl. rewrite E. repeat split; assumption.
Qed.

(** Every value of the list has an entry that holds its count. *)
Lemma tally_count (l : list K) (c : list (K * nat)) (y : K) :
  tally keq l c -> In y l ->
  exists e, In e c /\ keq (fst e) y = true /\ snd e = count y l.
Proof.
  intros T Hy. destruct (tally_cover l c y T Hy) as (e & He & Hey).
  exists e. repeat split; try assumption.
  rewrite <- (count_equiv _ _ l Hey). apply (tally_entry l c e T He).
Qed.

(** Where an entry stands in the tally, its value is first seen in the
    list; an entry that beats all entries before it beats all values seen
    before it. *)
Lemma tally_first (l : list K) (c : list (K * nat)) :
  tally keq l c ->
  forall c1 v n c2,
    c = c1 ++ (v, n) :: c2 ->
    (forall e, In e c1 -> snd e < n) ->
    exists pre post,
      l = pre ++ v :: post
      /\ (forall y, In y pre -> keq y v = false /\ count y l < n).
Proof.
  intros T. induction T as [|k l c Hk T IH]; intros c1 v n c2 Hc H1.
  - destruct c1; discriminate.
  - destruct c1 as [|e1 c1]; simpl in Hc; injection Hc as Hc Hc'.
    + subst v. exists [], l. split; [reflexivity | intros y []].
    + subst e1.
      assert (Hkn : S (count k l) < n) by (apply (H1 _ (or_introl eq_refl))).
      destruct (IH c1 v n c2 Hc' (fun e He => H1 e (or_intror He)))
        as (pre' & post' & Hl & Hpre).
      assert (Hkv : keq k v = false).
      { assert (Hin : In v (others k l)) by (rewrite Hl; apply in_elt).
        apply filter_In in Hin. destruct Hin as [_ Hin].
        apply negb_true_iff in Hin. exact Hin. }
      destruct (filter_split _ _ _ _ _ Hl) as (p & q & -> & Hp & Hq).
      exists (k :: p), q. split; [reflexivity|].
      intros y [<- | Hy].
      * split; [exact Hkv|]. rewrite count_cons, Hk. simpl. exact Hkn.
      * destruct (keq k y) eqn:E.
        -- split; [rewrite <- (keq_congr k y v E); exact Hkv|].
           rewrite <- (count_equiv k y _ E), count_cons, Hk. simpl. exact Hkn.
        -- destruct (Hpre y) as [Hyv Hcnt].
           { rewrite <- Hp. apply filter_In. split; [exact Hy | rewrite E; reflexivity]. }
           split; [exact Hyv|].
           rewrite count_cons, keq_sym, E. simpl.
           rewrite count_others in Hcnt by exact E. exact Hcnt.
Qed.

(** [max_first] picks an entry that beats every entry before it and is not
    beaten by any entry after it. *)
Lemma max_first_split (items : list (K * nat)) (best : K * nat) :
  exists c1 c2,
    best :: items = c1 ++ max_first best items :: c2
    /\ (forall e, In e c1 -> snd e < snd (max_first best items))
    /\ (forall e, In e c2 -> snd e <= snd (max_first best items)).
Proof.
  revert best. induction items as [|it rest IH]; intros best; simpl.
  - exists [], []. repeat split; intros e [].
  - destruct (Nat.ltb_spec (snd best) (snd it)) as [Hlt | Hge].
    + destruct (IH it) as (c1 & c2 & Hs & H1 & H2).
      exists (best :: c1), c2. split; [simpl; rewrite <- Hs; reflexivity|].
      split; [|exact H2].
      intros e [<- | He]; [|apply H1, He].
      destruct c1 as [|e1 c1]; simpl in Hs; injection Hs as Hs Hs'.
      * rewrite <- Hs. exact Hlt.
      * pose proof (H1 e1 (or_introl eq_refl)). subst e1. lia.
    + destruct (IH best) as (c1 & c2 & Hs & H1 & H2).
      destruct c1 as [|e1 c1]; simpl in Hs; injection Hs as Hs Hs'.
      * exists [], (it :: c2). split; [simpl; rewrite <- Hs, Hs'; reflexivity|].
        split; [intros e []|].
        intros e [<- | He]; [rewrite <- Hs; exact Hge | apply H2, He].
      * exists (e1 :: it :: c1), c2. subst e1.
        split; [simpl; do 2 f_equal; exact Hs'|]. split; [|exact H2].
        pose proof (H1 best (or_introl eq_refl)).
        intros e [<- | [<- | He]]; [assumption | lia | apply H1; right; exact He].
Qed.

Lemma counter_add_nonempty (k : K) (c : list (K * nat)) : counter_add keq k c <> [].
Proof. destruct c as [|[k' n] c]; simpl; [|destruct (keq k' k)]; discriminate. Qed.

Lemma Counter_nonempty (l : list K) : l <> [] -> Counter keq l <> [].
Proof.
  unfold Counter. intros Hne.
  assert (H : forall rest c, c <> [] ->
            fold_left (fun c k => counter_add keq k c) rest c <> []).
  { induction rest as [|x rest IH]; intros c Hc; simpl; [exact Hc|].
    apply IH, counter_add_nonempty. }
  destruct l as [|x l]; [congruence|]. simpl. apply H. discriminate.
Qed.

(** [Counter(values).most_common(1)[0][0]] on a non-empty list: it returns,
    and when the values equal themselves, what it returns is the most
    frequent value, ties broken by first-seen order. *)
Lemma most_common_value_spec (l : list K) :
  l <> [] ->
  exists v,
    most_common_value keq l = Return v
    /\ (Forall (fun x => keq x x = true) l -> most_frequent_first_seen keq l v).
Proof.
  intros Hne. pose proof (Counter_nonempty l Hne) as Hc.
  unfold most_common_value, most_common_1.
  destruct (Counter keq l) as [|it rest] eqn:EC; [congruence|].
  exists (fst (max_first it rest)). split; [reflexivity|].
  intros F. pose proof (tally_Counter l F) as T. rewrite EC in T.
  destruct (max_first_split rest it) as (c1 & c2 & Hs & H1 & H2).
  destruct (max_first it rest) as [v n] eqn:Em. simpl in *.
  destruct (tally_first l _ T c1 v n c2 Hs H1) as (pre & post & Hl & Hpre).
  assert (Hn : n = count v l).
  { apply (tally_entry l _ (v, n) T). rewrite Hs. apply in_elt. }
  exists pre, post. split; [exact Hl|]. split.
  - intros y Hy. rewrite <- Hn. apply Hpre, Hy.
  - intros y Hy. destruct (tally_count l _ y T Hy) as (e & He & _ & Hc').
    rewrite <- Hc', <- Hn. rewrite Hs in He. apply in_app_or in He.
    destruct He as [He | [<- | He]];
      [pose proof (H1 e He); lia | simpl; lia | apply H2, He].
Qed.

(** The most frequent value, first seen, is determined by the list. *)
Lemma most_frequent_first_seen_unique (l : list K) (v w : K) :
  most_frequent_first_seen keq l v -> most_frequent_first_seen keq l w -> v = w.
Proof.
  intros (p1 & q1 & E1 & B1 & M1) (p2 & q2 & E2 & B2 & M2).
  assert (Hv : In v l) by (rewrite E1; apply in_elt).
  assert (Hw : In w l) by (rewrite E2; apply in_elt).
  pose proof (M1 w Hw). pose proof (M2 v Hv).
  assert (L : forall (a b : list K) x y c d,
             a ++ x :: c = b ++ y :: d -> In x b \/ In y a \/ x = y).
  { induction a as [|a0 a IHa]; intros [|b0 b] x y c d Hab; simpl in Hab;
      injection Hab as Hxy Hab.
    - right. right. exact Hxy.
    - left. left. symmetry. exact Hxy.
    - right. left. left. exact Hxy.
    - destruct (IHa b x y c d Hab) as [Hi | [Hi | Hi]];
        [left; right; exact Hi | right; left; right; exact Hi | right; right; exact Hi]. }
  rewrite E1 in E2. destruct (L _ _ _ _ _ _ E2) as [Hi | [Hi | Hi]].
  - destruct (B2 v Hi). lia.
  - destruct (B1 w Hi). lia.
  - exact Hi.
Qed.

End CounterFacts.

(** ** The members of a counter *)

Section CounterMembers.
Context {K : Type} (keq : K -> K -> bool).

Lemma counter_add_keys (k k' : K) (c : list (K * nat)) :
  In k' (map fst (counter_add keq k c)) -> k' = k \/ In k' (map fst c).
Proof.
  induction c as [|[k0 n] c IH]; simpl.
  - intros [<- | []]. left. reflexivity.
  - destruct (keq k0 k); simpl; [tauto|].
    intros [<- | H]; [tauto|]. destruct (IH H); tauto.
Qed.

Lemma Counter_keys (l : list K) (k : K) :
  In k (map fst (Counter keq l)) -> In k l.
Proof.
  unfold Counter.
  assert (H : forall c, In k (map fst (fold_left (fun c k => counter_add keq k c) l c)) ->
                        In k l \/ In k (map fst c)).
  { induction l as [|x l IH]; intros c; simpl; [tauto|].
    intros Hin. destruct (IH _ Hin) as [H | H]; [tauto|].
    destruct (counter_add_keys _ _ _ H) as [-> | H']; tauto. }
  intros Hin. destruct (H [] Hin) as [Hl | []]. exact Hl.
Qed.

Lemma max_first_member (items : list (K * nat)) (best : K * nat) :
  In (max_first best items) (best :: items).
Proof.
  revert best. induction items as [|it rest IH]; intros best; simpl; [tauto|].
  destruct (Nat.ltb (snd best) (snd it)).
  - right. apply IH.
  - destruct (IH best) as [H | H]; [left | right; right]; exact H.
Qed.

(** What [Counter(values).most_common(1)[0][0]] returns is one of the
    values. *)
Lemma most_common_value_member (l : list K) (v : K) :
  most_common_value keq l = Return v -> In v l.
Proof.
  unfold most_common_value, most_common_1.
  destruct (Counter keq l) as [|it rest] eqn:EC; [discriminate|].
  intros H. injection H as <-. apply Counter_keys. rewrite EC.
  apply in_map, max_first_member.
Qed.

Hypothesis keq_sym : forall a b, keq a b = keq b a.
Hypothesis keq_trans : forall a b c, keq a b = true -> keq b c = true -> keq a c = true.

Lemma count_disjoint (x v : K) (l : list K) :
  keq x v = false -> count_of keq x l + count_of keq v l <= List.length l.
Proof.
  intros Hxv. unfold count_of. induction l as [|y l IH]; simpl; [lia|].
  destruct (keq x y) eqn:Exy, (keq v y) eqn:Evy; simpl; try lia.
  exfalso. rewrite keq_sym in Evy.
  rewrite (keq_trans x y v Exy Evy) in Hxv. discriminate.
Qed.

(** A value that more than half of the list holds is the most frequent. *)
Lemma majority_most_frequent (l : list K) (v x : K) :
  most_frequent_first_seen keq l v ->
  List.length l < 2 * count_of keq x l ->
  keq v x = true.
Proof.
  intros (pre & post & Hl & _ & Hmax) Hmaj.
  destruct (keq v x) eqn:Evx; [reflexivity | exfalso].
  assert (Hx : exists y, In y l /\ keq x y = true).
  { unfold count_of in Hmaj. destruct (filter (keq x) l) as [|y f] eqn:Ef.
    - simpl in Hmaj. lia.
    - exists y. apply filter_In. rewrite Ef. left. reflexivity. }
  destruct Hx as (y & Hy & Exy).
  pose proof (Hmax y Hy) as Hle.
  rewrite <- (count_equiv keq keq_sym keq_trans x y l Exy) in Hle.
  rewrite keq_sym in Evx. pose proof (count_disjoint x v l Evx). lia.
Qed.

End CounterMembers.

(** ** Loops and dictionaries *)

Section Loops.

Lemma comprehension_snoc {A B} (f : A -> result B) (l : list A) (a : A)
  (bs : list B) (b : B) :
  comprehension f l = Return bs -> f a = Return b ->
  comprehension f (l ++ [a]) = Return (bs ++ [b]).
Proof.
  revert bs. induction l as [|a0 l IH]; intros bs Hl Ha; simpl in *.
  - injection Hl as <-. rewrite Ha. reflexivity.
  - destruct (f a0) as [b0|]; [|discriminate]. simpl in *.
    destruct (comprehension f l) as [bs0|]; [|discriminate]. simpl in *.
    injection Hl as <-. rewrite (IH bs0 eq_refl Ha). reflexivity.
Qed.

Lemma comprehension_Forall2 {A B} (f : A -> result B) (l : list A) (bs : list B) :
  comprehension f l = Return bs <-> Forall2 (fun a b => f a = Return b) l bs.
Proof.
  revert bs. induction l as [|a l IH]; intros bs; simpl.
  - split; intros H; [injection H as <-; constructor | inversion H; reflexivity].
  - split.
    + intros H. destruct (f a) as [b|] eqn:Ea; [|discriminate]. simpl in H.
      destruct (comprehension f l) as [bs0|]; [|discriminate]. simpl in H.
      injection H as <-. constructor; [exact Ea | apply IH; reflexivity].
    + intros H. inversion H as [|? b ? bs0 Ha Hl]; subst.
      rewrite Ha. simpl. apply IH in Hl. rewrite Hl. reflexivity.
Qed.

Lemma dict_get_In {V} (k : string) (v : V) (d : dict V) :
  dict_get k d = Some v -> In (k, v) d.
Proof.
  induction d as [|[k' v'] d IH]; simpl; [discriminate|].
  destruct (String.eqb_spec k' k) as [-> | Hne].
  - intros H. injection H as ->. left. reflexivity.
  - intros H. right. apply IH, H.
Qed.

Lemma In_dict_get {V} (k : string) (v : V) (d : dict V) :
  NoDup (map fst d) -> In (k, v) d -> dict_get k d = Some v.
Proof.
  induction d as [|[k' v'] d IH]; simpl; intros N H; [destruct H|].
  inversion N as [|? ? Hnot N']; subst.
  destruct H as [H | H].
  - injection H as -> ->. rewrite String.eqb_refl. reflexivity.
  - destruct (String.eqb_spec k' k) as [-> | Hne].
    + exfalso. apply Hnot. apply (in_map fst) in H. exact H.
    + apply IH; assumption.
Qed.

Lemma dict_get_None {V} (k : string) (d : dict V) :
  dict_get k d = None <-> ~ In k (map fst d).
Proof.
  induction d as [|[k' v'] d IH]; simpl; [tauto|].
  destruct (String.eqb_spec k' k) as [-> | Hne].
  - split; [discriminate | intros H; exfalso; apply H; left; reflexivity].
  - rewrite IH. tauto.
Qed.

Lemma dict_set_fresh {V} (k : string) (v : V) (d : dict V) :
  ~ In k (map fst d) -> dict_set k v d = d ++ [(k, v)].
Proof.
  induction d as [|[k' v'] d IH]; simpl; intros H; [reflexivity|].
  destruct (String.eqb_spec k' k) as [-> | Hne]; [tauto|].
  rewrite IH; [reflexivity | tauto].
Qed.

Lemma dict_append_keys {V} (k : string) (x : V) (d : dict (list V)) :
  map fst (dict_append k x d) = map fst d.
Proof.
  unfold dict_append. rewrite map_map. apply map_ext. intros [k' vs]. simpl.
  destruct (String.eqb k' k); reflexivity.
Qed.

Lemma dict_append_In {V} (k : string) (x : V) (d : dict (list V)) (k' : string)
  (vs' : list V) :
  In (k', vs') (dict_append k x d) ->
  exists vs, In (k', vs) d /\ (k' = k -> vs' = vs ++ [x]) /\ (k' <> k -> vs' = vs).
Proof.
  unfold dict_append. intros H. apply in_map_iff in H.
  destruct H as ([k0 vs] & Heq & Hin). simpl in Heq.
  destruct (String.eqb_spec k0 k) as [-> | Hne]; injection Heq as <- <-.
  - exists vs. repeat split; [exact Hin | congruence].
  - exists vs. repeat split; [exact Hin | congruence].
Qed.

End Loops.

(** ** Mode extraction *)

Section Modes.
Context {E : Externals}.

Lemma mode_keys_eval : mode_keys = Return extracted_features.
Proof. reflexivity. Qed.

(** *** The keys of the counter *)

Lemma float_eqb_num (a b : float) : PrimFloat.eqb a b = true -> is_num a /\ is_num b.
Proof.
  rewrite eqb_spec, !is_num_spec. unfold SFeqb. intros H.
  split; intros N; rewrite N in H.
  - discriminate.
  - destruct (Prim2SF a); discriminate.
Qed.

Lemma same_key_sym (a b : float_object) : same_key a b = same_key b a.
Proof.
  unfold same_key. rewrite float_eqb_sym. f_equal.
  destruct (snd a), (snd b), (PrimFloat.is_nan (fst a)), (PrimFloat.is_nan (fst b));
    reflexivity.
Qed.

Lemma same_key_trans (a b c : float_object) :
  same_key a b = true -> same_key b c = true -> same_key a c = true.
Proof.
  unfold same_key. intros H1 H2.
  apply orb_true_iff in H1. apply orb_true_iff in H2. apply orb_true_iff.
  destruct H1 as [H1 | H1], H2 as [H2 | H2].
  - left. exact (float_eqb_trans _ _ _ H1 H2).
  - exfalso. destruct (float_eqb_num _ _ H1) as [_ Hb]. unfold is_num in Hb.
    rewrite Hb, andb_false_r in H2. discriminate.
  - exfalso. destruct (float_eqb_num _ _ H2) as [Hb _]. unfold is_num in Hb.
    rewrite Hb, andb_false_r in H1. discriminate.
  - right. repeat (apply andb_true_iff in H1; destruct H1 as [H1 ?]).
    repeat (apply andb_true_iff in H2; destruct H2 as [H2 ?]).
    repeat (apply andb_true_iff; split); assumption.
Qed.

(** Among numbers, the keys are the same when the numbers are equal. *)
Lemma same_key_num (a b : float_object) :
  is_num (fst a) -> same_key a b = PrimFloat.eqb (fst a) (fst b).
Proof.
  unfold same_key, is_num. intros ->. rewrite andb_false_r. simpl.
  apply orb_false_r.
Qed.

(** A number, and a float of the request, is the same key as itself. *)
Lemma same_key_refl (a : float_object) :
  is_num (fst a) \/ snd a = true -> same_key a a = true.
Proof.
  unfold same_key. intros [H | H].
  - rewrite (float_eqb_refl _ H). reflexivity.
  - rewrite H. unfold PrimFloat.is_nan.
    destruct (PrimFloat.eqb (fst a) (fst a)); reflexivity.
Qed.

Lemma count_values (y : float_object) (objects : list float_object) :
  is_num (fst y) ->
  count_of same_key y objects = count_of PrimFloat.eqb (fst y) (map fst objects).
Proof.
  intros Hy. unfold count_of. induction objects as [|o objects IH]; [reflexivity|].
  simpl. rewrite (same_key_num y o Hy).
  destruct (PrimFloat.eqb (fst y) (fst o)); simpl; rewrite IH; reflexivity.
Qed.

(** On a column of numbers, the most frequent key is the most frequent
    value. *)
Lemma first_seen_values (objects : list float_object) (o : float_object) :
  Forall is_num (map fst objects) ->
  most_frequent_first_seen same_key objects o ->
  most_frequent_first_seen PrimFloat.eqb (map fst objects) (fst o).
Proof.
  intros Hnum (pre & post & Hl & Hpre & Hmax).
  assert (Hn : forall y, In y objects -> is_num (fst y)).
  { intros y Hy. rewrite Forall_forall in Hnum. apply Hnum, in_map, Hy. }
  assert (Ho : is_num (fst o)).
  { apply Hn. rewrite Hl. apply in_elt. }
  exists (map fst pre), (map fst post). split; [|split].
  - rewrite Hl, map_app. reflexivity.
  - intros x Hx. apply in_map_iff in Hx. destruct Hx as (y & <- & Hy).
    destruct (Hpre y Hy) as [Hk Hc].
    assert (Hyn : is_num (fst y)).
    { apply Hn. rewrite Hl. apply in_or_app. left. exact Hy. }
    rewrite (same_key_num y o Hyn) in Hk.
    rewrite (count_values y objects Hyn), (count_values o objects Ho) in Hc.
    split; assumption.
  - intros x Hx. apply in_map_iff in Hx. destruct Hx as (y & <- & Hy).
    pose proof (Hmax y Hy) as Hc.
    rewrite (count_values y objects (Hn y Hy)), (count_values o objects Ho) in Hc.
    exact Hc.
Qed.

(** *** The objects and the values of a reading *)

Lemma reading_object_value (input_data : json) (key : string) (o : float_object) :
  reading_object input_data key = Return o ->
  reading_value input_data key = Return (fst o).
Proof.
  unfold reading_object, reading_value.
  destruct (subscript input_data key) as [v|e]; simpl; [|discriminate].
  destruct (py_float v) as [x|e]; simpl; [|discriminate].
  intros H. injection H as <-. reflexivity.
Qed.

Lemma reading_value_object (input_data : json) (key : string) (x : float) :
  reading_value input_data key = Return x ->
  exists o, reading_object input_data key = Return o /\ fst o = x.
Proof.
  unfold reading_object, reading_value.
  destruct (subscript input_data key) as [v|e]; simpl; [|discriminate].
  destruct (py_float v) as [x'|e]; simpl; [|discriminate].
  intros H. injection H as <-. eexists. split; reflexivity.
Qed.

Lemma object_column_values (key : string) (batch : list json)
  (objects : list float_object) :
  object_column key batch = Return objects ->
  feature_column key batch = Return (map fst objects).
Proof.
  unfold object_column, feature_column. rewrite !comprehension_Forall2.
  induction 1 as [|r o batch objects Hro _ IH]; simpl; constructor.
  - apply reading_object_value, Hro.
  - exact IH.
Qed.

(** *** The loops of the mode extractor *)

Lemma append_keys (input_data : json) (todo : list string) (a : dict (list float_object)) :
  NoDup todo ->
  (forall k, In k todo -> exists x, reading_object input_data k = Return x) ->
  exists a',
    for_each (fun all_values key =>
        x <- reading_object input_data key ;;
        Return (dict_append key x all_values)) todo a = Return a'
    /\ map fst a' = map fst a
    /\ forall k vs', In (k, vs') a' ->
         exists vs, In (k, vs) a
           /\ (In k todo ->
               exists x, reading_object input_data k = Return x /\ vs' = vs ++ [x])
           /\ (~ In k todo -> vs' = vs).
Proof.
  revert a. induction todo as [|k0 todo IH]; intros a N H; simpl.
  - exists a. repeat split. intros k vs' Hin. exists vs'. tauto.
  - inversion N as [|? ? Hnot N']; subst.
    destruct (H k0 (or_introl eq_refl)) as [x0 Hx0]. rewrite Hx0. simpl.
    destruct (IH (dict_append k0 x0 a) N') as (a' & Hrun & Hkeys & Hent).
    { intros k Hk. apply H. right. exact Hk. }
    exists a'. split; [exact Hrun|]. split; [rewrite Hkeys; apply dict_append_keys|].
    intros k vs' Hin. destruct (Hent k vs' Hin) as (vs1 & Hin1 & Htodo & Hrest).
    destruct (dict_append_In _ _ _ _ _ Hin1) as (vs & Hin0 & Hsame & Hother).
    exists vs. split; [exact Hin0|]. split.
    + intros [<- | Hk].
      * exists x0. split; [exact Hx0|]. rewrite (Hrest Hnot). apply Hsame. reflexivity.
      * destruct (Htodo Hk) as (x & Hx & ->). exists x. split; [exact Hx|].
        rewrite Hother; [reflexivity|]. intros ->. exact (Hnot Hk).
    + intros Hk. rewrite Hrest by tauto. apply Hother. intros ->. apply Hk. left. reflexivity.
Qed.

Lemma append_reading_spec (input_data : json) (d : dict (list float_object)) :
  NoDup (map fst d) ->
  (forall k, In k (map fst d) -> exists x, reading_object input_data k = Return x) ->
  exists d',
    append_reading d input_data = Return d'
    /\ map fst d' = map fst d
    /\ forall k vs', In (k, vs') d' ->
         exists vs x, In (k, vs) d /\ reading_object input_data k = Return x
                      /\ vs' = vs ++ [x].
Proof.
  intros N H. destruct (append_keys input_data (map fst d) d N H)
    as (d' & Hrun & Hkeys & Hent).
  exists d'. split; [exact Hrun|]. split; [exact Hkeys|].
  intros k vs' Hin. destruct (Hent k vs' Hin) as (vs & Hin0 & Htodo & _).
  destruct Htodo as (x & Hx & ->).
  { apply (in_map fst) in Hin0. exact Hin0. }
  exists vs, x. repeat split; assumption.
Qed.

Lemma collect_columns (rest done : list json) (d : dict (list float_object)) :
  NoDup (map fst d) ->
  (forall k vs, In (k, vs) d -> object_column k done = Return vs) ->
  (forall r k, In r rest -> In k (map fst d) ->
               exists x, reading_object r k = Return x) ->
  exists d',
    for_each append_reading rest d = Return d'
    /\ map fst d' = map fst d
    /\ forall k vs, In (k, vs) d' -> object_column k (done ++ rest) = Return vs.
Proof.
  revert done d. induction rest as [|r rest IH]; intros done d N Hcol H; simpl.
  - exists d. rewrite app_nil_r. repeat split. exact Hcol.
  - destruct (append_reading_spec r d N) as (d1 & Hrun & Hkeys & Hent).
    { intros k Hk. apply (H r k); [left; reflexivity | exact Hk]. }
    rewrite Hrun. simpl.
    destruct (IH (done ++ [r]) d1) as (d' & Hrun' & Hkeys' & Hcol').
    + rewrite Hkeys. exact N.
    + intros k vs' Hin. destruct (Hent k vs' Hin) as (vs & x & Hin0 & Hx & ->).
      apply comprehension_snoc; [apply Hcol, Hin0 | exact Hx].
    + intros r' k Hr' Hk. apply H; [right; exact Hr' | rewrite <- Hkeys; exact Hk].
    + exists d'. split; [exact Hrun'|]. split; [congruence|].
      intros k vs Hin. rewrite <- app_assoc in Hcol'. apply Hcol', Hin.
Qed.

Lemma set_modes (items : dict (list float_object)) (acc : dict float) :
  NoDup (map fst acc ++ map fst items) ->
  (forall k vs, In (k, vs) items ->
                exists v, most_common_value same_key vs = Return v) ->
  exists modes,
    for_each set_mode items acc = Return modes
    /\ map fst modes = map fst acc ++ map fst items
    /\ (forall k v, In (k, v) acc -> In (k, v) modes)
    /\ forall k vs, In (k, vs) items ->
         exists v, most_common_value same_key vs = Return v /\ In (k, fst v) modes.
Proof.
  revert acc. induction items as [|[k0 vs0] items IH]; intros acc N H; simpl.
  - exists acc. rewrite app_nil_r. repeat split; [tauto | intros k vs []].
  - destruct (H k0 vs0 (or_introl eq_refl)) as [v0 Hv0].
    unfold set_mode at 1. simpl. rewrite Hv0. simpl.
    assert (Hfresh : ~ In k0 (map fst acc)).
    { intros Hin. apply NoDup_remove_2 in N. apply N. apply in_or_app. left. exact Hin. }
    rewrite (dict_set_fresh _ _ _ Hfresh).
    destruct (IH (acc ++ [(k0, fst v0)])) as (modes & Hrun & Hkeys & Hacc & Hitems).
    + rewrite map_app. simpl. rewrite <- app_assoc. exact N.
    + intros k vs Hin. apply (H k vs). right. exact Hin.
    + exists modes. split; [exact Hrun|]. split.
      * rewrite Hkeys, map_app, <- app_assoc. reflexivity.
      * split.
        -- intros k v Hin. apply Hacc. apply in_or_app. left. exact Hin.
        -- intros k vs [Heq | Hin].
           ++ injection Heq as <- <-. exists v0. split; [exact Hv0|].
              apply Hacc. apply in_or_app. right. left. reflexivity.
           ++ apply Hitems, Hin.
Qed.

Lemma Forall2_length_eq {A B} (R : A -> B -> Prop) (l : list A) (l' : list B) :
  Forall2 R l l' -> List.length l = List.length l'.
Proof. induction 1; simpl; congruence. Qed.

(** The mode extractor on a non-empty batch whose readings carry every
    extracted feature with a value [float] accepts: it returns one mode per
    extracted feature, the value of the key that the counter of the
    feature's objects has most often, first seen. *)
Lemma calculate_modes_objects (batch : list json) :
  batch <> [] ->
  (forall input_data key,
     In input_data batch -> In key extracted_features ->
     exists x, reading_value input_data key = Return x) ->
  exists modes,
    calculate_modes batch = Return modes
    /\ map fst modes = extracted_features
    /\ forall key, In key extracted_features ->
         exists objects mode,
           object_column key batch = Return objects
           /\ most_common_value same_key objects = Return mode
           /\ dict_get key modes = Some (fst mode)
           /\ (Forall (fun o => is_num (fst o) \/ snd o = true) objects ->
               most_frequent_first_seen same_key objects mode).
Proof.
  intros Hne H. unfold calculate_modes. rewrite mode_keys_eval. simpl bind.
  match goal with
  | |- context [for_each append_reading batch ?d] => set (d0 := d)
  end.
  assert (Hd0 : map fst d0 = extracted_features) by reflexivity.
  assert (Nk : NoDup extracted_features).
  { unfold extracted_features.
    repeat (constructor; [simpl; intuition discriminate|]). constructor. }
  destruct (collect_columns batch [] d0) as (d & Hrun & Hkeys & Hcol).
  - rewrite Hd0. exact Nk.
  - intros k vs Hin. unfold d0 in Hin. simpl in Hin.
    repeat (destruct Hin as [Hin | Hin]; [injection Hin as <- <-; reflexivity|]).
    destruct Hin.
  - intros r k Hr Hk. rewrite Hd0 in Hk. destruct (H r k Hr Hk) as [x Hx].
    destruct (reading_value_object r k x Hx) as (o & Ho & _). exists o. exact Ho.
  - rewrite Hrun. simpl bind. simpl app in Hcol.
    assert (Hmode : forall k vs, In (k, vs) d ->
              exists v, most_common_value same_key vs = Return v
                        /\ (Forall (fun o => is_num (fst o) \/ snd o = true) vs ->
                            most_frequent_first_seen same_key vs v)).
    { intros k vs Hin. pose proof (Hcol k vs Hin) as Hc.
      apply comprehension_Forall2 in Hc.
      destruct (most_common_value_spec same_key same_key_sym same_key_trans vs)
        as (v & Hv & Hspec).
      - intros ->. apply Forall2_length_eq in Hc.
        destruct batch; [congruence | discriminate].
      - exists v. split; [exact Hv|]. intros F. apply Hspec.
        apply (Forall_impl _ same_key_refl F). }
    destruct (set_modes d []) as (modes & Hrun' & Hkeys' & _ & Hitems).
    + simpl. rewrite Hkeys, Hd0. exact Nk.
    + intros k vs Hin. destruct (Hmode k vs Hin) as (v & Hv & _). exists v. exact Hv.
    + exists modes. split; [exact Hrun'|]. simpl in Hkeys'.
      split; [rewrite Hkeys', Hkeys, Hd0; reflexivity|].
      intros key Hkey.
      assert (Hin : In key (map fst d)) by (rewrite Hkeys, Hd0; exact Hkey).
      apply in_map_iff in Hin. destruct Hin as ([k vs] & Hk & Hin). simpl in Hk. subst k.
      destruct (Hitems key vs Hin) as (v & Hv & Hinm).
      destruct (Hmode key vs Hin) as (v' & Hv' & Hspec).
      rewrite Hv in Hv'. injection Hv' as <-.
      exists vs, v. split; [apply Hcol, Hin|]. split; [exact Hv|]. split; [|exact Hspec].
      apply In_dict_get; [|exact Hinm].
      rewrite Hkeys', Hkeys, Hd0. exact Nk.
Qed.

(** The same on the values: the mode of a column of numbers is its most
    frequent value, first seen. *)
Lemma calculate_modes_spec (batch : list json) :
  batch <> [] ->
  (forall input_data key,
     In input_data batch -> In key extracted_features ->
     exists x, reading_value input_data key = Return x) ->
  exists modes,
    calculate_modes batch = Return modes
    /\ map fst modes = extracted_features
    /\ forall key, In key extracted_features ->
         exists column v,
           feature_column key batch = Return column
           /\ dict_get key modes = Some v
           /\ (Forall is_num column ->
               most_frequent_first_seen PrimFloat.eqb column v).
Proof.
  intros Hne H.
  destruct (calculate_modes_objects batch Hne H) as (modes & Hrun & Hkeys & Hspec).
  exists modes. split; [exact Hrun|]. split; [exact Hkeys|].
  intros key Hkey. destruct (Hspec key Hkey) as (objects & mode & Hcol & _ & Hget & Hmode).
  exists (map fst objects), (fst mode).
  split; [apply object_column_values, Hcol|]. split; [exact Hget|].
  intros Hnum. apply (first_seen_values objects mode Hnum). apply Hmode.
  rewrite Forall_forall in *. intros o Ho. left. apply Hnum, in_map, Ho.
Qed.

End Modes.

(** ** The claims on the mode extractor *)

Section ModeClaims.


Lemma sample_readings_complete (xs : list float) :
  forall input_data key,
    In input_data (map reading_with_vibration_x xs) -> In key extracted_features ->
    exists x, reading_value (E := sample_externals) input_data key = Return x.
Proof.
  intros r key Hr Hk. apply in_map_iff in Hr. destruct Hr as (x & <- & Hx).
  simpl in Hk.
  repeat (destruct Hk as [<- | Hk]; [eexists; reflexivity|]).
  destruct Hk.
Qed.



(** C2.  On the code, the extracted features are nine: [ultra_sound], which
    the ultra-sound model consumes, has no entry in the modes of a valid
    batch. *)
Theorem C2_modes_without_ultra_sound {E : Externals} (batch : list json) :
  batch <> [] ->
  (forall input_data key,
     In input_data batch -> In key stated_mode_features ->
     exists x, reading_value input_data key = Return x) ->
  exists modes,
    calculate_modes batch = Return modes
    /\ map fst modes
       = [ "temperature_one"; "temperature_two";
           "vibration_x"; "vibration_y"; "vibration_z";
           "magnetic_flux_x"; "magnetic_flux_y"; "magnetic_flux_z";
           "audible_sound" ]
    /\ dict_get "ultra_sound" modes = None
    /\ In "ultra_sound" stated_mode_features
    /\ dict_get "ultra_sound_model" feature_sets
       = Some ["vibration_x"; "vibration_y"; "vibration_z"; "ultra_sound"].
Proof.
  intros Hne H.
  destruct (calculate_modes_spec batch Hne) as (modes & Hrun & Hkeys & _).
  { intros r key Hr Hk. apply (H r key Hr). simpl in *. tauto. }
  exists modes. split; [exact Hrun|]. split; [exact Hkeys|]. split.
  - apply dict_get_None. rewrite Hkeys. simpl. intuition discriminate.
  - split; [simpl; tauto | reflexivity].
Qed.

(** One reading that carries [ultra_sound]: its modes do not. *)
Lemma C2_modes_without_ultra_sound_witness :
  exists modes,
    calculate_modes (E := sample_externals) [safe_reading] = Return modes
    /\ subscript safe_reading "ultra_sound" = Return (JFloat 20)
    /\ dict_get "ultra_sound" modes = None
    /\ dict_get "audible_sound" modes = Some 40%float.
Proof.
  assert (Hne : [safe_reading] <> []) by discriminate.
  assert (H : forall input_data key,
             In input_data [safe_reading] -> In key stated_mode_features ->
             exists x, reading_value (E := sample_externals) input_data key = Return x).
  { intros r key [<- | []] Hk. simpl in Hk.
    repeat (destruct Hk as [<- | Hk]; [eexists; reflexivity|]).
    destruct Hk. }
  destruct (C2_modes_without_ultra_sound (E := sample_externals) [safe_reading] Hne H)
    as (modes & Hrun & _ & Hnone & _).
  exists modes. split; [exact Hrun|]. split; [reflexivity|]. split; [exact Hnone|].
  vm_compute in Hrun. injection Hrun as <-. reflexivity.
Defined.

End ModeClaims.

(** ** Aggregation *)

Section Aggregation.
Context {E : Externals}.

Lemma prediction_eqb_sym (p q : prediction) : prediction_eqb p q = prediction_eqb q p.
Proof.
  destruct p, q; simpl; try reflexivity; [apply float_eqb_sym | apply String.eqb_sym].
Qed.

Lemma prediction_eqb_trans (p q r : prediction) :
  prediction_eqb p q = true -> prediction_eqb q r = true -> prediction_eqb p r = true.
Proof.
  destruct p, q, r; simpl; try discriminate.
  - apply float_eqb_trans.
  - rewrite !String.eqb_eq. congruence.
Qed.

Lemma prediction_eqb_refl (p : prediction) :
  prediction_is_num p -> prediction_eqb p p = true.
Proof. destruct p; simpl; [apply float_eqb_refl | intros _; apply String.eqb_refl]. Qed.

Lemma string_eqb_trans (a b c : string) :
  String.eqb a b = true -> String.eqb b c = true -> String.eqb a c = true.
Proof. rewrite !String.eqb_eq. congruence. Qed.







(** The aggregate of a non-empty series of predictions: the mean of the
    numbers when all are numbers, else the string of the prediction [Counter]
    ranks first, which is the most frequent prediction, first seen, when the
    numbers of the series are numbers (no nan). *)
Lemma aggregate_series_spec (series : list prediction) :
  series <> [] ->
  exists value,
    aggregate_series series = Return value
    /\ (forallb is_number series = true ->
        value = PNum (np_mean (numbers series)))
    /\ (forallb is_number series = false ->
        exists v, value = PCat (py_str v)
                  /\ (Forall prediction_is_num series ->
                      most_frequent_first_seen prediction_eqb series v)).
Proof.
  intros Hne. unfold aggregate_series.
  destruct (forallb is_number series) eqn:Hall.
  - eexists. split; [reflexivity|]. split; [reflexivity | discriminate].
  - destruct (most_common_value_spec prediction_eqb prediction_eqb_sym
                prediction_eqb_trans series Hne) as (v & Hv & Hmode).
    rewrite Hv. simpl. eexists. split; [reflexivity|].
    split; [discriminate|]. intros _. exists v. split; [reflexivity|].
    intros F. apply Hmode. apply (Forall_impl _ prediction_eqb_refl F).
Qed.

Lemma aggregate_loop (predictions_list : list (dict prediction)) (names : list string)
  (acc : dict prediction) :
  NoDup (map fst acc ++ map (replace "_model" "") names) ->
  (forall name, In name names ->
     exists series value,
       model_series (replace "_model" "" name) predictions_list = Return series
       /\ aggregate_series series = Return value) ->
  exists aggregated,
    for_each (fun aggregated model_name =>
        let key := replace "_model" "" model_name in
        model_predictions <- model_series key predictions_list ;;
        value <- aggregate_series model_predictions ;;
        Return (dict_set key value aggregated)) names acc = Return aggregated
    /\ map fst aggregated = map fst acc ++ map (replace "_model" "") names
    /\ (forall k v, In (k, v) acc -> In (k, v) aggregated)
    /\ forall name, In name names ->
         exists series value,
           model_series (replace "_model" "" name) predictions_list = Return series
           /\ aggregate_series series = Return value
           /\ In (replace "_model" "" name, value) aggregated.
Proof.
  revert acc. induction names as [|n0 names IH]; intros acc N H; simpl.
  - exists acc. rewrite app_nil_r. repeat split; [tauto | intros name []].
  - destruct (H n0 (or_introl eq_refl)) as (s0 & v0 & Hs0 & Hv0).
    rewrite Hs0. simpl. rewrite Hv0. simpl.
    assert (Hfresh : ~ In (replace "_model" "" n0) (map fst acc)).
    { intros Hin. apply NoDup_remove_2 in N. apply N. apply in_or_app. left. exact Hin. }
    rewrite (dict_set_fresh _ _ _ Hfresh).
    destruct (IH (acc ++ [(replace "_model" "" n0, v0)]))
      as (agg & Hrun & Hkeys & Hacc & Hnames).
    + rewrite map_app. simpl. rewrite <- app_assoc. exact N.
    + intros name Hin. apply H. right. exact Hin.
    + exists agg. split; [exact Hrun|]. split.
      * rewrite Hkeys, map_app, <- app_assoc. reflexivity.
      * split.
        -- intros k v Hin. apply Hacc. apply in_or_app. left. exact Hin.
        -- intros name [<- | Hin].
           ++ exists s0, v0. repeat split; try assumption.
              apply Hacc. apply in_or_app. right. left. reflexivity.
           ++ apply Hnames, Hin.
Qed.

End Aggregation.

(** ** The claim on the aggregator *)

Section AggregationClaim.

Lemma series_exists (key : string) (predictions_list : list (dict prediction)) :
  (forall pred, In pred predictions_list -> exists p, dict_get key pred = Some p) ->
  exists series,
    model_series key predictions_list = Return series
    /\ List.length series = List.length predictions_list.
Proof.
  unfold model_series.
  induction predictions_list as [|pred l IH]; intros H; simpl.
  - exists []. split; reflexivity.
  - destruct (H pred (or_introl eq_refl)) as (p & Hp).
    destruct IH as (series & Hs & Hlen).
    { intros q Hq. apply H. right. exact Hq. }
    exists (p :: series). rewrite (dict_subscript_some _ _ _ Hp). simpl. rewrite Hs.
    simpl. split; congruence.
Qed.


Lemma sample_mappings_complete (ps : list prediction) :
  forall pred name,
    In pred (map prediction_mapping ps) -> In name model_names ->
    exists p, dict_get (replace "_model" "" name) pred = Some p.
Proof.
  intros pred name Hp Hn. apply in_map_iff in Hp. destruct Hp as (p & <- & Hin).
  simpl in Hn.
  repeat (destruct Hn as [<- | Hn]; [eexists; reflexivity|]).
  destruct Hn.
Qed.



End AggregationClaim.

(** ** The single-reading predictor *)

Section Predictor.
Context {E : Externals}.

Lemma feature_sets_names (model_name : string) (features : list string) :
  dict_subscript feature_sets model_name = Return features ->
  In model_name model_names.
Proof.
  unfold dict_subscript, feature_sets. cbn [dict_get].
  repeat match goal with
         | |- context [String.eqb ?a model_name] =>
             destruct (String.eqb_spec a model_name) as [<- | ?];
             [intros _; simpl; tauto|]
         end.
  discriminate.
Qed.

Lemma prediction_key_not_error (model_name : string) :
  In model_name model_names -> replace "_model" "" model_name <> "error".
Proof.
  simpl. intros H.
  repeat (destruct H as [<- | H]; [vm_compute; discriminate|]). destruct H.
Qed.

(** What the predictor returns is a prediction under the model's key, or
    the error dict that names the model. *)
Lemma predict_single_model_returns (model_name : string) (model : predictor)
  (input_data : json) (d : dict prediction) :
  predict_single_model model_name model input_data = Return d ->
  (exists p, d = [(replace "_model" "" model_name, p)] /\ dict_mem "error" d = false)
  \/ (exists detail,
        d = [("error", PCat ("Invalid input for " ++ model_name ++ ": " ++ detail))]
        /\ dict_mem "error" d = true).
Proof.
  unfold predict_single_model.
  destruct (dict_subscript feature_sets model_name) as [features|] eqn:Ef;
    [|discriminate].
  simpl. pose proof (prediction_key_not_error _ (feature_sets_names _ _ Ef)) as Hk.
  destruct (comprehension (fun feature => reading_value input_data feature) features)
    as [X|e]; simpl.
  - destruct (model X) as [raw|e]; simpl.
    + intros H. injection H as <-. left. eexists. split; [reflexivity|].
      unfold dict_mem. simpl.
      destruct (String.eqb_spec (replace "_model" "" model_name) "error");
        [contradiction | reflexivity].
    + destruct (exn_cls e); try discriminate;
        intros H; injection H as <-; right; eexists; split; reflexivity.
  - destruct (exn_cls e); try discriminate;
      intros H; injection H as <-; right; eexists; split; reflexivity.
Qed.

(** A failed task leads to an answer with the single field [error]. *)
Lemma failure_body_shape (model_name : string) (input_data : json) (b : json) :
  failure_body (task model_name input_data) = Some b ->
  exists message, b = error_body message.
Proof.
  unfold failure_body, task.
  destruct (predict_single_model model_name (load_model model_name) input_data)
    as [d|e] eqn:Ep.
  - destruct (predict_single_model_returns _ _ _ _ Ep) as [(p & -> & Hm) | (m & -> & Hm)];
      rewrite Hm; [discriminate|].
    intros H. injection H as <-. eexists. reflexivity.
  - intros H. injection H as <-. eexists. reflexivity.
Qed.

(** A task that does not fail delivers one prediction under its key. *)
Lemma task_delivers (model_name : string) (input_data : json) :
  failure_body (task model_name input_data) = None ->
  exists p, task model_name input_data = Return [(replace "_model" "" model_name, p)].
Proof.
  unfold failure_body, task.
  destruct (predict_single_model model_name (load_model model_name) input_data)
    as [d|e] eqn:Ep; [|discriminate].
  destruct (predict_single_model_returns _ _ _ _ Ep) as [(p & -> & Hm) | (m & -> & Hm)];
    rewrite Hm; [|discriminate].
  intros _. exists p. reflexivity.
Qed.

(** A required feature that is absent, after features that are present and
    numeric: the [KeyError] of the lookup is not among the caught classes
    and leaves the predictor. *)
Lemma missing_feature_raises (model_name : string) (model : predictor)
  (fields : dict json) (before after : list string) (feature : string) :
  dict_get model_name feature_sets = Some (before ++ feature :: after) ->
  (forall f, In f before -> exists x, reading_value (JObj fields) f = Return x) ->
  dict_get feature fields = None ->
  predict_single_model model_name model (JObj fields)
  = Raise (mkExn KeyError (repr_str feature)).
Proof.
  intros Hf Hb Hmiss. unfold predict_single_model.
  rewrite (dict_subscript_some _ _ _ Hf). simpl.
  assert (Hc : comprehension (fun f => reading_value (JObj fields) f)
                 (before ++ feature :: after)
               = Raise (mkExn KeyError (repr_str feature))).
  { clear Hf. induction before as [|f0 before IH]; simpl.
    - unfold reading_value. simpl. unfold dict_subscript. rewrite Hmiss. reflexivity.
    - destruct (Hb f0 (or_introl eq_refl)) as [x ->]. simpl.
      rewrite IH; [reflexivity|]. intros f Hin. apply Hb. right. exact Hin. }
  rewrite Hc. reflexivity.
Qed.

(** A required feature whose value [float] rejects with a [ValueError] or a
    [TypeError], after features that are present and numeric: the predictor
    returns the error dict that names the model. *)
Lemma invalid_feature_returns_error (model_name : string) (model : predictor)
  (input_data : json) (before after : list string) (feature : string) (e : exn) :
  dict_get model_name feature_sets = Some (before ++ feature :: after) ->
  (forall f, In f before -> exists x, reading_value input_data f = Return x) ->
  reading_value input_data feature = Raise e ->
  exn_cls e = ValueError \/ exn_cls e = TypeError ->
  predict_single_model model_name model input_data
  = Return [("error", PCat ("Invalid input for " ++ model_name ++ ": " ++ exn_str e))].
Proof.
  intros Hf Hb Hbad Hcls. unfold predict_single_model.
  rewrite (dict_subscript_some _ _ _ Hf). simpl.
  assert (Hc : comprehension (fun f => reading_value input_data f)
                 (before ++ feature :: after) = Raise e).
  { clear Hf. induction before as [|f0 before IH]; simpl.
    - rewrite Hbad. reflexivity.
    - destruct (Hb f0 (or_introl eq_refl)) as [x ->]. simpl.
      rewrite IH; [reflexivity|]. intros f Hin. apply Hb. right. exact Hin. }
  rewrite Hc. simpl. destruct Hcls as [-> | ->]; reflexivity.
Qed.

(** A value that is no number and no numeric string is rejected by [float]
    with a [ValueError] or a [TypeError]. *)
Lemma py_float_rejects (v : json) (e : exn) :
  py_float v = Raise e ->
  (exists z, v = JInt z /\ exn_cls e = OverflowError)
  \/ exn_cls e = ValueError \/ exn_cls e = TypeError.
Proof.
  destruct v as [|b|z|x|s|l|d]; simpl; try discriminate;
    try (intros H; injection H as <-; simpl; tauto).
  - unfold float_of_int. destruct (is_infinity _); [|discriminate].
    intros H. injection H as <-. left. exists z. split; reflexivity.
  - destruct (float_of_str s); [discriminate|].
    intros H. injection H as <-. simpl. tauto.
Qed.

End Predictor.

(** ** The fan-out over the models of one reading *)

Section FanOut.
Context {E : Externals}.

Lemma insert_at_perm {A} (n : nat) (x : A) (l : list A) :
  Permutation (insert_at n x l) (x :: l).
Proof.
  revert n. induction l as [|y l IH]; intros [|n]; simpl; try reflexivity.
  rewrite (IH n). apply perm_swap.
Qed.

(** Whatever the places, the futures complete once each. *)
Lemma as_completed_perm {A} (places : list nat) (futures : list A) :
  Permutation (as_completed places futures) futures.
Proof.
  revert places. induction futures as [|f rest IH]; intros places; simpl.
  - reflexivity.
  - rewrite insert_at_perm. constructor. apply IH.
Qed.

Lemma insert_at_app {A} (a b : list A) (x : A) :
  insert_at (List.length a) x (a ++ b) = a ++ x :: b.
Proof. induction a as [|y a IH]; simpl; [destruct b; reflexivity | rewrite IH; reflexivity]. Qed.

(** And every order of completion has its places. *)
Lemma as_completed_any_order {A} (futures completed : list A) :
  Permutation futures completed ->
  exists places, as_completed places futures = completed.
Proof.
  revert completed. induction futures as [|f rest IH]; intros completed P.
  - apply Permutation_nil in P. subst. exists []. reflexivity.
  - assert (Hin : In f completed) by (apply (Permutation_in _ P); left; reflexivity).
    apply in_split in Hin. destruct Hin as (a & b & ->).
    apply Permutation_cons_app_inv in P. destruct (IH _ P) as (places & Hp).
    exists (List.length a :: places). simpl. rewrite Hp. apply insert_at_app.
Qed.

Lemma submit_all_tasks (input_data : json) :
  submit_all input_data = map (fun name => task name input_data) model_names.
Proof. reflexivity. Qed.

Lemma collect_exit (completed : list (result (dict prediction)))
  (predictions : dict prediction) :
  exit_body (collect completed predictions) = first_failure completed.
Proof.
  revert predictions. induction completed as [|[d|e] rest IH]; intros acc; simpl.
  - reflexivity.
  - destruct (dict_mem "error" d); [reflexivity | apply IH].
  - reflexivity.
Qed.

Lemma first_failure_none (outcomes : list (result (dict prediction))) :
  first_failure outcomes = None <-> forall o, In o outcomes -> failure_body o = None.
Proof.
  induction outcomes as [|o rest IH]; simpl.
  - split; [intros _ o [] | reflexivity].
  - destruct (failure_body o) eqn:Eo.
    + split; [discriminate|]. intros H. rewrite <- Eo. apply H. left. reflexivity.
    + rewrite IH. split.
      * intros H o' [<- | Ho']; [exact Eo | apply H, Ho'].
      * intros H o' Ho'. apply H. right. exact Ho'.
Qed.

Lemma first_failure_some (outcomes : list (result (dict prediction))) (b : json) :
  first_failure outcomes = Some b -> exists o, In o outcomes /\ failure_body o = Some b.
Proof.
  induction outcomes as [|o rest IH]; simpl; [discriminate|].
  destruct (failure_body o) eqn:Eo.
  - intros H. injection H as <-. exists o. split; [left; reflexivity | exact Eo].
  - intros H. destruct (IH H) as (o' & Ho' & Hb). exists o'. split; [right|]; assumption.
Qed.

(** No task of the reading fails exactly when no future, in whatever order
    they complete, shows a failure. *)
Lemma reading_ok_iff (places : list nat) (input_data : json) :
  reading_ok input_data
  <-> first_failure (as_completed places (submit_all input_data)) = None.
Proof.
  rewrite first_failure_none, submit_all_tasks. unfold reading_ok. split.
  - intros H o Ho.
    apply (Permutation_in _ (as_completed_perm places _)) in Ho.
    apply in_map_iff in Ho. destruct Ho as (name & <- & Hn). apply H, Hn.
  - intros H name Hn. apply H.
    apply (Permutation_in _ (Permutation_sym (as_completed_perm places _))).
    apply (in_map (fun n => task n input_data)), Hn.
Qed.

Lemma reading_ok_dec (input_data : json) :
  reading_ok input_data
  \/ exists name, In name model_names /\ failure_body (task name input_data) <> None.
Proof.
  destruct (first_failure (submit_all input_data)) as [b|] eqn:Ef.
  - right. apply first_failure_some in Ef. destruct Ef as (o & Ho & Hb).
    rewrite submit_all_tasks in Ho. apply in_map_iff in Ho.
    destruct Ho as (name & <- & Hn). exists name. split; [exact Hn | congruence].
  - left. rewrite first_failure_none, submit_all_tasks in Ef.
    intros name Hn. apply Ef. apply (in_map (fun n => task n input_data)), Hn.
Qed.

Lemma collect_delivered (completed : list (result (dict prediction)))
  (predictions : dict prediction) :
  (forall o, In o completed ->
     exists k p, o = Return [(k, p)] /\ dict_mem "error" [(k, p)] = false) ->
  NoDup (map fst predictions ++ map fst (delivered completed)) ->
  collect completed predictions = Fallthrough (predictions ++ delivered completed).
Proof.
  revert predictions. induction completed as [|o rest IH]; intros acc H N; simpl.
  - rewrite app_nil_r. reflexivity.
  - destruct (H o (or_introl eq_refl)) as (k & p & -> & Hm). rewrite Hm.
    unfold dict_update. simpl in *.
    assert (Hfresh : ~ In k (map fst acc)).
    { intros Hin. apply NoDup_remove_2 in N. apply N. apply in_or_app. left. exact Hin. }
    rewrite (dict_set_fresh _ _ _ Hfresh), IH.
    + rewrite <- app_assoc. reflexivity.
    + intros o' Ho'. apply H. right. exact Ho'.
    + rewrite map_app. simpl. rewrite <- app_assoc. exact N.
Qed.

Lemma delivered_perm (l l' : list (result (dict prediction))) :
  Permutation l l' -> Permutation (delivered l) (delivered l').
Proof. intros P. unfold delivered. apply Permutation_flat_map, P. Qed.

Lemma prediction_keys_NoDup : NoDup (map (replace "_model" "") model_names).
Proof.
  vm_compute. repeat (constructor; [simpl; intuition discriminate|]). constructor.
Qed.

(** The futures of a reading whose tasks all deliver: in whatever order they
    complete, the loop runs to its end with every model's prediction under
    the model's key. *)
Lemma collect_reading (places : list nat) (input_data : json) :
  reading_ok input_data ->
  exists predictions,
    collect (as_completed places (submit_all input_data)) [] = Fallthrough predictions
    /\ predictions_of input_data predictions.
Proof.
  intros Hok.
  assert (Hall : forall name, In name model_names ->
            exists p, task name input_data = Return [(replace "_model" "" name, p)]).
  { intros name Hn. apply task_delivers, Hok, Hn. }
  assert (Hkeys : map fst (delivered (submit_all input_data))
                  = map (replace "_model" "") model_names).
  { rewrite submit_all_tasks. clear Hok.
    induction model_names as [|n ns IH]; [reflexivity|]. simpl.
    destruct (Hall n (or_introl eq_refl)) as (p & ->). simpl. f_equal.
    apply IH. intros name Hn. apply Hall. right. exact Hn. }
  pose proof (delivered_perm _ _ (as_completed_perm places (submit_all input_data)))
    as P.
  assert (N : NoDup (map fst (delivered (as_completed places (submit_all input_data))))).
  { apply (Permutation_NoDup (Permutation_sym (Permutation_map fst P))).
    rewrite Hkeys. apply prediction_keys_NoDup. }
  exists (delivered (as_completed places (submit_all input_data))).
  split.
  - rewrite collect_delivered; [reflexivity | | exact N].
    intros o Ho. apply (Permutation_in _ (as_completed_perm places _)) in Ho.
    rewrite submit_all_tasks in Ho. apply in_map_iff in Ho.
    destruct Ho as (name & <- & Hn). destruct (Hall name Hn) as (p & Hp).
    exists (replace "_model" "" name), p. split; [exact Hp|].
    unfold dict_mem. simpl.
    destruct (String.eqb_spec (replace "_model" "" name) "error") as [Heq|];
      [|reflexivity].
    exfalso. exact (prediction_key_not_error name Hn Heq).
  - intros name Hn. destruct (Hall name Hn) as (p & Hp). exists p.
    split; [exact Hp|]. apply In_dict_get; [exact N|].
    apply (Permutation_in _ (Permutation_sym P)).
    unfold delivered. apply in_flat_map.
    exists (task name input_data). split.
    + rewrite submit_all_tasks. apply (in_map (fun n => task n input_data)), Hn.
    + rewrite Hp. left. reflexivity.
Qed.

End FanOut.

(** ** The loop over the readings *)

Section Batch.
Context {E : Externals}.
Variable order : nat -> list nat.

Lemma fan_out_step (i : nat) (input_data : json) (rest : list json)
  (all_predictions : list (dict prediction)) :
  fan_out order i (input_data :: rest) all_predictions
  = match collect (as_completed (order i) (submit_all input_data)) [] with
    | Fallthrough predictions =>
        let (exit, later) :=
          fan_out order (S i) rest (all_predictions ++ [predictions]) in
        (exit, map (fun name => (i, name)) model_names ++ later)
    | EarlyReturn result => (EarlyReturn result, map (fun name => (i, name)) model_names)
    | Propagate e => (Propagate e, map (fun name => (i, name)) model_names)
    end.
Proof. reflexivity. Qed.

(** When no task of any reading fails, the loop runs through the batch: it
    submits every model for every reading and gathers the predictions of
    each reading. *)
Lemma fan_out_ok (batch : list json) (i : nat) (all_predictions : list (dict prediction)) :
  (forall r, In r batch -> reading_ok r) ->
  exists gathered,
    fan_out order i batch all_predictions
    = (Fallthrough (all_predictions ++ gathered), submitted_from i (List.length batch))
    /\ Forall2 predictions_of batch gathered.
Proof.
  revert i all_predictions. induction batch as [|r rest IH]; intros i acc H.
  - exists []. rewrite app_nil_r. split; [reflexivity | constructor].
  - destruct (collect_reading (order i) r (H r (or_introl eq_refl)))
      as (predictions & Hc & Hp).
    destruct (IH (S i) (acc ++ [predictions])) as (gathered & Hrun & Hall).
    { intros r' Hr'. apply H. right. exact Hr'. }
    exists (predictions :: gathered). rewrite fan_out_step, Hc, Hrun.
    rewrite <- app_assoc. split; [reflexivity | constructor; assumption].
Qed.

(** When a reading shows a failure and no reading before it does, the loop
    ends at that reading with the first failure its futures show, and what
    was submitted are the tasks of the readings up to it. *)
Lemma fan_out_fail (before : list json) (r : json) (after : list json) (i : nat)
  (all_predictions : list (dict prediction)) (b : json) :
  (forall r', In r' before -> reading_ok r') ->
  first_failure (as_completed (order (i + List.length before)) (submit_all r)) = Some b ->
  exists exit,
    fan_out order i (before ++ r :: after) all_predictions
    = (exit, submitted_from i (S (List.length before)))
    /\ exit_body exit = Some b.
Proof.
  revert i all_predictions. induction before as [|r0 before IH]; intros i acc H Hf.
  - cbn [List.length] in Hf. rewrite Nat.add_0_r in Hf. simpl app. rewrite fan_out_step.
    rewrite <- collect_exit with (predictions := []) in Hf. revert Hf.
    destruct (collect (as_completed (order i) (submit_all r)) []) as [p|d|e];
      intros Hf; [simpl in Hf; discriminate | |];
      (eexists; split; [reflexivity | exact Hf]).
  - destruct (collect_reading (order i) r0 (H r0 (or_introl eq_refl)))
      as (predictions & Hc & _).
    destruct (IH (S i) (acc ++ [predictions])) as (exit & Hrun & Hb).
    { intros r' Hr'. apply H. right. exact Hr'. }
    { replace (S i + List.length before) with (i + List.length (r0 :: before))
        by (simpl; lia). exact Hf. }
    exists exit. split; [|exact Hb].
    simpl app. rewrite fan_out_step, Hc, Hrun. reflexivity.
Qed.

(** A batch has a first reading with a failing task, or none. *)
Lemma first_failing_reading (batch : list json) :
  (forall r, In r batch -> reading_ok r)
  \/ exists before r after,
       batch = before ++ r :: after
       /\ (forall r', In r' before -> reading_ok r')
       /\ exists name, In name model_names /\ failure_body (task name r) <> None.
Proof.
  induction batch as [|r0 rest IH].
  - left. intros r [].
  - destruct (reading_ok_dec r0) as [Hok | Hbad].
    + destruct IH as [Hall | (before & r & after & -> & Hb & Hr)].
      * left. intros r [<- | Hr]; [exact Hok | apply Hall, Hr].
      * right. exists (r0 :: before), r, after. split; [reflexivity|].
        split; [|exact Hr]. intros r' [<- | Hr']; [exact Hok | apply Hb, Hr'].
    + right. exists [], r0, rest. split; [reflexivity|]. split; [intros r' [] | exact Hbad].
Qed.

(** The pipeline on a batch with a failing task: the answer is the failure
    of one task of the first failing reading, and nothing was submitted for
    the readings after it. *)
Lemma predict_from_models_fail (now : string) (before : list json) (r : json)
  (after : list json) :
  (forall r', In r' before -> reading_ok r') ->
  (exists name, In name model_names /\ failure_body (task name r) <> None) ->
  exists name message,
    In name model_names
    /\ failure_body (task name r) = Some (error_body message)
    /\ first_failure (as_completed (order (List.length before)) (submit_all r))
       = Some (error_body message)
    /\ answer_body (fst (predict_from_models order now (before ++ r :: after)))
       = error_body message
    /\ snd (predict_from_models order now (before ++ r :: after))
       = submissions_upto (List.length before).
Proof.
  intros Hb (name0 & Hn0 & Hbad).
  destruct (first_failure (as_completed (order (List.length before)) (submit_all r)))
    as [b|] eqn:Ef.
  2:{ exfalso. apply Hbad. apply (proj2 (reading_ok_iff _ r) Ef), Hn0. }
  pose proof (first_failure_some _ _ Ef) as (o & Ho & Hob).
  apply (Permutation_in _ (as_completed_perm _ _)) in Ho.
  rewrite submit_all_tasks in Ho. apply in_map_iff in Ho.
  destruct Ho as (name & <- & Hn).
  destruct (failure_body_shape _ _ _ Hob) as (message & ->).
  exists name, message. split; [exact Hn|]. split; [exact Hob|]. split; [reflexivity|].
  destruct (fan_out_fail before r after 0 [] _ Hb Ef) as (exit & Hrun & Hexit).
  unfold predict_from_models. rewrite Hrun.
  destruct exit as [a|d|e]; cbn [exit_body] in Hexit; [discriminate | |];
    (split; [cbn [fst answer_body]; congruence | reflexivity]).
Qed.

End Batch.

(** ** The pipeline and the handler *)

Section Handler.
Context {E : Externals}.

(** A batch of an accepted length goes to [predict_from_models]; the
    handler wraps what comes back. *)
Lemma predict_accepts (order : nat -> list nat) (now : string) (items : list json) :
  (1 <= len items <= 1800)%Z ->
  predict order now (JArr items)
  = (mkResponse (answer_body (fst (predict_from_models order now items)))
       (match fst (predict_from_models order now items) with
        | Return _ => 200
        | Raise _ => 500
        end)%Z,
     snd (predict_from_models order now items)).
Proof.
  intros [Hlo Hhi]. unfold predict.
  destruct (Z.ltb_spec 1800 (len items)); [lia|].
  destruct (Z.eqb_spec (len items) 0); [lia|].
  destruct (predict_from_models order now items) as [[result|e] submitted]; reflexivity.
Qed.

Lemma predict_from_models_ok (order : nat -> list nat) (now : string)
  (batch : list json) :
  (forall r, In r batch -> reading_ok r) ->
  exists gathered,
    Forall2 predictions_of batch gathered
    /\ predict_from_models order now batch
       = (aggregated_predictions <- aggregate_predictions gathered ;;
          modes <- calculate_modes batch ;;
          analysis_summary <- analyze_health now modes ;;
          Return (JObj [ ("predictions",
                           json_of_dict json_of_prediction aggregated_predictions);
                         ("modes", json_of_dict JFloat modes);
                         ("Analysis_summary", json_of_dict JStr analysis_summary) ]),
          submitted_from 0 (List.length batch)).
Proof.
  intros H. destruct (fan_out_ok order batch 0 [] H) as (gathered & Hrun & Hall).
  exists gathered. split; [exact Hall|].
  unfold predict_from_models. rewrite Hrun. reflexivity.
Qed.

(** The tasks of the first reading are submitted whatever follows. *)
Lemma predict_from_models_submits (order : nat -> list nat) (now : string)
  (r : json) (rest : list json) :
  exists later,
    snd (predict_from_models order now (r :: rest))
    = map (fun name => (0, name)) model_names ++ later.
Proof.
  unfold predict_from_models. rewrite fan_out_step.
  destruct (collect (as_completed (order 0) (submit_all r)) []) as [p|d|e].
  - destruct (fan_out order 1 rest ([] ++ [p])) as [exit later].
    exists later. destruct exit; reflexivity.
  - exists []. rewrite app_nil_r. reflexivity.
  - exists []. rewrite app_nil_r. reflexivity.
Qed.

(** The timestamp does not decide whether the analyzer returns. *)
Lemma analyze_health_now (now1 now2 : string) (modes : dict float) :
  match analyze_health now1 modes, analyze_health now2 modes with
  | Return _, Return _ => True
  | Raise e1, Raise e2 => e1 = e2
  | _, _ => False
  end.
Proof.
  unfold analyze_health.
  repeat match goal with
         | |- context [dict_subscript modes ?k] =>
             destruct (dict_subscript modes k); simpl; [|reflexivity]
         end.
  exact I.
Qed.

(** The body of every answer: the single field [error], or the three fields
    of a full result. *)
Lemma predict_body_shape (order : nat -> list nat) (now : string) (input : json) :
  (exists message, resp_body (fst (predict order now input)) = error_body message)
  \/ (exists p m a,
        resp_body (fst (predict order now input))
        = JObj [("predictions", p); ("modes", m); ("Analysis_summary", a)]).
Proof.
  destruct input as [| | | | |items|]; try (left; eexists; reflexivity).
  destruct (Z.ltb_spec 1800 (len items)) as [Hlong | Hshort].
  { left. unfold predict. destruct (Z.ltb_spec 1800 (len items)); [|lia].
    eexists. reflexivity. }
  destruct (Z.eqb_spec (len items) 0) as [Hzero | Hpos].
  { left. unfold predict. destruct (Z.ltb_spec 1800 (len items)); [lia|].
    rewrite Hzero. eexists. reflexivity. }
  assert (Hlen : (1 <= len items <= 1800)%Z) by (unfold len in *; lia).
  rewrite (predict_accepts order now items Hlen). cbn [fst resp_body].
  destruct (first_failing_reading items) as [Hok | (before & r & after & -> & Hb & Hr)].
  - destruct (predict_from_models_ok order now items Hok) as (gathered & _ & ->).
    cbn [fst].
    destruct (aggregate_predictions gathered) as [agg|e]; [|left; eexists; reflexivity].
    destruct (calculate_modes items) as [modes|e]; [|left; eexists; reflexivity].
    cbn [bind].
    destruct (analyze_health now modes) as [an|e]; [|left; eexists; reflexivity].
    right. do 3 eexists. reflexivity.
  - destruct (predict_from_models_fail order now before r after Hb Hr)
      as (name & message & _ & _ & _ & Hbody & _).
    left. exists message. exact Hbody.
Qed.

End Handler.

(** ** The claims on the pipeline *)

Section PipelineClaims.

(** C3.  The answer never holds an error next to a result: a body with the
    field [error] has none of [predictions], [modes], [Analysis_summary].
    And for every batch of an accepted length in which some task of some
    reading fails, whatever the order in which futures complete: the answer
    is exactly the error of one failed task of the first reading that has
    one (the first failure among its futures in completion order), and the
    tasks submitted are those of the readings up to that one, so no reading
    after it is processed. *)
Theorem C3_fail_fast {E : Externals} (order : nat -> list nat) (now : string)
  (input : json) :
  (has_key "error" (resp_body (fst (predict order now input))) = true ->
   has_key "predictions" (resp_body (fst (predict order now input))) = false
   /\ has_key "modes" (resp_body (fst (predict order now input))) = false
   /\ has_key "Analysis_summary" (resp_body (fst (predict order now input))) = false)
  /\ (forall batch,
        input = JArr batch ->
        (len batch <= 1800)%Z ->
        (exists input_data name,
           In input_data batch /\ In name model_names
           /\ failure_body (task name input_data) <> None) ->
        exists before r after name message,
          batch = before ++ r :: after
          /\ (forall r', In r' before -> reading_ok r')
          /\ In name model_names
          /\ failure_body (task name r) = Some (error_body message)
          /\ first_failure (as_completed (order (List.length before)) (submit_all r))
             = Some (error_body message)
          /\ resp_body (fst (predict order now input)) = JObj [("error", JStr message)]
          /\ snd (predict order now input) = submissions_upto (List.length before)).
Proof.
  split.
  - destruct (predict_body_shape order now input) as [(m & ->) | (p & m & a & ->)].
    + intros _. repeat split.
    + discriminate.
  - intros batch -> Hlen (bad & name0 & Hin & Hn0 & Hbad).
    destruct (first_failing_reading batch)
      as [Hok | (before & r & after & -> & Hb & Hr)].
    { exfalso. apply Hbad. apply (Hok bad Hin), Hn0. }
    destruct (predict_from_models_fail order now before r after Hb Hr)
      as (name & message & Hn & Hfail & Hfirst & Hbody & Htrace).
    exists before, r, after, name, message.
    assert (Hlen' : (1 <= len (before ++ r :: after) <= 1800)%Z).
    { split; [|exact Hlen]. unfold len. rewrite length_app. simpl. lia. }
    rewrite (predict_accepts order now _ Hlen'). cbn [fst snd resp_body].
    repeat split; assumption.
Qed.

(** A safe reading, a reading with a bad feature, a reading without the
    feature: the answer is the error of one task of the second reading, and
    only the first two readings have their tasks submitted. *)
Lemma C3_fail_fast_witness :
  exists before r after name message,
    [safe_reading; reading_with_bad_vibration_x; reading_without_vibration_x]
    = before ++ r :: after
    /\ (forall r', In r' before -> reading_ok (E := sample_externals) r')
    /\ In name model_names
    /\ failure_body (task (E := sample_externals) name r) = Some (error_body message)
    /\ first_failure
         (as_completed (reversed (List.length before))
            (submit_all (E := sample_externals) r))
       = Some (error_body message)
    /\ resp_body
         (fst (predict (E := sample_externals) reversed "T"
                 (JArr [safe_reading; reading_with_bad_vibration_x;
                        reading_without_vibration_x])))
       = JObj [("error", JStr message)]
    /\ snd (predict (E := sample_externals) reversed "T"
              (JArr [safe_reading; reading_with_bad_vibration_x;
                     reading_without_vibration_x]))
       = submissions_upto (List.length before).
Proof.
  apply (proj2 (C3_fail_fast (E := sample_externals) reversed "T"
                  (JArr [safe_reading; reading_with_bad_vibration_x;
                         reading_without_vibration_x]))).
  - reflexivity.
  - vm_compute. discriminate.
  - exists reading_with_bad_vibration_x, "vibration_model".
    split; [simpl; tauto|]. split; [simpl; tauto|]. vm_compute. discriminate.
Defined.

(** That run, evaluated: the second reading's failure as the
    reversed completion order shows it first, and ten submissions. *)
Example fail_fast_run :
  predict (E := sample_externals) reversed "T"
    (JArr [safe_reading; reading_with_bad_vibration_x; reading_without_vibration_x])
  = (mkResponse
       (error_body
          "Invalid input for ultra_sound_model: could not convert string to float: 'abc'")
       200,
     submissions_upto 1).
Proof. reflexivity. Qed.

(** C4.  The handler answers with status 400, a shape error, exactly when
    the input is no list, is empty, or holds more than 1800 readings; then
    no task is submitted.  Every list of 1 to 1800 readings goes to the
    prediction stage: the tasks of its first reading are submitted and the
    answer is made of what [predict_from_models] returns or raises. *)
Theorem C4_validation {E : Externals} (order : nat -> list nat) (now : string)
  (input : json) :
  (resp_status (fst (predict order now input)) = 400%Z
   <-> (forall items, input <> JArr items)
       \/ input = JArr []
       \/ exists items, input = JArr items /\ (1800 < len items)%Z)
  /\ (resp_status (fst (predict order now input)) = 400%Z ->
      snd (predict order now input) = []
      /\ exists message, resp_body (fst (predict order now input)) = error_body message)
  /\ (forall items,
        input = JArr items ->
        (1 <= len items <= 1800)%Z ->
        predict order now input
        = (mkResponse (answer_body (fst (predict_from_models order now items)))
             (match fst (predict_from_models order now items) with
              | Return _ => 200
              | Raise _ => 500
              end)%Z,
           snd (predict_from_models order now items))
        /\ exists later,
             snd (predict order now input)
             = map (fun name => (0, name)) model_names ++ later).
Proof.
  assert (Hacc : forall items, input = JArr items -> (1 <= len items <= 1800)%Z ->
            resp_status (fst (predict order now input)) <> 400%Z).
  { intros items -> Hlen. rewrite (predict_accepts order now items Hlen). simpl.
    destruct (fst (predict_from_models order now items)); discriminate. }
  assert (Hrej : (forall items, input <> JArr items)
                 \/ input = JArr []
                 \/ (exists items, input = JArr items /\ (1800 < len items)%Z) ->
            predict order now input = (mkResponse (resp_body (fst (predict order now input))) 400, [])
            /\ exists message,
                 resp_body (fst (predict order now input)) = error_body message).
  { intros [Hno | [-> | (items & -> & Hlong)]].
    - destruct input; try (split; [reflexivity | eexists; reflexivity]).
      exfalso. apply (Hno items). reflexivity.
    - split; [reflexivity | eexists; reflexivity].
    - unfold predict. destruct (Z.ltb_spec 1800 (len items)); [|lia].
      split; [reflexivity | eexists; reflexivity]. }
  assert (Hcases : ((forall items, input <> JArr items)
                    \/ input = JArr []
                    \/ exists items, input = JArr items /\ (1800 < len items)%Z)
                   \/ exists items, input = JArr items /\ (1 <= len items <= 1800)%Z).
  { destruct input as [| | | | |items|];
      try (left; left; intros items; discriminate).
    destruct items as [|r rest]; [left; right; left; reflexivity|].
    destruct (Z.ltb_spec 1800 (len (r :: rest))) as [Hlong | Hshort].
    - left. right. right. exists (r :: rest). split; [reflexivity | exact Hlong].
    - right. exists (r :: rest). split; [reflexivity|]. split; [|exact Hshort].
      unfold len. simpl List.length. lia. }
  split; [|split].
  - split.
    + intros H400. destruct Hcases as [Hbad | (items & Hi & Hlen)]; [exact Hbad|].
      exfalso. exact (Hacc items Hi Hlen H400).
    + intros Hbad. destruct (Hrej Hbad) as [Heq _]. rewrite Heq. reflexivity.
  - intros H400. destruct Hcases as [Hbad | (items & Hi & Hlen)].
    + destruct (Hrej Hbad) as [Heq Hmsg]. split; [rewrite Heq; reflexivity | exact Hmsg].
    + exfalso. exact (Hacc items Hi Hlen H400).
  - intros items -> Hlen. rewrite (predict_accepts order now items Hlen).
    split; [reflexivity|]. cbn [snd].
    destruct items as [|r rest]; [unfold len in Hlen; simpl in Hlen; lia|].
    apply predict_from_models_submits.
Qed.

(** The bounds: 1800 readings pass the validation, 1801 and none do not. *)
Example validation_bounds :
  resp_status (fst (predict (E := sample_externals) in_order "T"
                      (JArr (repeat safe_reading 1800)))) <> 400%Z
  /\ predict (E := sample_externals) in_order "T" (JArr (repeat safe_reading 1801))
     = (mkResponse (error_body "Input array exceeds maximum length of 1800") 400, [])
  /\ predict (E := sample_externals) in_order "T" (JArr [])
     = (mkResponse (error_body "Input array cannot be empty") 400, [])
  /\ predict (E := sample_externals) in_order "T" (JObj [])
     = (mkResponse (error_body "Input must be an array") 400, []).
Proof.
  split; [|repeat split; vm_compute; reflexivity].
  rewrite predict_accepts.
  - cbn [fst resp_status].
    destruct (fst (predict_from_models in_order "T" (repeat safe_reading 1800)));
      discriminate.
  - unfold len. rewrite repeat_length. vm_compute. split; discriminate.
Qed.

End PipelineClaims.

(** ** Determinism *)

Section Determinism.
Context {E : Externals}.

Lemma for_each_ext {A S} (f g : S -> A -> result S) (l : list A) (s : S) :
  (forall a s', In a l -> f s' a = g s' a) -> for_each f l s = for_each g l s.
Proof.
  revert s. induction l as [|a l IH]; intros s H; simpl; [reflexivity|].
  rewrite (H a s (or_introl eq_refl)). destruct (g s a) as [s'|e]; [|reflexivity].
  simpl. apply IH. intros b s'' Hb. apply H. right. exact Hb.
Qed.

(** Two gatherings of the same batch hold the same series for every model,
    in whatever order each reading's predictions were put in their dict. *)
Lemma series_agree (batch : list json) (g1 g2 : list (dict prediction))
  (name : string) :
  Forall2 predictions_of batch g1 ->
  Forall2 predictions_of batch g2 ->
  In name model_names ->
  model_series (replace "_model" "" name) g1
  = model_series (replace "_model" "" name) g2.
Proof.
  intros H1. revert g2. unfold model_series.
  induction H1 as [|r d1 batch g1 Hd1 H1 IH]; intros g2 H2 Hn;
    inversion H2 as [|? d2 ? g2' Hd2 H2']; subst; [reflexivity|].
  simpl. destruct (Hd1 name Hn) as (p1 & Ht1 & Hg1).
  destruct (Hd2 name Hn) as (p2 & Ht2 & Hg2).
  rewrite Ht1 in Ht2. injection Ht2 as <-.
  rewrite (dict_subscript_some _ _ _ Hg1), (dict_subscript_some _ _ _ Hg2).
  simpl. rewrite (IH g2' H2' Hn). reflexivity.
Qed.

Lemma aggregate_agree (batch : list json) (g1 g2 : list (dict prediction)) :
  Forall2 predictions_of batch g1 ->
  Forall2 predictions_of batch g2 ->
  aggregate_predictions g1 = aggregate_predictions g2.
Proof.
  intros H1 H2. unfold aggregate_predictions. apply for_each_ext.
  intros name acc Hn. cbv zeta. rewrite (series_agree batch g1 g2 name H1 H2 Hn).
  reflexivity.
Qed.

(** C9.  For a fixed batch and fixed models, two runs of the pipeline, with
    whatever completion orders of the futures and whatever clock readings,
    answer with the same [predictions] and the same [modes] (both absent
    when the run fails). *)
Theorem C9_deterministic_predictions_and_modes (order1 order2 : nat -> list nat)
  (now1 now2 : string) (input : json) :
  field "predictions" (resp_body (fst (predict order1 now1 input)))
  = field "predictions" (resp_body (fst (predict order2 now2 input)))
  /\ field "modes" (resp_body (fst (predict order1 now1 input)))
     = field "modes" (resp_body (fst (predict order2 now2 input))).
Proof.
  destruct input as [| | | | |items|]; try (split; reflexivity).
  destruct (Z.ltb_spec 1800 (len items)) as [Hlong | Hshort].
  { unfold predict. destruct (Z.ltb_spec 1800 (len items)); [|lia].
    split; reflexivity. }
  destruct (Z.eqb_spec (len items) 0) as [Hzero | Hpos].
  { unfold predict. destruct (Z.ltb_spec 1800 (len items)); [lia|].
    rewrite Hzero. split; reflexivity. }
  assert (Hlen : (1 <= len items <= 1800)%Z) by (unfold len in *; lia).
  rewrite (predict_accepts order1 now1 items Hlen),
    (predict_accepts order2 now2 items Hlen).
  cbn [fst resp_body].
  destruct (first_failing_reading items) as [Hok | (before & r & after & -> & Hb & Hr)].
  - destruct (predict_from_models_ok order1 now1 items Hok) as (g1 & Hg1 & ->).
    destruct (predict_from_models_ok order2 now2 items Hok) as (g2 & Hg2 & ->).
    cbn [fst]. rewrite (aggregate_agree items g1 g2 Hg1 Hg2).
    destruct (aggregate_predictions g2) as [agg|e]; [|split; reflexivity].
    destruct (calculate_modes items) as [modes|e]; [|split; reflexivity].
    cbn [bind]. pose proof (analyze_health_now now1 now2 modes) as Hnow.
    destruct (analyze_health now1 modes) as [a1|e1];
      destruct (analyze_health now2 modes) as [a2|e2];
      try contradiction; split; reflexivity.
  - destruct (predict_from_models_fail order1 now1 before r after Hb Hr)
      as (n1 & m1 & _ & _ & _ & -> & _).
    destruct (predict_from_models_fail order2 now2 before r after Hb Hr)
      as (n2 & m2 & _ & _ & _ & -> & _).
    split; reflexivity.
Qed.

(** Two runs on one safe reading, futures completing in order and in
    reverse, at different times: the predictions and the modes are there and
    are the same. *)
Example deterministic_run :
  field "predictions"
    (resp_body (fst (predict (E := sample_externals) in_order "T1" (JArr [safe_reading]))))
  = Some (JObj [ ("temperature", JFloat 60); ("vibration", JStr "normal");
                 ("magnetic_flux", JStr "normal"); ("audible_sound", JStr "normal");
                 ("ultra_sound", JStr "normal") ])
  /\ field "predictions"
       (resp_body (fst (predict (E := sample_externals) reversed "T2"
                          (JArr [safe_reading]))))
     = Some (JObj [ ("temperature", JFloat 60); ("vibration", JStr "normal");
                    ("magnetic_flux", JStr "normal"); ("audible_sound", JStr "normal");
                    ("ultra_sound", JStr "normal") ]).
Proof. split; vm_compute; reflexivity. Qed.

End Determinism.

(** ** The claim on the single-reading predictor *)

Section PredictorClaim.

(** C1.  On the code, a reading without [vibration_x] makes the predictor of
    the vibration model raise [KeyError], whatever the model and the other
    fields: the lookup's exception is not among the caught classes, so no
    error dict is returned.  For a batch of two such readings the message
    that reaches the caller names the key, not the model.  A [vibration_x]
    that is no number gives the error dict that names the model. *)
Theorem C1_missing_feature_escapes :
  (forall (E : Externals) (model : predictor) (fields : dict json),
     dict_get "vibration_x" fields = None ->
     predict_single_model "vibration_model" model (JObj fields)
     = Raise (mkExn KeyError "'vibration_x'"))
  /\ predict_single_model (E := sample_externals) "vibration_model"
       (load_model (Externals := sample_externals) "vibration_model")
       reading_without_vibration_x
     = Raise (mkExn KeyError "'vibration_x'")
  /\ predict (E := sample_externals) in_order "T"
       (JArr [reading_without_vibration_x; reading_without_vibration_x])
     = (mkResponse (JObj [("error", JStr "'vibration_x'")]) 500, submissions_upto 0)
  /\ predict_single_model (E := sample_externals) "vibration_model"
       (load_model (Externals := sample_externals) "vibration_model")
       reading_with_bad_vibration_x
     = Return [("error",
                PCat "Invalid input for vibration_model: could not convert string to float: 'abc'")].
Proof.
  split; [|repeat split].
  intros E model fields Hmiss.
  apply (missing_feature_raises "vibration_model" model fields []
           ["vibration_y"; "vibration_z"] "vibration_x");
    [reflexivity | intros f [] | exact Hmiss].
Qed.

End PredictorClaim.

(* ================================================================== *)
(** * Further properties of the code *)

(** ** The health rules, taken together *)

Section HealthRules.
#[local] Open Scope float_scope.

Lemma float_lt_le_trans (a b c : float) :
  (a <? b) = true -> (b <=? c) = true -> (a <? c) = true.
Proof.
  rewrite !ltb_spec, leb_spec. unfold SFltb, SFleb. intros H1 H2.
  destruct (SFcompare (Prim2SF a) (Prim2SF b)) as [c1|] eqn:E1; [|discriminate].
  destruct (SFcompare (Prim2SF b) (Prim2SF c)) as [c2|] eqn:E2; [|discriminate].
  assert (c1 = Lt) by (destruct c1; congruence). subst c1.
  assert (N2 : c2 <> Gt) by (destruct c2; congruence).
  destruct (SFcompare_le_trans _ _ _ _ _ E1 ltac:(discriminate) E2 N2)
    as (c3 & -> & N3 & H3).
  destruct c3; [destruct (H3 eq_refl); discriminate | reflexivity | congruence].
Qed.

Lemma float_le_lt_trans (a b c : float) :
  (a <=? b) = true -> (b <? c) = true -> (a <? c) = true.
Proof.
  rewrite !ltb_spec, leb_spec. unfold SFltb, SFleb. intros H1 H2.
  destruct (SFcompare (Prim2SF a) (Prim2SF b)) as [c1|] eqn:E1; [|discriminate].
  destruct (SFcompare (Prim2SF b) (Prim2SF c)) as [c2|] eqn:E2; [|discriminate].
  assert (c2 = Lt) by (destruct c2; congruence). subst c2.
  assert (N1 : c1 <> Gt) by (destruct c1; congruence).
  destruct (SFcompare_le_trans _ _ _ _ _ E1 N1 E2 ltac:(discriminate))
    as (c3 & -> & N3 & H3).
  destruct c3; [destruct (H3 eq_refl); discriminate | reflexivity | congruence].
Qed.

(** What is below a bound is a number. *)
Lemma float_ltb_num (a b : float) : (a <? b) = true -> is_num a.
Proof.
  rewrite ltb_spec, is_num_spec. unfold SFltb. intros H N. rewrite N in H.
  destruct (Prim2SF b); discriminate.
Qed.

(** X1.
    The machine condition is Repair exactly when one of the two analyses
    reports a fault of its upper tiers: a significant or critical
    overheating, or a misalignment, looseness or bearing fault.  This holds
    for every pair of floats, nan included. *)
Theorem repair_iff_upper_tier (temperature vibration : float) :
  evaluate_machine_condition temperature vibration = "Repair Condition"
  <-> (detect_temperature_anomaly temperature
       = "Significant Overheating - Possible Misalignment or Bearing Wear"
       \/ detect_temperature_anomaly temperature
          = "Critical Overheating - Immediate Repair Needed")
      \/ (detect_vibration_anomaly vibration = "Misalignment Fault"
          \/ detect_vibration_anomaly vibration = "Looseness Fault"
          \/ detect_vibration_anomaly vibration = "Bearing Fault or Gear Mesh Fault").
Proof.
  assert (Ht : (temperature <? 100) = true ->
               (temperature <? 80) = true
               \/ ((temperature <? 80) = false /\ (80 <=? temperature) = true)).
  { intros H. destruct (temperature <? 80) eqn:L; [left; reflexivity|].
    right. split; [reflexivity|].
    apply float_ltb_false_leb; [exact (float_ltb_num _ _ H) | reflexivity | exact L]. }
  assert (Ht' : (temperature <? 100) = false -> (temperature <? 80) = false).
  { intros H. destruct (temperature <? 80) eqn:L; [|reflexivity].
    rewrite (float_lt_le_trans temperature 80 100 L eq_refl) in H. discriminate. }
  assert (Hv : (vibration <? 2.8) = true ->
               (vibration <? 1.8) = true
               \/ ((vibration <? 1.8) = false /\ (1.8 <=? vibration) = true)).
  { intros H. destruct (vibration <? 1.8) eqn:L; [left; reflexivity|].
    right. split; [reflexivity|].
    apply float_ltb_false_leb; [exact (float_ltb_num _ _ H) | reflexivity | exact L]. }
  assert (Hv' : (vibration <? 2.8) = false -> (vibration <? 1.8) = false).
  { intros H. destruct (vibration <? 1.8) eqn:L; [|reflexivity].
    rewrite (float_lt_le_trans vibration 1.8 2.8 L eq_refl) in H. discriminate. }
  unfold evaluate_machine_condition, detect_temperature_anomaly,
    detect_vibration_anomaly.
  destruct (temperature <? 100) eqn:T100; destruct (vibration <? 2.8) eqn:V28.
  - destruct (Ht eq_refl) as [-> | [-> ->]]; destruct (Hv eq_refl) as [-> | [-> ->]];
      simpl; split; intros H; try discriminate;
      destruct H as [[H | H] | [H | [H | H]]]; discriminate.
  - rewrite (Hv' eq_refl), !andb_false_r. split; [|reflexivity]. intros _. right.
    destruct ((2.8 <=? vibration) && (vibration <? 4.5));
      [left; reflexivity|].
    destruct ((4.5 <=? vibration) && (vibration <? 7.1)); tauto.
  - rewrite (Ht' eq_refl). simpl. split; [|reflexivity]. intros _. left.
    rewrite andb_false_r.
    destruct ((100 <=? temperature) && (temperature <? 120)); tauto.
  - rewrite (Ht' eq_refl). simpl. split; [|reflexivity]. intros _. left.
    rewrite andb_false_r.
    destruct ((100 <=? temperature) && (temperature <? 120)); tauto.
Qed.

(** X2.
    A machine that is no hotter and vibrates no more is in no worse a
    condition. *)
Theorem condition_monotone (t t' v v' : float) :
  (t <=? t') = true ->
  (v <=? v') = true ->
  severity (evaluate_machine_condition t v)
  <= severity (evaluate_machine_condition t' v').
Proof.
  intros Ht Hv. unfold evaluate_machine_condition.
  destruct (t' <? 80) eqn:T80'.
  - rewrite (float_le_lt_trans t t' 80 Ht T80').
    destruct (v' <? 1.8) eqn:V18'.
    + rewrite (float_le_lt_trans v v' 1.8 Hv V18'). simpl. apply Nat.le_refl.
    + rewrite (float_le_lt_trans t t' 100 Ht (float_lt_le_trans t' 80 100 T80' eq_refl)).
      rewrite (float_lt_le_trans t' 80 100 T80' eq_refl).
      destruct (v' <? 2.8) eqn:V28'.
      * rewrite (float_le_lt_trans v v' 2.8 Hv V28').
        destruct (v <? 1.8); simpl; repeat constructor.
      * destruct (v <? 1.8); [simpl; repeat constructor|].
        destruct (v <? 2.8); simpl; repeat constructor.
  - simpl. destruct (t' <? 100) eqn:T100'; destruct (v' <? 2.8) eqn:V28'; simpl.
    + rewrite (float_le_lt_trans t t' 100 Ht T100'),
        (float_le_lt_trans v v' 2.8 Hv V28').
      destruct ((t <? 80) && (v <? 1.8)); simpl; repeat constructor.
    + destruct ((t <? 80) && (v <? 1.8)); [simpl; repeat constructor|].
      destruct ((t <? 100) && (v <? 2.8)); simpl; repeat constructor.
    + destruct ((t <? 80) && (v <? 1.8)); [simpl; repeat constructor|].
      destruct ((t <? 100) && (v <? 2.8)); simpl; repeat constructor.
    + destruct ((t <? 80) && (v <? 1.8)); [simpl; repeat constructor|].
      destruct ((t <? 100) && (v <? 2.8)); simpl; repeat constructor.
Qed.

Lemma condition_monotone_witness :
  severity (evaluate_machine_condition 70 1) <= severity (evaluate_machine_condition 90 1)
  /\ severity (evaluate_machine_condition 90 1) <= severity (evaluate_machine_condition 90 3).
Proof.
  split.
  - apply (condition_monotone 70 90 1 1); reflexivity.
  - apply (condition_monotone 90 90 1 3); reflexivity.
Defined.

(** X3.
    The report depends on the five temperature and vibration modes only:
    the modes of the magnetic flux and of the sounds never enter it. *)
Theorem analyze_health_frame (now : string) (modes modes' : dict float) :
  (forall key,
     In key ["temperature_one"; "temperature_two";
             "vibration_x"; "vibration_y"; "vibration_z"] ->
     dict_get key modes = dict_get key modes') ->
  analyze_health now modes = analyze_health now modes'.
Proof.
  intros H. unfold analyze_health, dict_subscript.
  rewrite (H "temperature_one"), (H "temperature_two"), (H "vibration_x"),
    (H "vibration_y"), (H "vibration_z") by (simpl; tauto).
  reflexivity.
Qed.

Lemma analyze_health_frame_witness :
  analyze_health "T" sample_modes
  = analyze_health "T"
      (("magnetic_flux_x", 9%float) :: sample_modes ++ [("audible_sound", 100%float)]).
Proof.
  apply analyze_health_frame. intros key Hk. simpl in Hk.
  repeat (destruct Hk as [<- | Hk]; [reflexivity|]). destruct Hk.
Defined.

End HealthRules.

(** ** The outcomes of the single-reading predictor *)

Section PredictorOutcomes.
Context {E : Externals}.

Lemma comprehension_returns {A B} (f : A -> result B) (l : list A) :
  (forall a, In a l -> exists b, f a = Return b) ->
  exists bs, comprehension f l = Return bs.
Proof.
  induction l as [|a l IH]; intros H; simpl; [eexists; reflexivity|].
  destruct (H a (or_introl eq_refl)) as [b ->].
  destruct IH as [bs ->]; [intros a' Ha'; apply H; right; exact Ha'|].
  eexists. reflexivity.
Qed.

(** X4.
    Whatever the model name, the model and the reading: what the predictor
    returns is a dict of one entry, either a prediction under the model's
    key, which is never the key [error], or the message under [error] that
    names the model; and what it raises is never a [ValueError] or a
    [TypeError]. *)
Theorem predictor_outcomes (model_name : string) (model : predictor)
  (input_data : json) :
  match predict_single_model model_name model input_data with
  | Return d =>
      (exists p, d = [(replace "_model" "" model_name, p)]
                 /\ replace "_model" "" model_name <> "error")
      \/ (exists detail,
            d = [("error", PCat ("Invalid input for " ++ model_name ++ ": " ++ detail))])
  | Raise e => exn_cls e <> ValueError /\ exn_cls e <> TypeError
  end.
Proof.
  destruct (predict_single_model model_name model input_data) as [d|e] eqn:Ep.
  - destruct (predict_single_model_returns _ _ _ _ Ep) as [(p & -> & Hm) | (m & -> & _)].
    + left. exists p. split; [reflexivity|]. intros Heq. rewrite Heq in Hm.
      discriminate.
    + right. exists m. reflexivity.
  - revert Ep. unfold predict_single_model, dict_subscript.
    destruct (dict_get model_name feature_sets) as [features|]; simpl.
    + destruct (comprehension (fun feature => reading_value input_data feature) features)
        as [X|e0]; simpl.
      * destruct (model X) as [raw|e0]; simpl; [discriminate|].
        destruct (exn_cls e0) eqn:Ec; try discriminate;
          intros H; injection H as <-; rewrite Ec; split; discriminate.
      * destruct (exn_cls e0) eqn:Ec; try discriminate;
          intros H; injection H as <-; rewrite Ec; split; discriminate.
    + intros H. injection H as <-. split; discriminate.
Qed.

(** The first element on which a comprehension raises. *)
Lemma comprehension_raise_first {A B} (f : A -> result B) (l : list A) (e : exn) :
  comprehension f l = Raise e ->
  exists before a after,
    l = before ++ a :: after
    /\ (forall a', In a' before -> exists b, f a' = Return b)
    /\ f a = Raise e.
Proof.
  induction l as [|a l IH]; simpl; [discriminate|].
  destruct (f a) as [b|e'] eqn:Ea; simpl.
  - destruct (comprehension f l) as [bs|e'']; simpl; [discriminate|].
    intros H. injection H as <-.
    destruct (IH eq_refl) as (before & a0 & after & -> & Hb & Ha0).
    exists (a :: before), a0, after. split; [reflexivity|]. split; [|exact Ha0].
    intros a' [<- | Hin]; [exists b; exact Ea | apply Hb, Hin].
  - intros H. injection H as <-. exists [], a, l.
    split; [reflexivity|]. split; [intros a' [] | exact Ea].
Qed.

(** X5.
    A reading that carries every feature of the model, none of them an
    integer, and at least one that [float] does not accept (a string that
    is no number, null, a list, an object): the features are read in the
    order of the model's feature list; at the first one that [float] does
    not accept, a [ValueError] or [TypeError] is raised, and the predictor
    returns the error dict that names the model and carries the message of
    that exception. *)
Theorem unparseable_feature_names_model (model_name : string) (model : predictor)
  (features : list string) (fields : dict json) :
  dict_get model_name feature_sets = Some features ->
  (forall f, In f features ->
     exists v, dict_get f fields = Some v /\ forall z, v <> JInt z) ->
  (exists f, In f features /\ forall x, reading_value (JObj fields) f <> Return x) ->
  exists before f after e,
    features = before ++ f :: after
    /\ (forall g, In g before -> exists x, reading_value (JObj fields) g = Return x)
    /\ reading_value (JObj fields) f = Raise e
    /\ (exn_cls e = ValueError \/ exn_cls e = TypeError)
    /\ predict_single_model model_name model (JObj fields)
       = Return [("error",
                  PCat ("Invalid input for " ++ model_name ++ ": " ++ exn_str e))].
Proof.
  intros Hf Hpresent (f0 & Hin0 & Hbad).
  destruct (comprehension (fun feature => reading_value (JObj fields) feature) features)
    as [X|e] eqn:Ec.
  { exfalso. apply comprehension_Forall2 in Ec.
    clear - Ec Hin0 Hbad. induction Ec as [|f x fs xs Hfx Ec IH]; [destruct Hin0|].
    destruct Hin0 as [<- | Hin0]; [exact (Hbad x Hfx) | exact (IH Hin0)]. }
  destruct (comprehension_raise_first _ _ _ Ec) as (before & f & after & Hsplit & Hb & He).
  assert (Hin : In f features) by (rewrite Hsplit; apply in_elt).
  destruct (Hpresent f Hin) as (v & Hv & Hnoint).
  assert (Hcls : exn_cls e = ValueError \/ exn_cls e = TypeError).
  { unfold reading_value in He. simpl in He. rewrite (dict_subscript_some _ _ _ Hv) in He.
    simpl in He. destruct (py_float_rejects v e He) as [(z & -> & _) | H]; [|exact H].
    exfalso. exact (Hnoint z eq_refl). }
  exists before, f, after, e. split; [exact Hsplit|]. split; [exact Hb|].
  split; [exact He|]. split; [exact Hcls|].
  unfold predict_single_model. rewrite (dict_subscript_some _ _ _ Hf). simpl.
  rewrite Ec. simpl. destruct Hcls as [-> | ->]; reflexivity.
Qed.

(** A reading that is no JSON object (null, a boolean, a number, a string,
    a list): for each of the five models the predictor returns the error
    dict that names the model. *)
Lemma non_object_task (model_name : string) (model : predictor)
  (input_data : json) :
  In model_name model_names ->
  (forall fields, input_data <> JObj fields) ->
  exists detail,
    predict_single_model model_name model input_data
    = Return [("error", PCat ("Invalid input for " ++ model_name ++ ": " ++ detail))].
Proof.
  intros Hn Hno. simpl in Hn.
  destruct input_data as [|b|z|x|s|l|fields];
    try solve [repeat (destruct Hn as [<- | Hn]; [eexists; reflexivity|]); destruct Hn].
  exfalso. exact (Hno fields eq_refl).
Qed.

End PredictorOutcomes.

(** A reading of the audible-sound model whose [vibration_y] is null and
    whose [audible_sound] is no number: the message is the one of the
    [TypeError] on [vibration_y], the first of the two. *)
Lemma unparseable_feature_names_model_witness :
  predict_single_model (E := sample_externals) "audible_sound_model"
    (sample_model "audible_sound_model")
    (JObj [ ("vibration_x", JFloat 0.5); ("vibration_y", JNull);
            ("vibration_z", JFloat 0.5); ("audible_sound", JStr "loud") ])
  = Return [("error",
             PCat ("Invalid input for audible_sound_model: "
                   ++ "float() argument must be a string or a real number, "
                   ++ "not 'NoneType'"))].
Proof.
  destruct (unparseable_feature_names_model (E := sample_externals)
              "audible_sound_model" (sample_model "audible_sound_model")
              ["vibration_x"; "vibration_y"; "vibration_z"; "audible_sound"]
              [ ("vibration_x", JFloat 0.5); ("vibration_y", JNull);
                ("vibration_z", JFloat 0.5); ("audible_sound", JStr "loud") ])
    as (before & f & after & e & Hsplit & Hb & He & _ & Hrun).
  - reflexivity.
  - intros f Hf. simpl in Hf.
    repeat (destruct Hf as [<- | Hf];
            [eexists; split; [reflexivity | intros z; discriminate]|]).
    destruct Hf.
  - exists "vibration_y". split; [simpl; tauto|]. intros x. discriminate.
  - rewrite Hrun. destruct before as [|a [|b before]]; simpl in Hsplit.
    + injection Hsplit as <- _. vm_compute in He. discriminate.
    + injection Hsplit as _ <- _. vm_compute in He. injection He as <-. reflexivity.
    + injection Hsplit as _ <- _.
      destruct (Hb "vibration_y") as [x Hx]; [simpl; tauto|].
      vm_compute in Hx. discriminate.
Defined.

(** ** The answers of the handler *)

Section Answers.
Context {E : Externals}.

Lemma first_failed_failure (outcomes : list (result (dict prediction))) :
  first_failure outcomes = option_map (fun o => answer_body
      (match o with
       | Return d => Return (json_of_dict json_of_prediction d)
       | Raise e => Raise e
       end)) (first_failed outcomes).
Proof.
  induction outcomes as [|o rest IH]; simpl; [reflexivity|].
  destruct o as [d|e]; simpl.
  - destruct (dict_mem "error" d); [reflexivity | exact IH].
  - reflexivity.
Qed.

Lemma first_failed_In (outcomes : list (result (dict prediction)))
  (o : result (dict prediction)) :
  first_failed outcomes = Some o -> In o outcomes /\ failure_body o <> None.
Proof.
  induction outcomes as [|o' rest IH]; simpl; [discriminate|].
  destruct (failure_body o') eqn:Ef.
  - intros H. injection H as <-. split; [left; reflexivity | congruence].
  - intros H. destruct (IH H) as [Hin Hf]. split; [right|]; assumption.
Qed.

Lemma collect_first_failed (completed : list (result (dict prediction)))
  (predictions : dict prediction) (o : result (dict prediction)) :
  first_failed completed = Some o ->
  collect completed predictions
  = match o with
    | Return d => EarlyReturn d
    | Raise e => Propagate e
    end.
Proof.
  revert predictions. induction completed as [|[d|e] rest IH]; intros acc; simpl.
  - discriminate.
  - destruct (dict_mem "error" d); [|apply IH].
    intros H. injection H as <-. reflexivity.
  - intros H. injection H as <-. reflexivity.
Qed.

(** The loop at the first reading that shows a failure: it ends there with
    the first failed outcome in completion order, and what follows the
    reading plays no part. *)
Lemma fan_out_stops (order : nat -> list nat) (before : list json) (r : json)
  (after : list json) (i : nat) (all_predictions : list (dict prediction))
  (o : result (dict prediction)) :
  (forall r', In r' before -> reading_ok r') ->
  first_failed (as_completed (order (i + List.length before)) (submit_all r)) = Some o ->
  fan_out order i (before ++ r :: after) all_predictions
  = (match o with
     | Return d => EarlyReturn d
     | Raise e => Propagate e
     end,
     submitted_from i (S (List.length before))).
Proof.
  revert i all_predictions. induction before as [|r0 before IH]; intros i acc H Hf.
  - cbn [List.length] in Hf. rewrite Nat.add_0_r in Hf. simpl app.
    rewrite fan_out_step, (collect_first_failed _ [] o Hf).
    destruct o; reflexivity.
  - destruct (collect_reading (order i) r0 (H r0 (or_introl eq_refl)))
      as (predictions & Hc & _).
    simpl app. rewrite fan_out_step, Hc.
    rewrite (IH (S i) (acc ++ [predictions])).
    + reflexivity.
    + intros r' Hr'. apply H. right. exact Hr'.
    + replace (S i + List.length before) with (i + List.length (r0 :: before))
        by (simpl; lia). exact Hf.
Qed.

Lemma predict_at_failure (order : nat -> list nat) (now : string)
  (before : list json) (r : json) (after : list json) (o : result (dict prediction)) :
  (len (before ++ r :: after) <= 1800)%Z ->
  (forall r', In r' before -> reading_ok r') ->
  first_failed (as_completed (order (List.length before)) (submit_all r)) = Some o ->
  predict order now (JArr (before ++ r :: after))
  = (match o with
     | Return d => mkResponse (json_of_dict json_of_prediction d) 200
     | Raise e => mkResponse (error_body (exn_str e)) 500
     end,
     submissions_upto (List.length before)).
Proof.
  intros Hlen Hb Hf.
  assert (Hlen' : (1 <= len (before ++ r :: after) <= 1800)%Z).
  { split; [|exact Hlen]. unfold len. rewrite length_app. simpl. lia. }
  rewrite (predict_accepts order now _ Hlen'). unfold predict_from_models.
  rewrite (fan_out_stops order before r after 0 [] o Hb Hf).
  destruct o; reflexivity.
Qed.

Lemma failing_reading_first_failed (places : list nat) (r : json) :
  (exists name, In name model_names /\ failure_body (task name r) <> None) ->
  exists o name,
    first_failed (as_completed places (submit_all r)) = Some o
    /\ In name model_names /\ o = task name r.
Proof.
  intros (name0 & Hn0 & Hbad).
  destruct (first_failed (as_completed places (submit_all r))) as [o|] eqn:Ef.
  - destruct (first_failed_In _ _ Ef) as [Hin _].
    apply (Permutation_in _ (as_completed_perm _ _)) in Hin.
    rewrite submit_all_tasks in Hin. apply in_map_iff in Hin.
    destruct Hin as (name & <- & Hn). exists (task name r), name. repeat split. exact Hn.
  - exfalso. apply Hbad. apply (proj2 (reading_ok_iff places r)); [|exact Hn0].
    rewrite first_failed_failure, Ef. reflexivity.
Qed.

(** X6.
    The status of a failed batch.  For a batch of an accepted length whose
    first reading with a failing task is [r]: when the first failed future
    of [r] in completion order returned the error dict, the handler answers
    with that dict and status 200; when it raised, the handler answers with
    the exception's message and status 500. *)
Theorem failure_status (order : nat -> list nat) (now : string)
  (before : list json) (r : json) (after : list json) :
  (len (before ++ r :: after) <= 1800)%Z ->
  (forall r', In r' before -> reading_ok r') ->
  (exists name, In name model_names /\ failure_body (task name r) <> None) ->
  exists name,
    In name model_names
    /\ first_failed (as_completed (order (List.length before)) (submit_all r))
       = Some (task name r)
    /\ fst (predict order now (JArr (before ++ r :: after)))
       = match task name r with
         | Return d => mkResponse (json_of_dict json_of_prediction d) 200
         | Raise e => mkResponse (error_body (exn_str e)) 500
         end.
Proof.
  intros Hlen Hb Hbad.
  destruct (failing_reading_first_failed (order (List.length before)) r Hbad)
    as (o & name & Hf & Hn & ->).
  exists name. split; [exact Hn|]. split; [exact Hf|].
  rewrite (predict_at_failure order now before r after _ Hlen Hb Hf).
  destruct (task name r); reflexivity.
Qed.

(** X7.
    A failed batch is answered without a look at what follows the failing
    reading: two batches that agree up to their first reading with a failing
    task get the same answer, and the same tasks are submitted. *)
Theorem failure_ignores_rest (order : nat -> list nat) (now : string)
  (before : list json) (r : json) (after after' : list json) :
  (len (before ++ r :: after) <= 1800)%Z ->
  (len (before ++ r :: after') <= 1800)%Z ->
  (forall r', In r' before -> reading_ok r') ->
  (exists name, In name model_names /\ failure_body (task name r) <> None) ->
  predict order now (JArr (before ++ r :: after))
  = predict order now (JArr (before ++ r :: after')).
Proof.
  intros Hlen Hlen' Hb Hbad.
  destruct (failing_reading_first_failed (order (List.length before)) r Hbad)
    as (o & name & Hf & _ & _).
  rewrite (predict_at_failure order now before r after o Hlen Hb Hf),
    (predict_at_failure order now before r after' o Hlen' Hb Hf).
  reflexivity.
Qed.

(** X8.
    A batch whose first reading is no JSON object is answered with status
    200 and the error dict of one of the models, after the five tasks of
    that reading alone. *)
Theorem non_object_reading_answer (order : nat -> list nat) (now : string)
  (r : json) (rest : list json) :
  (len (r :: rest) <= 1800)%Z ->
  (forall fields, r <> JObj fields) ->
  exists name detail,
    In name model_names
    /\ predict order now (JArr (r :: rest))
       = (mkResponse
            (error_body ("Invalid input for " ++ name ++ ": " ++ detail)) 200,
          submissions_upto 0).
Proof.
  intros Hlen Hno.
  assert (Htask : forall name, In name model_names ->
            exists detail,
              task name r
              = Return [("error",
                         PCat ("Invalid input for " ++ name ++ ": " ++ detail))]).
  { intros name Hn. apply non_object_task; assumption. }
  destruct (failing_reading_first_failed (order 0) r) as (o & name & Hf & Hn & ->).
  { exists "temperature_model". split; [simpl; tauto|].
    destruct (Htask "temperature_model") as (detail & ->); [simpl; tauto|].
    discriminate. }
  destruct (Htask name Hn) as (detail & Ht). exists name, detail.
  split; [exact Hn|].
  change (r :: rest) with ([] ++ r :: rest).
  rewrite (predict_at_failure order now [] r rest _ Hlen (fun r' (H : In r' []) =>
             match H with end) Hf).
  rewrite Ht. reflexivity.
Qed.

End Answers.

Lemma failure_status_witness :
  exists name,
    In name model_names
    /\ first_failed
         (as_completed (in_order 1)
            (submit_all (E := sample_externals) reading_with_bad_vibration_x))
       = Some (task (E := sample_externals) name reading_with_bad_vibration_x)
    /\ fst (predict (E := sample_externals) in_order "T"
              (JArr ([safe_reading] ++ reading_with_bad_vibration_x
                       :: [reading_without_vibration_x])))
       = match task (E := sample_externals) name reading_with_bad_vibration_x with
         | Return d => mkResponse (json_of_dict json_of_prediction d) 200
         | Raise e => mkResponse (error_body (exn_str e)) 500
         end.
Proof.
  apply (failure_status (E := sample_externals) in_order "T" [safe_reading]
           reading_with_bad_vibration_x [reading_without_vibration_x]).
  - vm_compute. discriminate.
  - intros r' [<- | []] name Hn. simpl in Hn.
    repeat (destruct Hn as [<- | Hn]; [reflexivity|]). destruct Hn.
  - exists "vibration_model". split; [simpl; tauto | vm_compute; discriminate].
Defined.

Lemma failure_ignores_rest_witness :
  predict (E := sample_externals) reversed "T"
    (JArr ([safe_reading] ++ reading_without_vibration_x :: [safe_reading; safe_reading]))
  = predict (E := sample_externals) reversed "T"
      (JArr ([safe_reading] ++ reading_without_vibration_x :: [JNull])).
Proof.
  apply (failure_ignores_rest (E := sample_externals) reversed "T" [safe_reading]
           reading_without_vibration_x).
  - vm_compute. discriminate.
  - vm_compute. discriminate.
  - intros r' [<- | []] name Hn. simpl in Hn.
    repeat (destruct Hn as [<- | Hn]; [reflexivity|]). destruct Hn.
  - exists "vibration_model". split; [simpl; tauto | vm_compute; discriminate].
Defined.

Lemma non_object_reading_answer_witness :
  exists name detail,
    In name model_names
    /\ predict (E := sample_externals) reversed "T" (JArr [JFloat 60; safe_reading])
       = (mkResponse
            (error_body ("Invalid input for " ++ name ++ ": " ++ detail)) 200,
          submissions_upto 0).
Proof.
  apply (non_object_reading_answer (E := sample_externals) reversed "T").
  - vm_compute. discriminate.
  - intros fields. discriminate.
Defined.

(** ** Batches every model can score *)

Section Success.
Context {E : Externals}.

Lemma Forall2_In_l {A B} (R : A -> B -> Prop) (l : list A) (l' : list B) (a : A) :
  Forall2 R l l' -> In a l -> exists b, In b l' /\ R a b.
Proof.
  induction 1 as [|x y l l' Hxy _ IH]; intros Hin; [destruct Hin|].
  destruct Hin as [<- | Hin].
  - exists y. split; [left; reflexivity | exact Hxy].
  - destruct (IH Hin) as (b & Hb & Hab). exists b. split; [right|]; assumption.
Qed.

Lemma Forall2_In_r {A B} (R : A -> B -> Prop) (l : list A) (l' : list B) (b : B) :
  Forall2 R l l' -> In b l' -> exists a, In a l /\ R a b.
Proof.
  induction 1 as [|x y l l' Hxy _ IH]; intros Hin; [destruct Hin|].
  destruct Hin as [<- | Hin].
  - exists x. split; [left; reflexivity | exact Hxy].
  - destruct (IH Hin) as (a & Ha & Hab). exists a. split; [right|]; assumption.
Qed.

(** A task that does not fail has read every feature of its model. *)
Lemma task_features (name : string) (r : json) (features : list string) :
  dict_get name feature_sets = Some features ->
  failure_body (task name r) = None ->
  forall f, In f features -> exists x, reading_value r f = Return x.
Proof.
  intros Hfs Hok f Hf. unfold task, predict_single_model in Hok.
  rewrite (dict_subscript_some _ _ _ Hfs) in Hok. cbn [bind] in Hok.
  destruct (comprehension (fun feature => reading_value r feature) features)
    as [X|e] eqn:Ec.
  - apply comprehension_Forall2 in Ec.
    destruct (Forall2_In_l _ _ _ f Ec Hf) as (x & _ & Hx). exists x. exact Hx.
  - exfalso. cbn [bind try_except] in Hok.
    destruct (exn_cls e); simpl in Hok; discriminate.
Qed.

(** A reading every model can score carries every feature of the models,
    with values [float] accepts. *)
Lemma reading_ok_features (r : json) (key : string) :
  reading_ok r -> In key stated_mode_features ->
  exists x, reading_value r key = Return x.
Proof.
  intros Hok Hk.
  assert (H : forall name features,
            In name model_names -> dict_get name feature_sets = Some features ->
            In key features -> exists x, reading_value r key = Return x).
  { intros name features Hn Hfs Hin.
    apply (task_features name r features Hfs (Hok name Hn) key Hin). }
  simpl in Hk.
  destruct Hk as [<- | [<- | Hk]];
    [apply (H "temperature_model" ["temperature_one"; "temperature_two"]);
       simpl; tauto ..|].
  destruct Hk as [<- | [<- | [<- | Hk]]];
    [apply (H "vibration_model" ["vibration_x"; "vibration_y"; "vibration_z"]);
       simpl; tauto ..|].
  destruct Hk as [<- | [<- | [<- | Hk]]];
    [apply (H "magnetic_flux_model"
              ["magnetic_flux_x"; "magnetic_flux_y"; "magnetic_flux_z"]);
       simpl; tauto ..|].
  destruct Hk as [<- | [<- | []]].
  - apply (H "audible_sound_model"
             ["vibration_x"; "vibration_y"; "vibration_z"; "audible_sound"]);
      simpl; tauto.
  - apply (H "ultra_sound_model"
             ["vibration_x"; "vibration_y"; "vibration_z"; "ultra_sound"]);
      simpl; tauto.
Qed.

(** The aggregation of the predictions gathered from readings every model
    scored returns, with one entry per model. *)
Lemma aggregate_gathered (batch : list json) (gathered : list (dict prediction)) :
  batch <> [] ->
  Forall2 predictions_of batch gathered ->
  exists aggregated,
    aggregate_predictions gathered = Return aggregated
    /\ map fst aggregated = map (replace "_model" "") model_names.
Proof.
  intros Hne Hall.
  destruct (aggregate_loop gathered model_names []) as (aggregated & Hrun & Hkeys & _).
  - exact prediction_keys_NoDup.
  - intros name Hn.
    destruct (series_exists (replace "_model" "" name) gathered) as (series & Hs & Hlen).
    { intros pred Hpred. destruct (Forall2_In_r _ _ _ pred Hall Hpred) as (r & _ & Hp).
      destruct (Hp name Hn) as (p & _ & Hget). exists p. exact Hget. }
    destruct (aggregate_series_spec series) as (value & Hv & _).
    { intros ->. apply Hne. apply Forall2_length_eq in Hall. simpl in Hlen.
      destruct batch; [reflexivity|]. rewrite <- Hall in Hlen. discriminate. }
    exists series, value. split; assumption.
  - exists aggregated. split; [exact Hrun | exact Hkeys].
Qed.

(** The answer to a batch of 1 to 1800 readings, each of which every model
    scores. *)
Lemma predict_scored (order : nat -> list nat) (now : string)
  (batch : list json) :
  (1 <= len batch <= 1800)%Z ->
  (forall r, In r batch -> reading_ok r) ->
  exists aggregated modes t1 t2 vx vy vz,
    predict order now (JArr batch)
    = (mkResponse
         (JObj [ ("predictions", json_of_dict json_of_prediction aggregated);
                 ("modes", json_of_dict JFloat modes);
                 ("Analysis_summary",
                   json_of_dict JStr
                     (health_report now ((t1 + t2) / 2) ((vx + vy + vz) / 3))) ])
         200,
       submitted_from 0 (List.length batch))
    /\ map fst aggregated
       = ["temperature"; "vibration"; "magnetic_flux"; "audible_sound"; "ultra_sound"]
    /\ map fst modes = extracted_features
    /\ health_inputs modes t1 t2 vx vy vz.
Proof.
  intros Hlen Hok.
  assert (Hne : batch <> []).
  { intros ->. unfold len in Hlen. simpl in Hlen. lia. }
  destruct (predict_from_models_ok order now batch Hok) as (gathered & Hall & Hrun).
  destruct (aggregate_gathered batch gathered Hne Hall) as (aggregated & Hagg & Hkeys).
  destruct (calculate_modes_spec batch Hne) as (modes & Hmodes & Hmk & Hcols).
  { intros r key Hr Hk. apply (reading_ok_features r key (Hok r Hr)).
    simpl in *. tauto. }
  assert (Hget : forall key, In key extracted_features ->
            exists v, dict_get key modes = Some v).
  { intros key Hk. destruct (Hcols key Hk) as (_ & v & _ & Hv & _). exists v. exact Hv. }
  destruct (Hget "temperature_one") as [t1 H1]; [simpl; tauto|].
  destruct (Hget "temperature_two") as [t2 H2]; [simpl; tauto|].
  destruct (Hget "vibration_x") as [vx H3]; [simpl; tauto|].
  destruct (Hget "vibration_y") as [vy H4]; [simpl; tauto|].
  destruct (Hget "vibration_z") as [vz H5]; [simpl; tauto|].
  assert (Hin : health_inputs modes t1 t2 vx vy vz) by (repeat split; assumption).
  exists aggregated, modes, t1, t2, vx, vy, vz.
  rewrite (predict_accepts order now batch Hlen), Hrun. cbn [fst snd].
  rewrite Hagg, Hmodes. cbn [bind].
  rewrite (analyze_health_returns now modes t1 t2 vx vy vz Hin). cbn [bind answer_body].
  split; [reflexivity|]. split; [exact Hkeys|]. split; [exact Hmk | exact Hin].
Qed.

(** X9.
    A batch of 1 to 1800 readings, each of which every model scores, gets a
    full answer: status 200; a prediction per model; a mode per extracted
    feature; the report of the health rules on the averages of the modes;
    and five tasks were submitted for each reading, in batch order. *)
Theorem scored_batch_answer (order : nat -> list nat) (now : string)
  (batch : list json) :
  (1 <= len batch <= 1800)%Z ->
  (forall r, In r batch -> reading_ok r) ->
  exists aggregated modes t1 t2 vx vy vz,
    predict order now (JArr batch)
    = (mkResponse
         (JObj [ ("predictions", json_of_dict json_of_prediction aggregated);
                 ("modes", json_of_dict JFloat modes);
                 ("Analysis_summary",
                   json_of_dict JStr
                     (health_report now ((t1 + t2) / 2) ((vx + vy + vz) / 3))) ])
         200,
       submitted_from 0 (List.length batch))
    /\ map fst aggregated
       = ["temperature"; "vibration"; "magnetic_flux"; "audible_sound"; "ultra_sound"]
    /\ map fst modes = extracted_features
    /\ health_inputs modes t1 t2 vx vy vz.
Proof. exact (predict_scored order now batch). Qed.

Lemma submitted_from_S (i n : nat) :
  submitted_from i (S n) = map (fun name => (i, name)) model_names ++ submitted_from (S i) n.
Proof. reflexivity. Qed.

Lemma fan_out_trace (order : nat -> list nat) (batch : list json) (i : nat)
  (all_predictions : list (dict prediction)) :
  exists n,
    n <= List.length batch
    /\ (batch <> [] -> 1 <= n)
    /\ snd (fan_out order i batch all_predictions) = submitted_from i n.
Proof.
  revert i all_predictions. induction batch as [|r rest IH]; intros i acc.
  - exists 0. split; [lia|]. split; [congruence | reflexivity].
  - rewrite fan_out_step.
    destruct (collect (as_completed (order i) (submit_all r)) []) as [p|d|e].
    + destruct (IH (S i) (acc ++ [p])) as (n & Hn & _ & Ht).
      exists (S n). split; [simpl; lia|]. split; [lia|].
      rewrite submitted_from_S, <- Ht.
      destruct (fan_out order (S i) rest (acc ++ [p])). reflexivity.
    + exists 1. split; [simpl; lia|]. split; [lia|].
      rewrite submitted_from_S. cbn [snd]. unfold submitted_from. simpl.
      reflexivity.
    + exists 1. split; [simpl; lia|]. split; [lia|].
      rewrite submitted_from_S. cbn [snd]. unfold submitted_from. simpl.
      reflexivity.
Qed.

(** X10.
    Whatever the request, the completion orders and the models: the tasks
    submitted are the five tasks of each of the first [n] readings, reading
    by reading and model by model, for some [n] that is at most the number
    of readings; no reading is skipped or submitted in part; and [n] is 0
    exactly when the answer has status 400. *)
Theorem submissions_are_a_prefix (order : nat -> list nat) (now : string)
  (input : json) :
  exists n,
    snd (predict order now input) = submitted_from 0 n
    /\ List.length (snd (predict order now input)) = 5 * n
    /\ (n = 0 <-> resp_status (fst (predict order now input)) = 400%Z)
    /\ match input with
       | JArr items => n <= List.length items
       | _ => n = 0
       end.
Proof.
  assert (Hlen5 : forall i n, List.length (submitted_from i n) = 5 * n).
  { intros i n. revert i. induction n as [|n IH]; intros i; [reflexivity|].
    rewrite submitted_from_S, length_app, IH. simpl. lia. }
  destruct input as [| | | | |items|];
    try (exists 0; repeat split; reflexivity).
  destruct (Z.ltb_spec 1800 (len items)) as [Hlong | Hshort].
  { exists 0. unfold predict. destruct (Z.ltb_spec 1800 (len items)); [|lia].
    repeat split; try reflexivity. lia. }
  destruct (Z.eqb_spec (len items) 0) as [Hzero | Hpos].
  { exists 0. unfold predict. destruct (Z.ltb_spec 1800 (len items)); [lia|].
    rewrite Hzero. repeat split; try reflexivity. lia. }
  assert (Hlen : (1 <= len items <= 1800)%Z) by (unfold len in *; lia).
  destruct (fan_out_trace order items 0 []) as (n & Hn & Hpos' & Ht).
  assert (Hne : items <> []) by (intros ->; apply Hpos; reflexivity).
  exists n. rewrite (predict_accepts order now items Hlen). cbn [fst snd resp_status].
  assert (Hs : snd (predict_from_models order now items) = submitted_from 0 n).
  { unfold predict_from_models. rewrite <- Ht.
    destruct (fan_out order 0 items []) as [[p|d|e] s]; reflexivity. }
  rewrite Hs. split; [reflexivity|]. split; [apply Hlen5|]. split; [|exact Hn].
  specialize (Hpos' Hne). split; [lia|].
  destruct (fst (predict_from_models order now items)); discriminate.
Qed.

End Success.

Lemma scored_batch_answer_witness :
  exists aggregated modes t1 t2 vx vy vz,
    predict (E := sample_externals) reversed "T" (JArr [safe_reading; safe_reading])
    = (mkResponse
         (JObj [ ("predictions", json_of_dict json_of_prediction aggregated);
                 ("modes", json_of_dict JFloat modes);
                 ("Analysis_summary",
                   json_of_dict JStr
                     (health_report "T" ((t1 + t2) / 2) ((vx + vy + vz) / 3))) ])
         200,
       submitted_from 0 2)
    /\ map fst aggregated
       = ["temperature"; "vibration"; "magnetic_flux"; "audible_sound"; "ultra_sound"]
    /\ map fst modes = extracted_features
    /\ health_inputs modes t1 t2 vx vy vz.
Proof.
  apply (scored_batch_answer (E := sample_externals) reversed "T"
           [safe_reading; safe_reading]).
  - unfold len. simpl. lia.
  - intros r [<- | [<- | []]] name Hn; simpl in Hn;
      repeat (destruct Hn as [<- | Hn]; [reflexivity|]); destruct Hn.
Defined.

(** ** The replay client *)

Section Batches.
Context {A : Type}.

Lemma firstn_add (a b : nat) (l : list A) :
  firstn (a + b) l = firstn a l ++ firstn b (skipn a l).
Proof.
  revert l. induction a as [|a IH]; intros l; [reflexivity|].
  destruct l as [|x l]; simpl.
  - rewrite firstn_nil. reflexivity.
  - rewrite IH. reflexivity.
Qed.

Lemma firstn_min_length (m : nat) (l : list A) :
  firstn (Nat.min m (List.length l)) l = firstn m l.
Proof.
  destruct (Nat.le_gt_cases m (List.length l)) as [H | H].
  - rewrite Nat.min_l by exact H. reflexivity.
  - rewrite Nat.min_r by lia. rewrite firstn_all, firstn_all2 by lia. reflexivity.
Qed.

(** A slice that starts at a position [i] and spans [b] positions. *)
Lemma py_slice_nat (l : list A) (i b : nat) :
  py_slice l (Z.of_nat i) (Z.of_nat i + Z.of_nat b) = firstn b (skipn i l).
Proof.
  unfold py_slice, slice_index, len.
  destruct (Z.ltb_spec (Z.of_nat i) 0); [lia|].
  destruct (Z.ltb_spec (Z.of_nat i + Z.of_nat b) 0); [lia|].
  destruct (Nat.le_gt_cases i (List.length l)) as [Hi | Hi].
  - rewrite (Z.min_l (Z.of_nat i)) by lia. rewrite Nat2Z.id.
    rewrite <- (firstn_min_length b), length_skipn. f_equal. lia.
  - rewrite (Z.min_r (Z.of_nat i)) by lia. rewrite Nat2Z.id.
    rewrite skipn_all, (skipn_all2 l) by lia. rewrite !firstn_nil. reflexivity.
Qed.

(** The batches, as slices of [b] rows at the multiples of [b]. *)
Lemma read_csv_chunks (rows : list A) (batch_size : Z) :
  (0 < batch_size)%Z ->
  read_csv_in_batches (Return rows) batch_size
  = Return (map (fun k => firstn (Z.to_nat batch_size)
                            (skipn (k * Z.to_nat batch_size) rows))
              (seq 0 (Z.to_nat (range_length 0 (len rows) batch_size)))).
Proof.
  intros Hb. unfold read_csv_in_batches, py_range.
  destruct (Z.eqb_spec batch_size 0); [lia|]. cbn [bind]. f_equal.
  rewrite map_map. apply map_ext. intros k.
  rewrite <- (py_slice_nat rows (k * Z.to_nat batch_size) (Z.to_nat batch_size)).
  rewrite Nat2Z.inj_mul, Z2Nat.id by lia. reflexivity.
Qed.

Lemma concat_chunks (rows : list A) (b c : nat) :
  List.concat (map (fun k => firstn b (skipn (k * b) rows)) (seq 0 c))
  = firstn (c * b) rows.
Proof.
  induction c as [|c IH]; [reflexivity|].
  rewrite seq_S, map_app, concat_app, IH. simpl.
  rewrite app_nil_r, (Nat.add_comm b), firstn_add. reflexivity.
Qed.

(** The number of batches [c] for [n] rows in batches of [b]. *)
Lemma range_length_bounds (n : nat) (batch_size : Z) :
  (0 < batch_size)%Z ->
  let b := Z.to_nat batch_size in
  let c := Z.to_nat (range_length 0 (Z.of_nat n) batch_size) in
  n <= c * b
  /\ (forall k, k < c -> k * b < n)
  /\ (forall k, S k < c -> S k * b < n)
  /\ Z.of_nat c = ((Z.of_nat n + batch_size - 1) / batch_size)%Z.
Proof.
  intros Hb b c. unfold range_length in c.
  destruct (Z.ltb_spec 0 batch_size); [|lia].
  assert (Eb : Z.of_nat b = batch_size) by (unfold b; lia).
  destruct (Z.ltb_spec 0 (Z.of_nat n)) as [Hn | Hn].
  - set (q := ((Z.of_nat n - 0 - 1) / batch_size)%Z) in *.
    pose proof (Z.div_mod (Z.of_nat n - 0 - 1) batch_size ltac:(lia)) as Hdm.
    pose proof (Z.mod_pos_bound (Z.of_nat n - 0 - 1) batch_size Hb) as Hr.
    fold q in Hdm.
    assert (Hq : (0 <= q)%Z) by (apply Z.div_pos; lia).
    assert (Ec : Z.of_nat c = (q + 1)%Z) by (unfold c; lia).
    split; [|split; [|split]].
    + apply Nat2Z.inj_le. rewrite Nat2Z.inj_mul, Ec, Eb. nia.
    + intros k Hk. apply Nat2Z.inj_lt. rewrite Nat2Z.inj_mul, Eb.
      assert (Z.of_nat k <= q)%Z by lia. nia.
    + intros k Hk. apply Nat2Z.inj_lt. rewrite Nat2Z.inj_mul, Eb.
      assert (Z.of_nat (S k) <= q)%Z by lia. nia.
    + rewrite Ec. unfold q.
      replace (Z.of_nat n + batch_size - 1)%Z
        with (Z.of_nat n - 0 - 1 + 1 * batch_size)%Z by lia.
      rewrite Z.div_add by lia. reflexivity.
  - assert (n = 0) by lia. subst n. unfold c. simpl.
    split; [lia|]. split; [intros k Hk; lia|]. split; [intros k Hk; lia|].
    symmetry. apply Z.div_small. lia.
Qed.

End Batches.

Section Client.
Context {E : Externals}.

(** A batch of 1 to 1800 readings, each of which every model scores: the
    answer has the three fields and status 200. *)
Lemma predict_scored_shape (order : nat -> list nat) (now : string)
  (batch : list json) :
  (1 <= len batch <= 1800)%Z ->
  (forall r, In r batch -> reading_ok r) ->
  exists p m a,
    fst (predict order now (JArr batch))
    = mkResponse (JObj [("predictions", p); ("modes", m); ("Analysis_summary", a)]) 200.
Proof.
  intros Hlen Hok.
  destruct (predict_scored order now batch Hlen Hok)
    as (aggregated & modes & t1 & t2 & vx & vy & vz & -> & _).
  do 3 eexists. reflexivity.
Qed.

(** A batch of an accepted length with a reading that has a failing task:
    the answer is an error body, with status 200 or 500. *)
Lemma predict_failed (order : nat -> list nat) (now : string) (batch : list json) :
  (1 <= len batch <= 1800)%Z ->
  ~ (forall r, In r batch -> reading_ok r) ->
  exists message status,
    fst (predict order now (JArr batch)) = mkResponse (error_body message) status
    /\ (status = 200 \/ status = 500)%Z.
Proof.
  intros Hlen Hbad.
  destruct (first_failing_reading batch) as [Hok | (before & r & after & -> & Hb & Hr)];
    [contradiction|].
  destruct (predict_from_models_fail order now before r after Hb Hr)
    as (name & message & _ & _ & _ & Hbody & _).
  rewrite (predict_accepts order now _ Hlen). cbn [fst].
  rewrite Hbody. exists message.
  destruct (fst (predict_from_models order now (before ++ r :: after)));
    eexists; (split; [reflexivity|]); [left | right]; reflexivity.
Qed.

(** X16.
    What the client makes of the handler's answer to a batch of 1 to 1800
    readings: the result has the key [error] exactly when some reading of
    the batch has a task that fails, whether the handler answered with
    status 200 or 500; otherwise it is the full result with its three
    fields. *)
Theorem client_result (order : nat -> list nat) (now : string)
  (http_error : response -> string) (batch : list json) :
  (1 <= len batch <= 1800)%Z ->
  let server := fun input => fst (predict order now input) in
  (has_key "error" (send_data_to_api server http_error batch) = true
   <-> ~ (forall r, In r batch -> reading_ok r))
  /\ ((forall r, In r batch -> reading_ok r) ->
      exists p m a,
        send_data_to_api server http_error batch
        = JObj [("predictions", p); ("modes", m); ("Analysis_summary", a)]).
Proof.
  intros Hlen server.
  assert (Hgood : (forall r, In r batch -> reading_ok r) ->
            exists p m a,
              send_data_to_api server http_error batch
              = JObj [("predictions", p); ("modes", m); ("Analysis_summary", a)]).
  { intros Hok. destruct (predict_scored_shape order now batch Hlen Hok)
      as (p & m & a & Hrun).
    exists p, m, a. unfold send_data_to_api, server. rewrite Hrun. reflexivity. }
  split; [|exact Hgood]. split.
  - intros Hkey Hok. destruct (Hgood Hok) as (p & m & a & Hr).
    rewrite Hr in Hkey. discriminate.
  - intros Hbad.
    destruct (predict_failed order now batch Hlen Hbad)
      as (message & status & Hrun & [-> | ->]);
      unfold send_data_to_api, server; rewrite Hrun; reflexivity.
Qed.

(** X14.
    The batches of the generator for a positive batch size: together they
    are the rows, in order; there are ceil(n / batch_size) of them; none is
    empty or longer than the batch size; and all but the last hold exactly
    [batch_size] rows. *)
Theorem batches_partition {A} (rows : list A) (batch_size : Z) :
  (0 < batch_size)%Z ->
  exists batches,
    read_csv_in_batches (Return rows) batch_size = Return batches
    /\ List.concat batches = rows
    /\ len batches = ((len rows + batch_size - 1) / batch_size)%Z
    /\ (forall batch, In batch batches -> (1 <= len batch <= batch_size)%Z)
    /\ (forall k, S k < List.length batches -> len (nth k batches []) = batch_size).
Proof.
  intros Hb. rewrite (read_csv_chunks rows batch_size Hb).
  destruct (range_length_bounds (List.length rows) batch_size Hb)
    as (Hall & Hlt & Hfull & Hcount).
  unfold len.
  set (b := Z.to_nat batch_size) in *.
  set (c := Z.to_nat (range_length 0 (Z.of_nat (List.length rows)) batch_size)) in *.
  assert (Eb : Z.of_nat b = batch_size) by (unfold b; lia).
  eexists. split; [reflexivity|]. split; [|split; [|split]].
  - rewrite concat_chunks. apply firstn_all2. exact Hall.
  - rewrite length_map, length_seq. exact Hcount.
  - intros batch Hin. apply in_map_iff in Hin. destruct Hin as (k & <- & Hk).
    apply in_seq in Hk. rewrite length_firstn, length_skipn.
    pose proof (Hlt k ltac:(lia)). lia.
  - intros k Hk. rewrite length_map, length_seq in Hk.
    rewrite (nth_indep _ [] (firstn b (skipn (0 * b) rows)))
      by (rewrite length_map, length_seq; lia).
    rewrite (map_nth (fun k => firstn b (skipn (k * b) rows))), seq_nth by lia.
    rewrite length_firstn, length_skipn.
    pose proof (Hfull k Hk). simpl in *. lia.
Qed.

(** X15.
    The generator outside its intended use: when the file cannot be read
    the client leaves with exit status 1; a batch size of 0 raises the
    [ValueError] of [range]; and for a negative batch size no batch is
    yielded, whatever the rows. *)
Theorem batches_edge_cases {A} (rows : list A) (batch_size : Z) (e : exn) :
  read_csv_in_batches (@Raise (list A) e) batch_size
  = Raise (mkExn (OtherError "SystemExit") "1")
  /\ (batch_size = 0%Z ->
      exists message,
        read_csv_in_batches (Return rows) batch_size = Raise (mkExn ValueError message))
  /\ ((batch_size < 0)%Z -> read_csv_in_batches (Return rows) batch_size = Return []).
Proof.
  split; [reflexivity|]. split.
  - intros ->. eexists. reflexivity.
  - intros Hneg. unfold read_csv_in_batches, py_range, range_length.
    destruct (Z.eqb_spec batch_size 0); [lia|].
    destruct (Z.ltb_spec 0 batch_size); [lia|].
    destruct (Z.ltb_spec (len rows) 0); [unfold len in *; lia|]. reflexivity.
Qed.

(** X17.
    The client against the handler: every row of the file is sent once, in
    order, in batches of at most 300; no batch is refused with status 400;
    the tasks of the first reading of every batch are submitted; and [main]
    gets one result per batch. *)
Theorem main_replay (order : nat -> list nat) (now : string)
  (http_error : response -> string) (rows : list json) :
  let server := fun input => fst (predict order now input) in
  exists batches,
    read_csv_in_batches (Return rows) 300 = Return batches
    /\ List.concat batches = rows
    /\ main server http_error (Return rows)
       = Return (map (send_data_to_api server http_error) batches)
    /\ forall batch, In batch batches ->
         resp_status (server (JArr batch)) <> 400%Z
         /\ exists later,
              snd (predict order now (JArr batch))
              = map (fun name => (0, name)) model_names ++ later.
Proof.
  intros server. unfold main.
  rewrite (read_csv_chunks rows 300 ltac:(lia)).
  destruct (range_length_bounds (List.length rows) 300 ltac:(lia))
    as (Hall & Hlt & _ & _).
  unfold len at 1.
  set (c := Z.to_nat (range_length 0 (Z.of_nat (List.length rows)) 300)) in *.
  change (Z.to_nat 300) with 300 in *.
  eexists. split; [reflexivity|]. split; [|split; [reflexivity|]].
  - rewrite concat_chunks. apply firstn_all2. exact Hall.
  - intros batch Hin. apply in_map_iff in Hin. destruct Hin as (k & <- & Hk).
    apply in_seq in Hk. pose proof (Hlt k ltac:(lia)) as Hk'.
    set (batch := firstn 300 (skipn (k * 300) rows)).
    assert (Hlen : (1 <= len batch <= 1800)%Z).
    { unfold len, batch. rewrite length_firstn, length_skipn. lia. }
    unfold server. rewrite (predict_accepts order now batch Hlen).
    cbn [fst snd resp_status]. split.
    + destruct (fst (predict_from_models order now batch)); discriminate.
    + destruct batch as [|r rest] eqn:Eb; [unfold len in Hlen; simpl in Hlen; lia|].
      apply predict_from_models_submits.
Qed.

End Client.

Lemma client_result_witness :
  let server := fun input =>
    fst (predict (E := sample_externals) in_order "T" input) in
  (has_key "error"
     (send_data_to_api server (fun _ => "500 Server Error")
        [safe_reading; reading_without_vibration_x]) = true
   <-> ~ (forall r, In r [safe_reading; reading_without_vibration_x] ->
          reading_ok (E := sample_externals) r))
  /\ ((forall r, In r [safe_reading; reading_without_vibration_x] ->
       reading_ok (E := sample_externals) r) ->
      exists p m a,
        send_data_to_api server (fun _ => "500 Server Error")
          [safe_reading; reading_without_vibration_x]
        = JObj [("predictions", p); ("modes", m); ("Analysis_summary", a)]).
Proof.
  apply (client_result (E := sample_externals) in_order "T"
           (fun _ => "500 Server Error") [safe_reading; reading_without_vibration_x]).
  unfold len. simpl. lia.
Defined.

Lemma batches_partition_witness :
  exists batches,
    read_csv_in_batches (Return [1; 2; 3; 4; 5; 6; 7]) 3 = Return batches
    /\ List.concat batches = [1; 2; 3; 4; 5; 6; 7]
    /\ len batches = ((len [1; 2; 3; 4; 5; 6; 7] + 3 - 1) / 3)%Z
    /\ (forall batch, In batch batches -> (1 <= len batch <= 3)%Z)
    /\ (forall k, S k < List.length batches -> len (nth k batches []) = 3%Z).
Proof.
  apply (batches_partition [1; 2; 3; 4; 5; 6; 7] 3). lia.
Defined.

(** ** The modes and the values of the batch *)

Section ModeValues.
Context {E : Externals}.

(** X11.
    Every mode is a value some reading of the batch holds for the feature:
    the extractor reports observed values only. *)
Theorem modes_are_observed (batch : list json) :
  batch <> [] ->
  (forall input_data key,
     In input_data batch -> In key extracted_features ->
     exists x, reading_value input_data key = Return x) ->
  exists modes,
    calculate_modes batch = Return modes
    /\ forall key, In key extracted_features ->
         exists v input_data,
           dict_get key modes = Some v
           /\ In input_data batch
           /\ reading_value input_data key = Return v.
Proof.
  intros Hne H.
  destruct (calculate_modes_objects batch Hne H) as (modes & Hrun & _ & Hcols).
  exists modes. split; [exact Hrun|]. intros key Hkey.
  destruct (Hcols key Hkey) as (objects & mode & Hcol & Hv & Hget & _).
  apply most_common_value_member in Hv.
  apply comprehension_Forall2 in Hcol.
  destruct (Forall2_In_r _ _ _ mode Hcol Hv) as (r & Hr & Hrv).
  exists (fst mode), r. split; [exact Hget|]. split; [exact Hr|].
  apply reading_object_value, Hrv.
Qed.

(** X12.
    A value that more than half of the readings hold for a feature is the
    mode of the feature, wherever in the batch these readings stand. *)
Theorem majority_is_mode (batch : list json) (key : string) (column : list float)
  (x : float) :
  (forall input_data key,
     In input_data batch -> In key extracted_features ->
     exists x, reading_value input_data key = Return x) ->
  In key extracted_features ->
  feature_column key batch = Return column ->
  Forall is_num column ->
  List.length column < 2 * count_of PrimFloat.eqb x column ->
  exists modes v,
    calculate_modes batch = Return modes
    /\ dict_get key modes = Some v
    /\ PrimFloat.eqb v x = true.
Proof.
  intros H Hkey Hcol Hnum Hmaj.
  assert (Hne : batch <> []).
  { intros ->. simpl in Hcol. injection Hcol as <-. simpl in Hmaj. lia. }
  destruct (calculate_modes_spec batch Hne H) as (modes & Hrun & _ & Hspec).
  destruct (Hspec key Hkey) as (column' & v & Hcol' & Hget & Hmode).
  rewrite Hcol in Hcol'. injection Hcol' as <-.
  exists modes, v. split; [exact Hrun|]. split; [exact Hget|].
  apply (majority_most_frequent PrimFloat.eqb float_eqb_sym float_eqb_trans
           column v x (Hmode Hnum) Hmaj).
Qed.

End ModeValues.

Lemma modes_are_observed_witness :
  exists modes,
    calculate_modes (E := sample_externals) tie_batch = Return modes
    /\ forall key, In key extracted_features ->
         exists v input_data,
           dict_get key modes = Some v
           /\ In input_data tie_batch
           /\ reading_value (E := sample_externals) input_data key = Return v.
Proof.
  apply (modes_are_observed (E := sample_externals) tie_batch).
  - discriminate.
  - apply sample_readings_complete.
Defined.

Lemma majority_is_mode_witness :
  exists modes v,
    calculate_modes (E := sample_externals)
      (map reading_with_vibration_x [2; 1; 1]%float) = Return modes
    /\ dict_get "vibration_x" modes = Some v
    /\ PrimFloat.eqb v 1%float = true.
Proof.
  apply (majority_is_mode (E := sample_externals)
           (map reading_with_vibration_x [2; 1; 1]%float) "vibration_x"
           [2; 1; 1]%float 1%float).
  - apply sample_readings_complete.
  - simpl. tauto.
  - reflexivity.
  - repeat constructor.
  - vm_compute. lia.
Defined.

(** ** The aggregate and the labels of the batch *)

Section AggregateMajority.
Context {E : Externals}.

(** X13.
    A label that a model predicts for more than half of the readings is
    the model's aggregate, wherever in the batch these readings stand and
    whatever the model predicts for the others. *)
Theorem majority_label_is_aggregate (predictions_list : list (dict prediction))
  (model_name : string) (series : list prediction) (label : string) :
  In model_name model_names ->
  (forall pred name,
     In pred predictions_list -> In name model_names ->
     exists p, dict_get (replace "_model" "" name) pred = Some p) ->
  model_series (replace "_model" "" model_name) predictions_list = Return series ->
  Forall prediction_is_num series ->
  List.length series < 2 * count_of prediction_eqb (PCat label) series ->
  exists aggregated,
    aggregate_predictions predictions_list = Return aggregated
    /\ dict_get (replace "_model" "" model_name) aggregated = Some (PCat label).
Proof.
  intros Hname H Hs Hnum Hmaj.
  assert (Hseries : forall name, In name model_names ->
            exists series,
              model_series (replace "_model" "" name) predictions_list = Return series
              /\ List.length series = List.length predictions_list).
  { intros name Hin. apply series_exists. intros pred Hp. apply (H pred name Hp Hin). }
  assert (Hne : predictions_list <> []).
  { intros ->. simpl in Hs. injection Hs as <-. simpl in Hmaj. lia. }
  destruct (aggregate_loop predictions_list model_names [])
    as (aggregated & Hrun & Hkeys & _ & Hnames).
  - exact prediction_keys_NoDup.
  - intros name Hin. destruct (Hseries name Hin) as (series' & Hs' & Hlen).
    destruct (aggregate_series_spec series') as (value & Hv & _).
    + intros ->. destruct predictions_list; [congruence | discriminate].
    + exists series', value. split; assumption.
  - destruct (Hnames model_name Hname) as (series' & value & Hs' & Hv & Hin).
    rewrite Hs in Hs'. injection Hs' as <-.
    assert (Hn : series <> []).
    { intros ->. simpl in Hmaj. lia. }
    destruct (aggregate_series_spec series Hn) as (value' & Hv' & _ & Hcat).
    rewrite Hv in Hv'. injection Hv' as <-.
    assert (Hmixed : forallb is_number series = false).
    { unfold count_of in Hmaj.
      destruct (filter (prediction_eqb (PCat label)) series) as [|y f] eqn:Ef;
        [simpl in Hmaj; lia|].
      assert (Hy : In y series /\ prediction_eqb (PCat label) y = true).
      { apply filter_In. rewrite Ef. left. reflexivity. }
      destruct Hy as [Hy Ey]. destruct y as [x|t]; [discriminate|].
      destruct (forallb is_number series) eqn:Hall; [|reflexivity].
      rewrite forallb_forall in Hall. specialize (Hall _ Hy). discriminate. }
    destruct (Hcat Hmixed) as (v & -> & Hmode).
    pose proof (majority_most_frequent prediction_eqb prediction_eqb_sym
                  prediction_eqb_trans series v (PCat label) (Hmode Hnum) Hmaj) as Ev.
    destruct v as [x|t]; [discriminate|]. simpl in Ev.
    apply String.eqb_eq in Ev. subst t.
    exists aggregated. split; [exact Hrun|].
    apply In_dict_get; [|exact Hin]. rewrite Hkeys. exact prediction_keys_NoDup.
Qed.

End AggregateMajority.

Lemma majority_label_is_aggregate_witness :
  exists aggregated,
    aggregate_predictions (E := sample_externals)
      (map prediction_mapping [PNum 1%float; PCat "a"; PCat "a"]) = Return aggregated
    /\ dict_get "temperature" aggregated = Some (PCat "a").
Proof.
  apply (majority_label_is_aggregate (E := sample_externals)
           (map prediction_mapping [PNum 1%float; PCat "a"; PCat "a"])
           "temperature_model" [PNum 1%float; PCat "a"; PCat "a"] "a").
  - simpl. tauto.
  - apply sample_mappings_complete.
  - reflexivity.
  - repeat constructor.
  - vm_compute. lia.
Defined.
